(** * run-command-handler-linux: download engine, sequence guard, status
      persistence, blob sinks

    A shallow embedding of

    - [pkg/download]             : [WithRetries] and its status classifiers,
    - [internal/commands]        : [checkAndSaveSeqNum], [appendToBlob],
                                   [createOrReplaceAppendBlob], [enablePre],
                                   [downloadScript], [downloadArtifacts],
                                   [runCmd] and [enable] up to the start of
                                   the script, with its output streamer,
    - [internal/status]          : [saveStatusReport], [getRootStatusJson] and
                                   the two reporters,
    - [internal/handlersettings] : [GetHandlerEnv] and [ParseHandlerEnv],
    - [pkg/servicehandler]       : [Register] and [DeRegister],
    - the shell shim             : [check_binary_write_lock],

    together with the properties the specification states about them and
    further properties read off the code.  Go's [int] and [int64] are
    modelled by [Z]; functions that perform I/O thread an explicit world and
    emit the effects they perform, in program order. *)

From Stdlib Require Import ZArith Lia Bool Ascii String List.
From stdpp Require Import base strings gmap list.
Import ListNotations.

Local Open Scope string_scope.
Local Open Scope list_scope.
Local Open Scope Z_scope.

(* ===================================================================== *)
(** * Go runtime conventions shared by the packages below                  *)
(* ===================================================================== *)

Module golang.

(** The verb [%d] on a non-negative integer: decimal digits, most
    significant first.  A 64-bit integer has at most 20 digits. *)
Definition digitChar (d : Z) : ascii := ascii_of_nat (48 + Z.to_nat d).

Fixpoint utoa_go (fuel : nat) (n : Z) (acc : string) : string :=
  match fuel with
  | O => acc
  | S fuel' =>
      let acc' := String (digitChar (n mod 10)) acc in
      if n <? 10 then acc' else utoa_go fuel' (n / 10) acc'
  end.

Definition utoa (n : Z) : string := utoa_go 20 n "".

(** [%d] on a signed integer. *)
Definition itoa (z : Z) : string :=
  if z <? 0 then "-" +:+ utoa (- z) else utoa z.

Definition isDigit (c : ascii) : bool :=
  let n := nat_of_ascii c in (48 <=? n)%nat && (n <=? 57)%nat.

(** Signed 64-bit arithmetic wraps around. *)
Definition MaxInt64 : Z := 2 ^ 63 - 1.
Definition wrap64 (z : Z) : Z := (z + 2 ^ 63) mod 2 ^ 64 - 2 ^ 63.

End golang.

(* ===================================================================== *)
(** * pkg/download: the retrying download engine                           *)
(* ===================================================================== *)

Module download.

(** An [io.ReadCloser] is identified with the bytes it would deliver. *)
Definition body := string.

(** What one call [Download(ctx, d)] hands back: [(status, out, err)].
    A Go [error] returned by [Download] is observed by [WithRetries] only
    through [err.Error()], so it is identified with that message. *)
Record DownloadResult := mkResult {
  status : Z;
  out : option body;
  err : option string
}.

(** The error accumulated by [WithRetries]: either an error handed back by
    [Download], or [errors.Wrapf(cause, format)] around an earlier one.
    [Wrapf] is called with a format and no operands; the format is kept
    as written. *)
Inductive error :=
| errorString (msg : string)
| Wrapf (cause : error) (format : string).

(** time to sleep between retries is an exponential backoff formula:
    t(n) = k * m^n.  [time.Duration] counts nanoseconds. *)
Definition Second : Z := 1000000000.
Definition expRetryN : nat := 3.
Definition expRetryK : Z := Second * 3.
Definition expRetryM : Z := 2.

Definition isTransientHttpStatusCode (statusCode : Z) : bool :=
  match statusCode with
  | 408 | 429 | 500 | 502 | 503 | 504 => true
  | _ => false
  end.

Definition isAccessIssueHttpStatusCode (statusCode : Z) : bool :=
  match statusCode with
  | 401 | 403 | 404 | 409 => true
  | _ => false
  end.

(** [fmt.Sprintf("Attempt %d: %s ", n+1, err.Error())] *)
Definition attemptMessage (n : nat) (msg : string) : string :=
  "Attempt " +:+ golang.itoa (Z.of_nat n + 1) +:+ ": " +:+ msg +:+ " ".

(** [expRetryK * time.Duration(int(math.Pow(float64(expRetryM), float64(n))))];
    the loop only reaches this with [n < expRetryN], where the float64
    power is the exact integer power. *)
Definition backoff (n : nat) : Z := expRetryK * expRetryM ^ Z.of_nat n.

(** Effects of one run, labelled with the position [i] of the downloader in
    the list and the retry counter [n] (the logger's "retry" context). *)
Inductive action :=
| DoDownload                      (* Download(ctx, d) *)
| LogError (msg : string)         (* ctx.Log("error", err) *)
| Close (b : body)                (* out.Close() *)
| LogSkip (status : Z)            (* ctx.Log("info", "... skipping retries") *)
| LogSleep (slp : Z)              (* ctx.Log("sleep", slp) *)
| Sleep (slp : Z).                (* sf(slp) *)

Inductive event := Ev (i n : nat) (a : action).

Section Engine.

(** The downloaders and the network they talk to are external: a call
    [Download(ctx, d)] is a transition of the outside world. *)
Context {Downloader World : Type}.
Variable Download : Downloader -> World -> DownloadResult * World.

(** The sleep function [sf] handed to [WithRetries]: it lets the given
    duration pass in the outside world. *)
Variable sf : Z -> World -> World.

Record outcome := mkOutcome {
  result : option body * option error;
  world_after : World;
  effects : list event
}.

Definition emit (evs : list event) (o : outcome) : outcome :=
  {| result := result o;
     world_after := world_after o;
     effects := evs ++ effects o |}.

Definition closeIfOpen (i n : nat) (o : option body) : list event :=
  match o with
  | Some b => [Ev i n (Close b)]
  | None => []
  end.

(** The inner loop [for n := 0; n < expRetryN; n++] over one downloader
    [d]; [ns] are the values of [n] still to run.  [next] is the rest of
    the outer loop, entered on [break] and when [ns] is used up. *)
Fixpoint retryLoop (next : option error -> World -> outcome)
    (i : nat) (d : Downloader) (ns : list nat)
    (downloadErrors : option error) (w : World) : outcome :=
  match ns with
  | [] => next downloadErrors w
  | n :: ns' =>
      let (r, w) := Download d w in
      emit [Ev i n DoDownload]
        match err r with
        | None =>
            {| result := (out r, None); world_after := w; effects := [] |}
        | Some msg =>
            let downloadErrors :=
              match downloadErrors with
              | Some agg => Some (Wrapf agg (attemptMessage n msg))
              | None => Some (errorString msg)
              end in
            emit (Ev i n (LogError msg) :: closeIfOpen i n (out r))
              (if isAccessIssueHttpStatusCode (status r)
               then next downloadErrors w
               else if negb (status r =? -1)
                       && negb (isTransientHttpStatusCode (status r))
               then emit [Ev i n (LogSkip (status r))] (next downloadErrors w)
               else if negb (n =? expRetryN - 1)%nat
               then emit [Ev i n (LogSleep (backoff n)); Ev i n (Sleep (backoff n))]
                      (retryLoop next i d ns' downloadErrors (sf (backoff n) w))
               else retryLoop next i d ns' downloadErrors w)
        end
  end.

(** The outer loop [for _, d := range downloaders]. *)
Fixpoint downloadersLoop (i : nat) (ds : list Downloader)
    (downloadErrors : option error) (w : World) : outcome :=
  match ds with
  | [] => {| result := (None, downloadErrors); world_after := w; effects := [] |}
  | d :: ds' =>
      retryLoop (downloadersLoop (S i) ds') i d (seq 0 expRetryN) downloadErrors w
  end.

Definition WithRetries (downloaders : list Downloader) (w : World) : outcome :=
  downloadersLoop 0 downloaders None w.

End Engine.

(** ** Reading a run's effects *)

Definition isCall (i : nat) (e : event) : bool :=
  match e with
  | Ev j _ DoDownload => (i =? j)%nat
  | _ => false
  end.

(** How many times the downloader at position [i] was asked for a request. *)
Definition calls_of (i : nat) (evs : list event) : nat :=
  length (List.filter (isCall i) evs).

(** The durations handed to the sleep function, in order (what the tests'
    [sleepRecorder] collects). *)
Fixpoint sleeps_of (evs : list event) : list Z :=
  match evs with
  | [] => []
  | Ev _ _ (Sleep slp) :: evs' => slp :: sleeps_of evs'
  | _ :: evs' => sleeps_of evs'
  end.

(** The failed attempts, in order: retry counter and message of every
    error that was logged. *)
Fixpoint failures (evs : list event) : list (nat * string) :=
  match evs with
  | [] => []
  | Ev _ n (LogError msg) :: evs' => (n, msg) :: failures evs'
  | _ :: evs' => failures evs'
  end.

(** Every sleep is directly followed by the next attempt on the same
    downloader. *)
Fixpoint paced (evs : list event) : bool :=
  match evs with
  | [] => true
  | Ev i n (Sleep _) :: evs' =>
      match evs' with
      | Ev i' n' DoDownload :: _ => (i =? i')%nat && (n' =? S n)%nat && paced evs'
      | _ => false
      end
  | _ :: evs' => paced evs'
  end.

(** What [downloadErrors] holds after the failed attempts [fs]. *)
Definition chain (agg : option error) (f : nat * string) : option error :=
  match agg with
  | Some e => Some (Wrapf e (attemptMessage (fst f) (snd f)))
  | None => Some (errorString (snd f))
  end.

Definition aggregate (fs : list (nat * string)) : option error :=
  fold_left chain fs None.

(** The layers of an error in the order [Error()] prints them: github.com/pkg/errors
    prints the wrapping message, then a colon, then the cause. *)
Fixpoint layers (e : error) : list string :=
  match e with
  | errorString msg => [msg]
  | Wrapf cause format => format :: layers cause
  end.

Section Rendering.

(** [fmt.Sprintf(format)] with no operands, the pass [Wrapf] runs over its
    format.  It belongs to Go's fmt package and is left open here. *)
Variable Sprintf0 : string -> string.

Fixpoint Error (e : error) : string :=
  match e with
  | errorString msg => msg
  | Wrapf cause format => Sprintf0 format +:+ ": " +:+ Error cause
  end.

(** The text of an error whose wrapping layers are [later] (outermost
    first) around the root message [first]. *)
Fixpoint chainText (later : list (nat * string)) (first : string) : string :=
  match later with
  | [] => first
  | f :: later' =>
      Sprintf0 (attemptMessage (fst f) (snd f)) +:+ ": " +:+ chainText later' first
  end.

End Rendering.

(** ** Downloaders for examples: the k-th call made in a run is answered by
    the downloader's script at k (as the tests' counting servers do). *)

Definition scripted := nat -> DownloadResult.

Definition Download_scripted (d : scripted) (w : nat) : DownloadResult * nat :=
  (d w, S w).

(** The tests' [sleepRecorder]: no time passes. *)
Definition sleep_recorded (slp : Z) (w : nat) : nat := w.

Definition failing (code : Z) (msg : string) : DownloadResult :=
  {| status := code; out := None; err := Some msg |}.

Definition serving (b : body) : DownloadResult :=
  {| status := 200; out := Some b; err := None |}.

(** The tests' [badDownloader]: its request cannot even be built, so
    [Download] reports no status (-1) and the wrapped error. *)
Definition badDownloader : scripted :=
  fun _ => failing (-1) "failed to create http request: expected error".

(** ** Kinds of answers *)

Definition deniesAccess (r : DownloadResult) : Prop :=
  isAccessIssueHttpStatusCode (status r) = true /\ err r <> None.

Definition transientFailure (r : DownloadResult) : Prop :=
  isTransientHttpStatusCode (status r) = true /\ err r <> None.

Definition noStatus (r : DownloadResult) : Prop :=
  status r = -1 /\ err r <> None.

Definition servesOK (r : DownloadResult) : Prop :=
  status r = 200 /\ err r = None /\ out r <> None.

(** A sleep is directly followed by the next attempt on the same downloader. *)
Definition sleepsOnlyBeforeRetry (evs : list event) : Prop :=
  forall pre i n slp post,
    evs = pre ++ Ev i n (Sleep slp) :: post ->
    exists post', post = Ev i (S n) DoDownload :: post'.

End download.

(* ===================================================================== *)
(** * github.com/pkg/errors and fmt.Errorf on plain messages                *)
(* ===================================================================== *)

Module errors.

(** Outside the download engine an error is only ever wrapped and printed,
    so it is identified with its message.  [errors.Wrap(err, message)] prints
    as the message, a colon, and the cause. *)
Definition Wrap (cause : string) (message : string) : string :=
  message +:+ ": " +:+ cause.

End errors.

(* ===================================================================== *)
(** * pkg/seqnumutil: the sequence marker                                   *)
(* ===================================================================== *)

Module seqnum.

(** Modelled from the spec: pkg/seqnumutil is not among the sources; only its
    two calls in [checkAndSaveSeqNum] are.  Section 4.2: the guard reads the
    persisted version, absence treated as no prior version (candidate always
    accepted); a candidate at or below the persisted version is not new.  The
    marker files are a map from a path to the integer persisted there. *)
Definition IsSmallerThan (fs : gmap string Z) (path : string) (num : Z)
    : bool * option string :=
  match fs !! path with
  | None => (true, None)
  | Some stored => (stored <? num, None)
  end.

(** Modelled from the spec: section 3, the sequence marker is a single
    integer at a well-known path, written by overwrite. *)
Definition SaveSeqNum (fs : gmap string Z) (path : string) (num : Z)
    : gmap string Z * option string :=
  (<[path := num]> fs, None).

End seqnum.

(* ===================================================================== *)
(** * internal/commands                                                     *)
(* ===================================================================== *)

Module commands.

(** A structured log line: the key/value list handed to [ctx.Log]. *)
Definition logLine := list string.

(** [p == nil] on a pointer, [err == nil] on an error. *)
Definition isNil {A : Type} (o : option A) : bool :=
  match o with
  | None => true
  | Some _ => false
  end.

(** ** checkAndSaveSeqNum *)

Record seqOutcome := mkSeqOutcome {
  shouldExit : bool;
  seqErr : option string;
  markersAfter : gmap string Z;
  seqLog : list logLine
}.

(** checkAndSaveSeqNum checks if the given seqNum is already processed
    according to the specified seqNumFile and if so, returns true,
    otherwise saves the given seqNum into seqNumFile returns false. *)
Definition checkAndSaveSeqNum (seq : Z) (mrseqPath : string)
    (fs : gmap string Z) : seqOutcome :=
  let log1 := ["event"; "comparing seqnum"; "path"; mrseqPath] in
  match seqnum.IsSmallerThan fs mrseqPath seq with
  | (_, Some e) =>
      mkSeqOutcome false
        (Some (errors.Wrap e "failed to check sequence number")) fs [log1]
  | (smaller, None) =>
      if negb smaller then
        (* stored sequence number is equals or greater than the current
           sequence number. *)
        mkSeqOutcome true None fs [log1]
      else
        match seqnum.SaveSeqNum fs mrseqPath seq with
        | (fs', Some e) =>
            mkSeqOutcome false
              (Some (errors.Wrap e "failed to save sequence number")) fs' [log1]
        | (fs', None) =>
            mkSeqOutcome false None fs'
              [log1; ["event"; "seqnum saved"; "path"; mrseqPath]]
        end
  end.

(** ** appendToBlob *)

(** Modelled from the spec: internal/files is not among the sources.  The
    comment on [appendToBlob] and section 4.5 say what the call delivers: the
    bytes of the file from the seeking position to the end of the file.  A
    missing file and a negative offset are reported as errors. *)
Definition GetFileFromPosition (fs : gmap string (list Byte.byte))
    (filePath : string) (position : Z) : list Byte.byte * option string :=
  match fs !! filePath with
  | None => ([], Some ("open " +:+ filePath +:+ ": no such file or directory"))
  | Some content =>
      if position <? 0
      then ([], Some ("seek " +:+ filePath +:+ ": invalid argument"))
      else (drop (Z.to_nat position) content, None)
  end.

Inductive appendEvent {BlobRef Client : Type} :=
| RefAppendBlock (b : BlobRef) (chunk : list Byte.byte)
| LogInsideClient (chunk : list Byte.byte)
| ClientAppendBlock (c : Client) (chunk : list Byte.byte)
| LogAppendFailed (e : string)
| LogReadFailed (e : string).
Arguments appendEvent : clear implicits.

Section Sinks.

(** The two kinds of sink handle and the storage service behind them are
    external: an [AppendBlock] call is a transition of the outside world that
    reports an error or none. *)
Context {BlobRef Client World : Type}.
Variable RefAppend : BlobRef -> list Byte.byte -> World -> option string * World.
Variable ClientAppend : Client -> list Byte.byte -> World -> option string * World.

Record appendOutcome := mkAppendOutcome {
  position : Z;
  appendErr : option string;
  sinkWorld : World;
  appendLog : list (appendEvent BlobRef Client)
}.

(** appendToBlob saves a file (from seeking position to the end of the file)
    to AppendBlob. Returns the new position (end of the file) *)
Definition appendToBlob (fs : gmap string (list Byte.byte))
    (sourceFilePath : string)
    (appendBlobRef : option BlobRef) (appendBlobClient : option Client)
    (outputFilePosition : Z) (w : World) : appendOutcome :=
  if negb (isNil appendBlobRef) || negb (isNil appendBlobClient) then
    match GetFileFromPosition fs sourceFilePath outputFilePosition with
    | (newOutput, None) =>
        let newOutputSize := Z.of_nat (length newOutput) in
        if 0 <? newOutputSize then
          let '(err, w', evs) :=
            match appendBlobRef, appendBlobClient with
            | Some ref, _ =>
                let (err, w') := RefAppend ref newOutput w in
                (err, w', [RefAppendBlock ref newOutput])
            | None, Some client =>
                let (err, w') := ClientAppend client newOutput w in
                (err, w', [LogInsideClient newOutput; ClientAppendBlock client newOutput])
            | None, None => (None, w, [])
            end in
          match err with
          | None =>
              mkAppendOutcome
                (golang.wrap64 (outputFilePosition + newOutputSize)) None w' evs
          | Some e =>
              mkAppendOutcome outputFilePosition (Some e) w'
                (evs ++ [LogAppendFailed e])
          end
        else mkAppendOutcome outputFilePosition None w []
    | (_, Some e) =>
        mkAppendOutcome outputFilePosition (Some e) w [LogReadFailed e]
    end
  else mkAppendOutcome outputFilePosition None w [].

(** What the storage service answers when a block is handed to the handle
    [appendToBlob] uses: the SAS reference when there is one, the client
    otherwise. *)
Definition handOver (appendBlobRef : option BlobRef) (appendBlobClient : option Client)
    (chunk : list Byte.byte) (w : World) : option string * World :=
  match appendBlobRef, appendBlobClient with
  | Some ref, _ => RefAppend ref chunk w
  | None, Some client => ClientAppend client chunk w
  | None, None => (None, w)
  end.

End Sinks.

(** The blocks handed to the storage service by one call, in order. *)
Fixpoint chunksSent {BlobRef Client : Type} (evs : list (appendEvent BlobRef Client))
    : list (list Byte.byte) :=
  match evs with
  | [] => []
  | RefAppendBlock _ chunk :: evs' => chunk :: chunksSent evs'
  | ClientAppendBlock _ chunk :: evs' => chunk :: chunksSent evs'
  | _ :: evs' => chunksSent evs'
  end.

(** A sink for examples: it keeps every block it is given. *)
Definition keepBlock (sink : unit) (chunk : list Byte.byte) (w : list (list Byte.byte))
    : option string * list (list Byte.byte) :=
  (None, w ++ [chunk]).

(** A blob for examples: the world counts the blocks it was handed and holds
    the bytes it accepted; every second block is refused. *)
Definition busyBlob (sink : unit) (chunk : list Byte.byte) (w : nat * list Byte.byte)
    : option string * (nat * list Byte.byte) :=
  if Nat.even (fst w) then (None, (S (fst w), snd w ++ chunk))
  else (Some "503 The server is busy.", (S (fst w), snd w)).

(** ** createOrReplaceAppendBlob and the sink stage of enable *)

(** [handlersettings.RunCommandManagedIdentity], with the fields the code
    reads. *)
Record RunCommandManagedIdentity := mkManagedIdentity {
  ObjectId : string;
  ClientId : string
}.

(** The settings the sink stage of [enable] reads. *)
Record ProtectedSettings := mkProtectedSettings {
  OutputBlobSASToken : string;
  ErrorBlobSASToken : string;
  OutputBlobManagedIdentity : option RunCommandManagedIdentity;
  ErrorBlobManagedIdentity : option RunCommandManagedIdentity
}.

Record HandlerSettings := mkHandlerSettings {
  OutputBlobURI : string;
  ErrorBlobURI : string;
  protectedSettings : ProtectedSettings
}.

(** Modelled from the spec: [internal/constants] is not among the sources.
    Section 6 lists the exit codes as a small closed set of named codes, one
    per distinct fatal condition; the names are those the commands use. *)
Inductive ExitCode :=
| ExitCode_Okay
| ExitCode_CreateDataDirectoryFailed
| ExitCode_GetHandlerSettingsFailed
| ExitCode_ScriptBlobDownloadFailed
| ExitCode_DownloadArtifactFailed
| ExitCode_BlobCreateOrReplaceFailed
| ExitCode_SaveScriptFailed
| ExitCode_RemoveDataDirectoryFailed.

(** The calls made to the storage and identity services, in order. *)
Inductive sinkEvent :=
| SASCreateOrReplace (blobUri sasToken : string)
| LogSASFailed (blobUri : string) (e : string)
| NewManagedIdentityCredential (clientId : option string)
| NewAppendBlobClient (blobUri : string)
| AppendBlobCreate (blobUri : string).

Definition blobCreateOrReplaceError (blobUri : string) : string :=
  "Error creating AppendBlob '" +:+ blobUri +:+
  "' using SAS token or Managed identity. Please use a valid blob SAS URI with [read, append, create, write] permissions OR managed identity. If managed identity is used, make sure Azure blob and identity exist, and identity has been given access to storage blob's container with 'Storage Blob Data Contributor' role assignment. In case of user-assigned identity, make sure you add it under VM's identity and provide outputBlobUri / errorBlobUri and corresponding clientId in outputBlobManagedIdentity / errorBlobManagedIdentity parameter(s). In case of system-assigned identity, do not use outputBlobManagedIdentity / errorBlobManagedIdentity parameter(s). For more info, refer https://aka.ms/RunCommandManagedLinux".

Section Credentials.

(** The storage SDKs, the identity SDK and [pkg/download]'s SAS helper are
    outside the sources: each call is a transition of the outside world.  The
    SDK constructors hand back a value or an error; the SAS helper's pair is
    used as returned. *)
Context {BlobRef Cred Client World : Type}.
Variable download_CreateOrReplaceAppendBlob :
  string -> string -> World -> (option BlobRef * option string) * World.
Variable azidentity_NewManagedIdentityCredential :
  option string -> World -> (Cred + string) * World.
Variable appendblob_NewClient : string -> Cred -> World -> (Client + string) * World.
Variable appendblob_Create : Client -> World -> option string * World.
Variable download_GetUriForLogging : string -> string.

Record miOutcome := mkMiOutcome {
  miClient : option Client;
  miErr : option string;
  miWorld : World;
  miLog : list sinkEvent
}.

Definition createOrReplaceAppendBlobUsingManagedIdentity (blobUri : string)
    (managedIdentity : option RunCommandManagedIdentity) (w : World) : miOutcome :=
  let ID : string + string :=
    match managedIdentity with
    | Some mi =>
        if negb (String.eqb (ClientId mi) "") then inl (ClientId mi)
        else if negb (String.eqb (ObjectId mi) "")
        then (* ObjectId is not supported by azidentity.NewManagedIdentityCredential *)
          inr "Managed identity's ObjectId is not supported. Use ClientId instead"
        else inl ""
    | None => inl ""
    end in
  match ID with
  | inr e => mkMiOutcome None (Some e) w []
  | inl ID =>
      (* Use user-assigned identity if clientId is provided, system-assigned
         identity if clientId not provided *)
      let options := if negb (String.eqb ID "") then Some ID else None in
      let (cred, w1) := azidentity_NewManagedIdentityCredential options w in
      let ev1 := [NewManagedIdentityCredential options] in
      match cred with
      | inl miCred =>
          let (client, w2) := appendblob_NewClient blobUri miCred w1 in
          let ev2 := ev1 ++ [NewAppendBlobClient blobUri] in
          match client with
          | inr e =>
              mkMiOutcome None
                (Some (errors.Wrap e
                   ("Error Creating client to Append Blob '" +:+
                    download_GetUriForLogging blobUri +:+
                    "'. Make sure you are using Append blob. Other types of blob such as PageBlob, BlockBlob are not supported types.")))
                w2 ev2
          | inl appendBlobClient =>
              (* Create or Replace Append blob. If AppendBlob already exists,
                 blob gets cleared. *)
              let (createErr, w3) := appendblob_Create appendBlobClient w2 in
              let ev3 := ev2 ++ [AppendBlobCreate blobUri] in
              match createErr with
              | Some e =>
                  mkMiOutcome None
                    (Some (errors.Wrap e
                       ("Error creating or replacing the Append blob '" +:+
                        download_GetUriForLogging blobUri +:+
                        "'. Make sure you are using Append blob. Other types of blob such as PageBlob, BlockBlob are not supported types.")))
                    w3 ev3
              | None => mkMiOutcome (Some appendBlobClient) None w3 ev3
              end
          end
      | inr e =>
          mkMiOutcome None
            (Some (errors.Wrap e "Error while retrieving managed identity credential"))
            w1 ev1
      end
  end.

Record blobOutcome := mkBlobOutcome {
  blobSASRef : option BlobRef;
  blobAppendClient : option Client;
  blobErr : option string;
  blobWorld : World;
  blobLog : list sinkEvent
}.

Definition createOrReplaceAppendBlob (blobUri sasToken : string)
    (managedIdentity : option RunCommandManagedIdentity) (w : World) : blobOutcome :=
  (* Validate blob can be created or replaced. *)
  if negb (String.eqb blobUri "") then
    let '(blobSASRef, blobSASTokenError, w1, ev1) :=
      if negb (String.eqb sasToken "") then
        let '(ref, e, w1) := download_CreateOrReplaceAppendBlob blobUri sasToken w in
        (ref, e, w1,
         SASCreateOrReplace blobUri sasToken ::
         match e with
         | Some msg => [LogSASFailed (download_GetUriForLogging blobUri) msg]
         | None => []
         end)
      else (None, None, w, []) in
    (* Try to create or replace output blob using managed identity. *)
    let '(blobAppendClient, blobAppendClientError, w2, ev2) :=
      if String.eqb sasToken "" || negb (isNil blobSASTokenError) then
        let o := createOrReplaceAppendBlobUsingManagedIdentity blobUri managedIdentity w1 in
        (miClient o, miErr o, miWorld o, miLog o)
      else (None, None, w1, []) in
    if (String.eqb sasToken "" && negb (isNil blobAppendClientError))
       || (negb (isNil blobSASTokenError) && negb (isNil blobAppendClientError))
    then
      let er :=
        match blobSASTokenError, blobAppendClientError with
        | Some e, _ => e
        | None, Some e => e
        | None, None => ""
        end in
      mkBlobOutcome None None
        (Some (errors.Wrap er "Creating or Replacing append blob failed."))
        w2 (ev1 ++ ev2)
    else mkBlobOutcome blobSASRef blobAppendClient None w2 (ev1 ++ ev2)
  else mkBlobOutcome None None None w [].

(** The sink stage of [enable] (after the downloads, before the status
    report): what it hands to the rest of the command, or the error and exit
    code the command returns. *)
Record sinkHandles := mkSinkHandles {
  outputBlobSASRef : option BlobRef;
  outputBlobAppendClient : option Client;
  errorBlobSASRef : option BlobRef;
  errorBlobAppendClient : option Client
}.

Inductive sinkStage :=
| SinksFailed (err : string) (exitCode : ExitCode)
| SinksReady (h : sinkHandles).

Definition enable_sinks (cfg : HandlerSettings) (w : World)
    : sinkStage * World * list sinkEvent :=
  (* Create or Replace outputBlobURI if provided. Fail the command if create
     or replace fails. *)
  let '(outRef, outClient, outErr, w1, ev1) :=
    if negb (String.eqb (OutputBlobURI cfg) "") then
      let o := createOrReplaceAppendBlob (OutputBlobURI cfg)
                 (OutputBlobSASToken (protectedSettings cfg))
                 (OutputBlobManagedIdentity (protectedSettings cfg)) w in
      (blobSASRef o, blobAppendClient o, blobErr o, blobWorld o, blobLog o)
    else (None, None, None, w, []) in
  match outErr with
  | Some e =>
      (SinksFailed (errors.Wrap e (blobCreateOrReplaceError (OutputBlobURI cfg)))
         ExitCode_BlobCreateOrReplaceFailed, w1, ev1)
  | None =>
      (* Create or Replace errorBlobURI if provided. Fail the command if
         create or replace fails. *)
      let '(errRef, errClient, errErr, w2, ev2) :=
        if negb (String.eqb (ErrorBlobURI cfg) "") then
          let o := createOrReplaceAppendBlob (ErrorBlobURI cfg)
                     (ErrorBlobSASToken (protectedSettings cfg))
                     (ErrorBlobManagedIdentity (protectedSettings cfg)) w1 in
          (blobSASRef o, blobAppendClient o, blobErr o, blobWorld o, blobLog o)
        else (None, None, None, w1, []) in
      match errErr with
      | Some e =>
          (SinksFailed (errors.Wrap e (blobCreateOrReplaceError (ErrorBlobURI cfg)))
             ExitCode_BlobCreateOrReplaceFailed, w2, ev1 ++ ev2)
      | None =>
          (SinksReady (mkSinkHandles outRef outClient errRef errClient), w2, ev1 ++ ev2)
      end
  end.

End Credentials.

(** Services for examples: a storage account that refuses the SAS token, and
    an identity service and storage account that accept the managed
    identity.  The world counts the calls made. *)
Definition sasRefused (blobUri sasToken : string) (w : nat)
    : (option unit * option string) * nat :=
  ((None, Some "403 This request is not authorized to perform this operation."), S w).

Definition credentialGranted (clientId : option string) (w : nat) : (unit + string) * nat :=
  (inl tt, S w).

Definition clientFor (blobUri : string) (cred : unit) (w : nat) : (string + string) * nat :=
  (inl blobUri, S w).

Definition createAccepted (client : string) (w : nat) : option string * nat :=
  (None, S w).

End commands.

(* ===================================================================== *)
(** * internal/status: status documents and where they go                   *)
(* ===================================================================== *)

Module status.

(** ** The files under the status folder *)

(** A file name is the text handed to the operating system.  The system
    finds the file by walking the directories the name spells, symbolic links
    followed, down to the last element, which is an entry of the directory
    reached.  A location is that directory and the entry's name; the content
    of a file is its bytes. *)
Definition location := (string * string)%type.

(** What the operating system decides for one run: the environment, the
    random numbers behind temporary names, and which calls fail. *)
Record host := mkHost {
  TMPDIR : string;
  randoms : nat -> Z;
  openFault : option string;
  writeFault : option (nat * string);
  renameFault : option string
}.

(** [os.TempDir]: the variable TMPDIR, or /tmp when it is empty. *)
Definition TempDir (h : host) : string :=
  if String.eqb (TMPDIR h) "" then "/tmp" else TMPDIR h.

Fixpoint hasSeparator (s : string) : bool :=
  match s with
  | EmptyString => false
  | String c s' => Ascii.eqb c "/" || hasSeparator s'
  end.

(** The text before and after the last occurrence of [c]. *)
Fixpoint splitLast (c : ascii) (s : string) : option (string * string) :=
  match s with
  | EmptyString => None
  | String a s' =>
      match splitLast c s' with
      | Some (p, q) => Some (String a p, q)
      | None => if Ascii.eqb a c then Some (EmptyString, s') else None
      end
  end.

(** The directory part of a file name, as a name of its own: the working
    directory when the name has no separator, the root when nothing stands
    before the last one. *)
Definition dirName (name : string) : string :=
  match splitLast "/" name with
  | None => "."
  | Some (d, _) => if String.eqb d "" then "/" else d
  end.

(** The last element of a file name. *)
Definition baseName (name : string) : string :=
  match splitLast "/" name with
  | None => name
  | Some (_, b) => b
  end.

(** Where the system finds the file of a name.  Which directory a directory
    name denotes is the system's affair (mounts, symbolic links, the working
    directory): [directory] stands for its walk. *)
Definition locate (directory : string -> string) (name : string) : location :=
  (directory (dirName name), baseName name).

(** [strings.Split(s, "/")] *)
Fixpoint splitSlash (s : string) : list string :=
  match s with
  | EmptyString => [""]
  | String c s' =>
      if Ascii.eqb c "/" then "" :: splitSlash s'
      else
        match splitSlash s' with
        | e :: es => String c e :: es
        | [] => [String c ""]
        end
  end.

(** [strings.Join(elems, "/")] *)
Fixpoint joinSlash (elems : list string) : string :=
  match elems with
  | [] => ""
  | e :: elems' =>
      match elems' with
      | [] => e
      | _ :: _ => e +:+ "/" +:+ joinSlash elems'
      end
  end.

(** One element of a name against the elements kept so far, the last one
    first: empty elements and [.] are dropped, [..] removes the element
    before it, stays when there is none to remove, and is dropped at the
    root. *)
Definition cleanStep (rooted : bool) (kept : list string) (e : string) : list string :=
  if String.eqb e "" || String.eqb e "." then kept
  else if String.eqb e ".." then
    match kept with
    | k :: kept' => if String.eqb k ".." then e :: kept else kept'
    | [] => if rooted then [] else [e]
    end
  else e :: kept.

(** [filepath.Clean]: the shortest name equivalent to [path] by purely
    lexical processing. *)
Definition Clean (path : string) : string :=
  if String.eqb path "" then "."
  else
    let rooted := match path with
                  | String c _ => Ascii.eqb c "/"
                  | EmptyString => false
                  end in
    let kept := rev (fold_left (cleanStep rooted) (splitSlash path) []) in
    let out := (if rooted then "/" else "") +:+ joinSlash kept in
    if String.eqb out "" then "." else out.

(** [filepath.Join(dir, name)]: the elements from the first non-empty one on,
    joined by separators and cleaned. *)
Definition filepath_Join (dir name : string) : string :=
  if negb (String.eqb dir "") then Clean (dir +:+ "/" +:+ name)
  else if negb (String.eqb name "") then Clean name
  else "".

(** [os.joinPath]: the directory as written, a separator unless it ends in
    one, and the name. *)
Definition joinPath (dir name : string) : string :=
  match splitLast "/" dir with
  | Some (_, EmptyString) => dir +:+ name
  | _ => dir +:+ "/" +:+ name
  end.

(** [os.prefixAndSuffix]: the pattern may not hold a path separator; the
    random string replaces its last star, or goes at its end. *)
Definition prefixAndSuffix (pattern : string) : (string * string) + string :=
  if hasSeparator pattern then inr "pattern contains path separator"
  else
    match splitLast "*" pattern with
    | Some ps => inl ps
    | None => inl (pattern, "")
    end.

(** [os.nextRandom]: a 32-bit number in decimal. *)
Definition nextRandom (h : host) (try : nat) : string :=
  golang.utoa (randoms h try mod 2 ^ 32).

(** The loop of [os.CreateTemp]: open the candidate name exclusively, and
    take another one while the name exists, for at most [fuel] names.
    [prefix] is the directory joined with the pattern's prefix. *)
Fixpoint createTempLoop (directory : string -> string) (h : host)
    (prefix suffix : string) (fuel try : nat) (fs : gmap location string)
    : (string + string) * gmap location string :=
  match fuel with
  | O => (inr ("createtemp " +:+ prefix +:+ "*" +:+ suffix +:+ ": file already exists"), fs)
  | S fuel' =>
      let name := prefix +:+ nextRandom h try +:+ suffix in
      match fs !! locate directory name with
      | Some _ => createTempLoop directory h prefix suffix fuel' (S try) fs
      | None =>
          match openFault h with
          | Some e => (inr e, fs)
          | None => (inl name, <[locate directory name := ""]> fs)
          end
      end
  end.

(** [os.CreateTemp(dir, pattern)]: a new, empty file in [dir], or in the
    default directory for temporary files when [dir] is empty. *)
Definition CreateTemp (directory : string -> string) (h : host) (dir pattern : string)
    (fs : gmap location string) : (string + string) * gmap location string :=
  let dir := if String.eqb dir "" then TempDir h else dir in
  match prefixAndSuffix pattern with
  | inr e => (inr ("createtemp " +:+ pattern +:+ ": " +:+ e), fs)
  | inl (prefix, suffix) =>
      createTempLoop directory h (joinPath dir prefix) suffix (100 * 100) 0 fs
  end.

(** [os.WriteFile(name, data, 0644)] truncates the file and writes [data]
    front to back; it is not atomic.  [writing] lists what the file system
    looks like while the first [n] bytes go out. *)
Definition writing (loc : location) (data : string) (n : nat) (fs : gmap location string)
    : list (gmap location string) :=
  map (fun k => <[loc := substring 0 k data]> fs) (seq 0 (S n)).

Definition WriteFile (directory : string -> string) (h : host) (name : string)
    (data : string) (fs : gmap location string)
    : option string * gmap location string * list (gmap location string) :=
  let loc := locate directory name in
  match writeFault h with
  | Some (k, e) =>
      let written := Nat.min k (String.length data) in
      (Some e, <[loc := substring 0 written data]> fs, writing loc data written fs)
  | None =>
      (None, <[loc := data]> fs, writing loc data (String.length data) fs)
  end.

(** [os.Rename(oldpath, newpath)] replaces [newpath] in one step. *)
Definition Rename (directory : string -> string) (h : host) (oldpath newpath : string)
    (fs : gmap location string) : option string * gmap location string :=
  match renameFault h with
  | Some e => (Some e, fs)
  | None =>
      match fs !! locate directory oldpath with
      | Some content =>
          (None, <[locate directory newpath := content]>
                   (delete (locate directory oldpath) fs))
      | None =>
          (Some ("rename " +:+ oldpath +:+ " " +:+ newpath
                 +:+ ": no such file or directory"), fs)
      end
  end.

(** ** saveStatusReport *)

Inductive fileCall :=
| CallCreateTemp (dir pattern : string) (tmp : option string)
| CallClose (tmp : string)
| CallWriteFile (name : string) (data : string)
| CallRename (oldpath newpath : string).

Record saveOutcome := mkSaveOutcome {
  saveErr : option string;
  filesAfter : gmap location string;
  (** every state of the file system another process can see, in order *)
  snapshots : list (gmap location string);
  fileCalls : list fileCall
}.

(** The name of a directory entry: no separator in it, and none of the
    elements [filepath.Clean] removes. *)
Definition entryName (fn : string) : Prop :=
  hasSeparator fn = false /\ fn <> "" /\ fn <> "." /\ fn <> "..".

(** [fmt.Sprintf("%d.status", seqNo)], with the extension name in front for
    multiconfig extensions. *)
Definition statusFileName (extName : string) (seqNo : Z) : string :=
  let fn := golang.itoa seqNo +:+ ".status" in
  if negb (String.eqb extName "") then extName +:+ "." +:+ fn else fn.

(** SaveStatusReport persists the status message to the specified status
    folder using the sequence number. The operation consists of writing to a
    temporary file in the same folder and moving it to the final destination
    for atomicity. *)
Definition saveStatusReport (directory : string -> string) (h : host)
    (statusFolder extName : string) (seqNo : Z)
    (rootStatusJson : string) (fs : gmap location string) : saveOutcome :=
  let fn := statusFileName extName seqNo in
  let path := filepath_Join statusFolder fn in
  match CreateTemp directory h statusFolder fn fs with
  | (inr e, fs1) =>
      mkSaveOutcome (Some ("status: failed to create temporary file: " +:+ e))
        fs1 [fs] [CallCreateTemp statusFolder fn None]
  | (inl tmpFile, fs1) =>
      let calls1 := [CallCreateTemp statusFolder fn (Some tmpFile); CallClose tmpFile] in
      match WriteFile directory h tmpFile rootStatusJson fs1 with
      | (Some e, fs2, during) =>
          mkSaveOutcome
            (Some ("status: failed to path=" +:+ tmpFile +:+ " error=" +:+ e))
            fs2 (fs :: fs1 :: during ++ [fs2])
            (calls1 ++ [CallWriteFile tmpFile rootStatusJson])
      | (None, fs2, during) =>
          let calls2 := calls1 ++ [CallWriteFile tmpFile rootStatusJson;
                                   CallRename tmpFile path] in
          match Rename directory h tmpFile path fs2 with
          | (Some e, fs3) =>
              mkSaveOutcome
                (Some ("status: failed to move to path=" +:+ path
                       +:+ " error=" +:+ e))
                fs3 (fs :: fs1 :: during ++ [fs2; fs3]) calls2
          | (None, fs3) =>
              mkSaveOutcome None fs3 (fs :: fs1 :: during ++ [fs2; fs3]) calls2
          end
      end
  end.

(** ** encoding/json on the status report *)

(** The value [json.Marshal] walks. *)
#[local] Set Warnings "-register-all".
Inductive json :=
| JString (s : string)
| JNumber (z : Z)
| JObject (members : list (string * json))
| JArray (items : list json).

(** A JSON text as the pieces the encoder writes: punctuation, literals
    (strings and numbers, already encoded), and the white space the indenter
    adds between them. *)
Inductive token :=
| BeginObject | EndObject | BeginArray | EndArray | Comma | Colon
| Literal (text : string)
| Layout (text : string).

Definition tokenText (t : token) : string :=
  match t with
  | BeginObject => "{"
  | EndObject => "}"
  | BeginArray => "["
  | EndArray => "]"
  | Comma => ","
  | Colon => ":"
  | Literal text => text
  | Layout text => text
  end.

Definition render (ts : list token) : string :=
  fold_right (fun t acc => tokenText t +:+ acc) "" ts.

Definition isLayout (t : token) : bool :=
  match t with
  | Layout _ => true
  | _ => false
  end.

Definition dropLayout (ts : list token) : list token :=
  List.filter (fun t => negb (isLayout t)) ts.

Fixpoint repeatString (n : nat) (s : string) : string :=
  match n with
  | O => ""
  | S n' => s +:+ repeatString n' s
  end.

(** [json.appendNewline]: a line feed, the prefix, and one indent per level. *)
Definition newline (prefix indent : string) (depth : nat) : string :=
  String (ascii_of_nat 10) (prefix +:+ repeatString depth indent).

(** [json.appendIndent], token by token: a pending indent is written before
    the first token inside an object or array, a new line follows each comma,
    a space each colon, and a closing bracket goes on a line of its own unless
    the object or array is empty. *)
Fixpoint appendIndent (prefix indent : string) (needIndent : bool) (depth : nat)
    (src : list token) : list token :=
  match src with
  | [] => []
  | t :: src' =>
      let closing := match t with EndObject | EndArray => true | _ => false end in
      let indentNow := needIndent && negb closing in
      let depth1 := if indentNow then S depth else depth in
      let need1 := if indentNow then false else needIndent in
      let pre := if indentNow then [Layout (newline prefix indent depth1)] else [] in
      match t with
      | BeginObject | BeginArray =>
          pre ++ t :: appendIndent prefix indent true depth1 src'
      | Comma =>
          pre ++ t :: Layout (newline prefix indent depth1)
              :: appendIndent prefix indent need1 depth1 src'
      | Colon =>
          pre ++ t :: Layout " " :: appendIndent prefix indent need1 depth1 src'
      | EndObject | EndArray =>
          if need1
          then t :: appendIndent prefix indent false depth1 src'
          else Layout (newline prefix indent (Nat.pred depth1))
                 :: t :: appendIndent prefix indent false (Nat.pred depth1) src'
      | Literal _ | Layout _ =>
          pre ++ t :: appendIndent prefix indent need1 depth1 src'
      end
  end.

(** Modelled from the spec: [internal/types] is not among the sources.
    Section 3 gives the status kinds as transitioning, success and error. *)
Inductive StatusType := StatusTransitioning | StatusSuccess | StatusError.

(** [types.Cmd], [types.RCMetadata] and [types.HandlerEnvironment], with the
    fields the reporters read.  The reporters' log lines are left out. *)
Record Cmd := mkCmd {
  Name : string;
  ShouldReportStatus : bool
}.

Record RCMetadata := mkRCMetadata {
  ExtName : string;
  SeqNum : Z
}.

Record HandlerEnvironment := mkHandlerEnvironment {
  StatusFolder : string
}.

(** [hostgacommunicator.WireServerFallbackAddress] *)
Definition WireServerFallbackAddress : string := "http://168.63.129.16:32526".

Section Reporting.

(** The status report type and its constructor live in [internal/types], the
    reporting client in [pkg/statusreporter]; neither is among the sources.
    [toJSON] is the value the encoder sees for a report, [encodeString] the
    encoder's quoting of a string. *)
Context {StatusReport World : Type}.
Variable NewStatusReport : StatusType -> string -> string -> StatusReport.
Variable toJSON : StatusReport -> json.
Variable encodeString : string -> string.
Variable ReportStatus : string -> string -> World -> option string * World.

(** The compact text of a value, as tokens. *)
Fixpoint compactTokens (j : json) : list token :=
  match j with
  | JString s => [Literal (encodeString s)]
  | JNumber z => [Literal (golang.itoa z)]
  | JObject members =>
      BeginObject ::
      (fix fields (first : bool) (ms : list (string * json)) : list token :=
         match ms with
         | [] => [EndObject]
         | (k, v) :: ms' =>
             (if first then [] else [Comma]) ++
             Literal (encodeString k) :: Colon :: compactTokens v ++ fields false ms'
         end) true members
  | JArray items =>
      BeginArray ::
      (fix elements (first : bool) (vs : list json) : list token :=
         match vs with
         | [] => [EndArray]
         | v :: vs' =>
             (if first then [] else [Comma]) ++ compactTokens v ++ elements false vs'
         end) true items
  end.

(** [json.Marshal(v)] and [json.MarshalIndent(v, prefix, indent)]; the latter
    is the former passed through the indenter.  Encoding a tree of strings
    and numbers reports no error. *)
Definition marshalTokens (v : StatusReport) : list token := compactTokens (toJSON v).

Definition marshalIndentTokens (v : StatusReport) (prefix indent : string) : list token :=
  appendIndent prefix indent false 0 (marshalTokens v).

Definition json_Marshal (v : StatusReport) : string * option string :=
  (render (marshalTokens v), None).

Definition json_MarshalIndent (v : StatusReport) (prefix indent : string)
    : string * option string :=
  (render (marshalIndentTokens v prefix indent), None).

Definition tab : string := String (ascii_of_nat 9) "".

Definition getRootStatusJson (statusType : StatusType) (c : Cmd) (msg : string)
    (indent : bool) : string * option string :=
  let statusReport := NewStatusReport statusType (Name c) msg in
  let (b, err) :=
    if indent then json_MarshalIndent statusReport "" tab
    else json_Marshal statusReport in
  match err with
  | Some e => ("", Some (errors.Wrap e "failed to marshal status report into json"))
  | None => (b, None)
  end.

Record blobReport := mkBlobReport {
  blobReportErr : option string;
  reportWorld : World;
  (** the requests made: endpoint address and body *)
  submitted : list (string * string)
}.

Definition ReportStatusToBlob (hEnv : HandlerEnvironment) (metadata : RCMetadata)
    (statusType : StatusType) (c : Cmd) (msg : string) (w : World) : blobReport :=
  if negb (ShouldReportStatus c) then mkBlobReport None w []
  else
    match getRootStatusJson statusType c msg false with
    | (_, Some e) =>
        mkBlobReport (Some (errors.Wrap e "failed to get json for status report")) w []
    | (rootStatusJson, None) =>
        let (err, w') := ReportStatus WireServerFallbackAddress rootStatusJson w in
        mkBlobReport
          (match err with
           | Some e => Some (errors.Wrap e "failed to report status to HGAP")
           | None => None
           end)
          w' [(WireServerFallbackAddress, rootStatusJson)]
    end.

(** ReportStatusToLocalFile saves operation status to the status file for the
    extension handler with the optional given message, if the given cmd
    requires reporting status. *)
Definition ReportStatusToLocalFile (directory : string -> string) (h : host)
    (hEnv : HandlerEnvironment)
    (metadata : RCMetadata) (statusType : StatusType) (c : Cmd) (msg : string)
    (fs : gmap location string) : saveOutcome :=
  if negb (ShouldReportStatus c) then mkSaveOutcome None fs [fs] []
  else
    match getRootStatusJson statusType c msg true with
    | (_, Some e) =>
        mkSaveOutcome (Some (errors.Wrap e "failed to get json for status report"))
          fs [fs] []
    | (rootStatusJson, None) =>
        let o := saveStatusReport directory h (StatusFolder hEnv) (ExtName metadata)
                   (SeqNum metadata) rootStatusJson fs in
        mkSaveOutcome
          (match saveErr o with
           | Some e => Some (errors.Wrap e "failed to save handler status")
           | None => None
           end)
          (filesAfter o) (snapshots o) (fileCalls o)
    end.

End Reporting.

(** ** A status report for examples *)

(** Modelled from the spec: section 3 describes the status document as status
    kind, command name and free-text message, and section 6 its JSON body as
    an object with those members. *)
Record StatusItem := mkStatusItem {
  itemStatus : StatusType;
  itemName : string;
  itemMessage : string
}.

Definition statusText (t : StatusType) : string :=
  match t with
  | StatusTransitioning => "transitioning"
  | StatusSuccess => "success"
  | StatusError => "error"
  end.

Definition itemJSON (r : StatusItem) : json :=
  JObject [("status", JString (statusText (itemStatus r)));
           ("name", JString (itemName r));
           ("message", JString (itemMessage r))].

(** The encoder's quoting on text that needs no escape: the text between
    two quotation marks. *)
Definition quotePlain (s : string) : string :=
  String (ascii_of_nat 34) (s +:+ String (ascii_of_nat 34) "").

(** A reporting endpoint that accepts every request. *)
Definition acceptAll (endpoint body : string) (w : list string) : option string * list string :=
  (None, w ++ [body]).

End status.

(* ===================================================================== *)
(** * pkg/download: totals of a run                                         *)
(* ===================================================================== *)

Module totals.

Import download.

(** The time handed to the sleep function over a whole run. *)
Definition slept (evs : list event) : Z := fold_right Z.add 0 (sleeps_of evs).

(** The two steps of the backoff schedule that the loop can reach. *)
Definition scheduled (slp : Z) : Prop := slp = 3 * Second \/ slp = 6 * Second.

(** What one downloader can still cost in sleep from retry counter [n] on. *)
Definition budgetFrom (n : nat) : Z :=
  match n with
  | 0%nat => 9 * Second
  | 1%nat => 6 * Second
  | _ => 0
  end.

(** The requests of a run, in order: position of the downloader and retry
    counter. *)
Fixpoint requests (evs : list event) : list (nat * nat) :=
  match evs with
  | [] => []
  | Ev i n DoDownload :: evs' => (i, n) :: requests evs'
  | _ :: evs' => requests evs'
  end.

(** Every request is the next attempt on the downloader asked before, or
    the first attempt on a later downloader; [prev] is the request made
    last, if any. *)
Definition follows (prev : option (nat * nat)) (c : nat * nat) : Prop :=
  match prev with
  | None => snd c = 0%nat
  | Some p => (fst c = fst p /\ snd c = S (snd p)) \/ ((fst p < fst c)%nat /\ snd c = 0%nat)
  end.

Fixpoint inOrder (prev : option (nat * nat)) (cs : list (nat * nat)) : Prop :=
  match cs with
  | [] => True
  | c :: cs' => follows prev c /\ inOrder (Some c) cs'
  end.

(** A run that ends with a request. *)
Definition endsWithDownload (evs : list event) : Prop :=
  exists pre i n, evs = pre ++ [Ev i n DoDownload].

(** The invariant of both loops: an error comes with a nil body, and a nil
    error means that nothing has failed so far and nothing was done, or that
    the last thing done was a request. *)
Definition wellEnded {World : Type} (o : outcome (World := World))
    (de : option error) : Prop :=
  (snd (result o) <> None -> fst (result o) = None)
  /\ (snd (result o) = None ->
      (de = None /\ effects o = []) \/ endsWithDownload (effects o)).

End totals.

(* ===================================================================== *)
(** * internal/handlersettings: locating the handler environment            *)
(* ===================================================================== *)

Module handlersettings.

(** HandlerEnvFileName is the file name of the Handler Environment as placed
    by the Azure Linux Guest Agent. *)
Definition HandlerEnvFileName : string := "HandlerEnvironment.json".

(** What [os.ReadFile] hands back, with the one distinction the caller makes
    among its errors ([os.IsNotExist]).  A file that is read is never nil,
    also when it is empty. *)
Inductive readResult :=
| ReadOK (o : string)
| ReadNotExist (e : string)
| ReadFailed (e : string).

(** [strings.Join(elems, sep)] *)
Fixpoint strings_Join (elems : list string) (sep : string) : string :=
  match elems with
  | [] => ""
  | e :: elems' =>
      match elems' with
      | [] => e
      | _ :: _ => e +:+ sep +:+ strings_Join elems' sep
      end
  end.

Section Env.

(** [types.HandlerEnvironment] with its zero value, the JSON decoder, the
    file system, [filepath.Join] and the directory of the running executable
    ([scriptDir]: [filepath.Abs] of [os.Args[0]], then [filepath.Dir]) are
    outside the sources. *)
Context {HandlerEnvironment : Type}.
Variable zero : HandlerEnvironment.
Variable json_Unmarshal : string -> list HandlerEnvironment + string.
Variable os_ReadFile : string -> readResult.
Variable filepath_Join : list string -> string.
Variable scriptDir : string + string.

(** ParseHandlerEnv parses the
    /var/lib/waagent/[extension]/HandlerEnvironment.json format. *)
Definition ParseHandlerEnv (b : string) : HandlerEnvironment * option string :=
  match json_Unmarshal b with
  | inr e => (zero, Some ("vmextension: failed to parse handler env: " +:+ e))
  | inl hf =>
      match hf with
      | [he] => (he, None)
      | _ => (zero,
              Some ("vmextension: expected 1 config in parsed HandlerEnvironment, found: "
                    +:+ golang.itoa (Z.of_nat (length hf))))
      end
  end.

(** The loop over the candidate paths: the bytes read ([None] while [b] is
    nil) or the error returned from inside the loop, and the paths handed to
    [os.ReadFile], in order. *)
Fixpoint examine (paths : list string) : (option string + string) * list string :=
  match paths with
  | [] => (inl None, [])
  | p :: paths' =>
      match os_ReadFile p with
      | ReadFailed e =>
          (inr ("vmextension: error examining HandlerEnvironment at '" +:+ p
                +:+ "': " +:+ e), [p])
      | ReadOK o => (inl (Some o), [p])
      | ReadNotExist _ =>
          let (r, seen) := examine paths' in (r, p :: seen)
      end
  end.

Record envOutcome := mkEnvOutcome {
  he : HandlerEnvironment;
  envErr : option string;
  filesRead : list string
}.

(** GetHandlerEnv locates the HandlerEnvironment.json file by assuming it
    lives next to or one level above the extension handler (read: this)
    executable, reads, parses and returns it. *)
Definition GetHandlerEnv : envOutcome :=
  match scriptDir with
  | inr e =>
      mkEnvOutcome zero
        (Some ("vmextension: cannot find base directory of the running process: " +:+ e))
        []
  | inl dir =>
      let paths :=
        [filepath_Join [dir; HandlerEnvFileName];         (* this level *)
         filepath_Join [dir; ".."; HandlerEnvFileName]]   (* one up *) in
      match examine paths with
      | (inr e, seen) => mkEnvOutcome zero (Some e) seen
      | (inl None, seen) =>
          mkEnvOutcome zero
            (Some ("vmextension: Cannot find HandlerEnvironment at paths: "
                   +:+ strings_Join paths ", "))
            seen
      | (inl (Some b), seen) =>
          let (h, e) := ParseHandlerEnv b in mkEnvOutcome h e seen
      end
  end.

End Env.

End handlersettings.

(* ===================================================================== *)
(** * Decimal numerals and file names, read back                            *)
(* ===================================================================== *)

Module naming.

(** No full stop occurs in the text. *)
Fixpoint noDot (s : string) : bool :=
  match s with
  | EmptyString => true
  | String c s' => negb (Ascii.eqb c ".") && noDot s'
  end.

(** The range of Go's [int] on the 64-bit platforms the handler is built
    for. *)
Definition isInt (z : Z) : Prop := - golang.MaxInt64 - 1 <= z <= golang.MaxInt64.

End naming.

(* ===================================================================== *)
(** * internal/commands: the commands and the steps of enable               *)
(* ===================================================================== *)

Module lifecycle.

Import commands.

(** An exit code is an [int].  The numbers behind the named codes of
    [internal/constants] are not in the sources: [codeOf] stands for them
    below, and nothing keeps a number handed back by a callee from being
    equal to one of them. *)

(** ** enablePre *)

Section Pre.

(** [c.Functions.Cleanup(ctx, metadata, h, runAsUser)]: the command's cleanup
    function, a transition of the outside world. *)
Context {World : Type}.
Variable Cleanup : string -> World -> World.

Record preOutcome := mkPreOutcome {
  preErr : option string;
  preMarkers : gmap string Z;
  preWorld : World;
  (** the calls to the cleanup function, by their [runAsUser] argument *)
  preCleanups : list string
}.

Definition enablePre (SeqNum : Z) (MostRecentSequence : string)
    (fs : gmap string Z) (w : World) : preOutcome :=
  (* exit if this sequence number (a snapshot of the configuration) is already
     processed. if not, save this sequence number before proceeding. *)
  let o := checkAndSaveSeqNum SeqNum MostRecentSequence fs in
  match seqErr o with
  | Some e =>
      mkPreOutcome (Some (errors.Wrap e "failed to process sequence number"))
        (markersAfter o) w []
  | None =>
      if shouldExit o then
        mkPreOutcome
          (Some "the script configuration has already been processed, will not run again")
          (markersAfter o) (Cleanup "" w) [""]
      else mkPreOutcome None (markersAfter o) w []
  end.

End Pre.

(** ** downloadScript, downloadArtifacts, runCmd *)

Inductive runCall :=
| SaveScriptFile (filePath script : string)
| KillPreviousExtension (pidFilePath : string)
| SaveCurrentPidAndStartTime (pidFilePath : string)
| ExecCmdInDir (scriptFilePath dir : string)
| TelemetryResult (name message : string) (isSuccess : bool)
| DeleteCurrentPidAndStartTime (pidFilePath : string).

Inductive fetchCall {Artifact : Type} :=
| MkdirOutput (dir : string)
| TelemetryScenario (message : string)
| DownloadAndProcessScript (scriptURI dir : string)
| DownloadAndProcessArtifact (dir : string) (artifact : Artifact).
Arguments fetchCall : clear implicits.

Section Steps.

(** The handler settings ([internal/handlersettings]), the file helpers
    ([internal/files]), the process bookkeeping ([internal/pid]), the script
    runner ([internal/exec]) and the telemetry sender are outside the
    sources.  [Script] and [ScriptURI] are the settings' accessors of those
    names, [ReadArtifacts] the artifact list (nil or not) or an error. *)
Context {Cfg Artifact World : Type}.
Variable codeOf : ExitCode -> Z.
Variable Script ScriptURI : Cfg -> string.
Variable ReadArtifacts : Cfg -> option (list Artifact) * option string.
Variable ArtifactUri : Artifact -> string.
Variable filepath_Join : list string -> string.
Variable os_MkdirAll : string -> World -> option string * World.
Variable files_DownloadAndProcessScript :
  string -> string -> Cfg -> World -> (string * option string) * World.
Variable files_DownloadAndProcessArtifact :
  string -> Artifact -> World -> (string * option string) * World.
Variable files_SaveScriptFile : string -> string -> World -> option string * World.
Variable pid_KillPreviousExtension : string -> World -> World.
Variable pid_SaveCurrentPidAndStartTime : string -> World -> World.
Variable pid_DeleteCurrentPidAndStartTime : string -> World -> World.
Variable exec_ExecCmdInDir : string -> string -> Cfg -> World -> (option string * Z) * World.
Variable telemetryResult : string -> string -> bool -> World -> World.

Record fetchOutcome := mkFetchOutcome {
  fetched : string;
  fetchErr : option string;
  fetchWorld : World;
  fetchCalls : list (fetchCall Artifact)
}.

(** downloadScript downloads the script file specified in cfg into dir
    (creates if does not exist) and takes storage credentials specified in
    cfg into account. *)
Definition downloadScript (dir : string) (cfg : Cfg) (w : World) : fetchOutcome :=
  (* - prepare the output directory for files and the command output
     - create the directory if missing *)
  let (err, w) := os_MkdirAll dir w in
  match err with
  | Some e =>
      mkFetchOutcome "" (Some (errors.Wrap e "failed to prepare output directory")) w
        [MkdirOutput dir]
  | None =>
      (* - download scriptURI *)
      let scriptURI := ScriptURI cfg in
      if negb (String.eqb scriptURI "") then
        let w := telemetryResult "scenario" "source.scriptUri;dos2unix=1" true w in
        let '(file, err, w) := files_DownloadAndProcessScript scriptURI dir cfg w in
        let calls := [MkdirOutput dir; TelemetryScenario "source.scriptUri;dos2unix=1";
                      DownloadAndProcessScript scriptURI dir] in
        match err with
        | Some e =>
            mkFetchOutcome ""
              (Some (errors.Wrap e ("failed to download file " +:+ scriptURI +:+ ". ")))
              w calls
        | None => mkFetchOutcome file None w calls
        end
      else mkFetchOutcome "" None w [MkdirOutput dir]
  end.

(** The loop [for i := 0; i < len(artifacts); i++]. *)
Fixpoint artifactsLoop (dir : string) (artifacts : list Artifact) (w : World)
    : fetchOutcome :=
  match artifacts with
  | [] => mkFetchOutcome "" None w []
  | a :: artifacts' =>
      (* Download the artifact *)
      let '(filePath, err, w) := files_DownloadAndProcessArtifact dir a w in
      match err with
      | Some e =>
          mkFetchOutcome ""
            (Some (errors.Wrap e ("failed to download artifact " +:+ ArtifactUri a)))
            w [DownloadAndProcessArtifact dir a]
      | None =>
          let o := artifactsLoop dir artifacts' w in
          mkFetchOutcome "" (fetchErr o) (fetchWorld o)
            (DownloadAndProcessArtifact dir a :: fetchCalls o)
      end
  end.

Definition downloadArtifacts (dir : string) (cfg : Cfg) (w : World) : fetchOutcome :=
  match ReadArtifacts cfg with
  | (_, Some e) => mkFetchOutcome "" (Some e) w []
  | (None, None) => mkFetchOutcome "" None w []
  | (Some artifacts, None) => artifactsLoop dir artifacts w
  end.

(** The outside world after [files.DownloadAndProcessArtifact] was called for
    each of [artifacts], one after the other. *)
Definition fetchedAll (dir : string) (artifacts : list Artifact) (w : World) : World :=
  fold_left (fun w a => snd (files_DownloadAndProcessArtifact dir a w)) artifacts w.

(** Every call of [files.DownloadAndProcessArtifact] for [artifacts], made
    one after the other from [w] on, is answered without error. *)
Definition allFetched (dir : string) (artifacts : list Artifact) (w : World) : Prop :=
  forall b1 b b2, artifacts = b1 ++ b :: b2 ->
    snd (fst (files_DownloadAndProcessArtifact dir b (fetchedAll dir b1 w))) = None.

Record runOutcome := mkRunOutcome {
  runErr : option string;
  runExit : Z;
  runWorld : World;
  runCalls : list runCall
}.

(** runCmd runs the command (extracted from cfg) in the given dir (assumed
    to exist).  The deferred removal of the pid file runs when the function
    returns. *)
Definition runCmd (dir scriptFilePath : string) (cfg : Cfg) (PidFilePath : string)
    (w : World) : runOutcome :=
  let '(scenario, scriptFilePath, saveErr, w, calls) :=
    (* If script is specified - use it directly for command *)
    if negb (String.eqb (Script cfg) "") then
      (* Save the script to a file *)
      let scriptFilePath := filepath_Join [dir; "script.sh"] in
      let (err, w) := files_SaveScriptFile scriptFilePath (Script cfg) w in
      ("embedded-script", scriptFilePath, err, w,
       [SaveScriptFile scriptFilePath (Script cfg)])
    else if negb (String.eqb (ScriptURI cfg) "") then
      (* If scriptUri is specified then cmd should start it *)
      ("public-scriptUri", scriptFilePath, None, w, [])
    else ("", scriptFilePath, None, w, []) in
  match saveErr with
  | Some e =>
      mkRunOutcome (Some (errors.Wrap e "failed to save script to file"))
        (codeOf ExitCode_SaveScriptFailed) w calls
  | None =>
      (* We need to kill previous extension process if exists before starting
         a new one. *)
      let w := pid_KillPreviousExtension PidFilePath w in
      (* Store the active process id and start time in case its a long
         running process that needs to be killed later *)
      let w := pid_SaveCurrentPidAndStartTime PidFilePath w in
      let '(err, exitCode, w) := exec_ExecCmdInDir scriptFilePath dir cfg w in
      let isSuccess := isNil err in
      let w := telemetryResult "scenario" scenario isSuccess w in
      let w := pid_DeleteCurrentPidAndStartTime PidFilePath w in
      let calls :=
        calls ++ [KillPreviousExtension PidFilePath;
                  SaveCurrentPidAndStartTime PidFilePath;
                  ExecCmdInDir scriptFilePath dir;
                  TelemetryResult "scenario" scenario isSuccess;
                  DeleteCurrentPidAndStartTime PidFilePath] in
      match err with
      | Some e =>
          mkRunOutcome (Some (errors.Wrap e "failed to execute command"))
            exitCode w calls
      | None => mkRunOutcome None (codeOf ExitCode_Okay) w calls
      end
  end.

End Steps.

(** Reading the calls of [runCmd]. *)
Definition countCalls (p : runCall -> bool) (calls : list runCall) : nat :=
  length (List.filter p calls).

Definition isSavePid (c : runCall) : bool :=
  match c with
  | SaveCurrentPidAndStartTime _ => true
  | _ => false
  end.

Definition isDeletePid (c : runCall) : bool :=
  match c with
  | DeleteCurrentPidAndStartTime _ => true
  | _ => false
  end.

(** ** enable, up to the point where the script is started *)

Inductive enableCall {Artifact : Type} :=
| GetHandlerSettings (configFolder extName : string) (seqNum : Z)
| ImmediateEnable
| Fetch (c : fetchCall Artifact)
| Sink (e : sinkEvent).
Arguments enableCall : clear implicits.

Section Enable.

(** The settings parser and the immediate variant of the command are
    outside the sources, as are the services of the steps above.
    [blobSettings] are the blob fields of the settings. *)
Context {HandlerEnvironment Cfg Artifact BlobRef Cred Client World : Type}.
Variable codeOf : ExitCode -> Z.
Variable ConfigFolder : HandlerEnvironment -> string.
Variable handlersettings_GetHandlerSettings :
  string -> string -> Z -> World -> (Cfg + string) * World.
Variable immediatecmds_Enable :
  HandlerEnvironment -> string -> Z -> Cfg -> World -> (Z * option string) * World.
Variable blobSettings : Cfg -> HandlerSettings.
Variable ScriptURI : Cfg -> string.
Variable ReadArtifacts : Cfg -> option (list Artifact) * option string.
Variable ArtifactUri : Artifact -> string.
Variable DataDir : string.
Variable filepath_Join : list string -> string.
Variable os_MkdirAll : string -> World -> option string * World.
Variable files_DownloadAndProcessScript :
  string -> string -> Cfg -> World -> (string * option string) * World.
Variable files_DownloadAndProcessArtifact :
  string -> Artifact -> World -> (string * option string) * World.
Variable telemetryResult : string -> string -> bool -> World -> World.
Variable download_CreateOrReplaceAppendBlob :
  string -> string -> World -> (option BlobRef * option string) * World.
Variable azidentity_NewManagedIdentityCredential :
  option string -> World -> (Cred + string) * World.
Variable appendblob_NewClient : string -> Cred -> World -> (Client + string) * World.
Variable appendblob_Create : Client -> World -> option string * World.
Variable download_GetUriForLogging : string -> string.

Definition scriptDownloadError (uri : string) : string :=
  "File downloads failed. Use either a public script URI that points to .sh file, Azure storage blob SAS URI or storage blob accessible by a managed identity and retry. If managed identity is used, make sure it has been given access to container of storage blob '"
  +:+ uri +:+
  "' with 'Storage Blob Data Reader' role assignment. In case of user-assigned identity, make sure you add it under VM's identity. For more info, refer https://aka.ms/RunCommandManagedLinux".

Definition artifactDownloadError : string :=
  "Artifact downloads failed. Use either a public artifact URI that points to .sh file, Azure storage blob SAS URI, or storage blob accessible by a managed identity and retry.".

(** What [enable] has in hand when it starts the script. *)
Record prepared := mkPrepared {
  cfg : Cfg;
  dir : string;
  scriptFilePath : string;
  handles : sinkHandles (BlobRef := BlobRef) (Client := Client)
}.

Record prepareOutcome := mkPrepareOutcome {
  (** the error and exit code [enable] returns, or what it goes on with *)
  stage : (string * Z) + prepared;
  prepareWorld : World;
  prepareCalls : list (enableCall Artifact)
}.

(** [enable], from its first statement to the creation of the blob sinks. *)
Definition enable_prepare (h : HandlerEnvironment) (ExtName : string) (SeqNum : Z)
    (DownloadDir : string) (w : World) : prepareOutcome :=
  (* parse the extension handler settings (not available prior to 'enable') *)
  let (cfg, w) :=
    handlersettings_GetHandlerSettings (ConfigFolder h) ExtName SeqNum w in
  let calls := [GetHandlerSettings (ConfigFolder h) ExtName SeqNum] in
  match cfg with
  | inr err1 =>
      mkPrepareOutcome
        (inl (errors.Wrap err1 "failed to get configuration",
              codeOf ExitCode_GetHandlerSettingsFailed))
        w calls
  | inl cfg =>
      let '(exitCode, err, w) := immediatecmds_Enable h ExtName SeqNum cfg w in
      let calls := calls ++ [ImmediateEnable] in
      match err with
      | Some e => mkPrepareOutcome (inl (e, exitCode)) w calls
      | None =>
          let dir := filepath_Join [DataDir; DownloadDir; golang.itoa SeqNum] in
          let s := downloadScript ScriptURI os_MkdirAll files_DownloadAndProcessScript
                     telemetryResult dir cfg w in
          let calls := calls ++ map Fetch (fetchCalls s) in
          match fetchErr s with
          | Some e =>
              mkPrepareOutcome
                (inl (errors.Wrap e
                        (scriptDownloadError (download_GetUriForLogging (ScriptURI cfg))),
                      codeOf ExitCode_ScriptBlobDownloadFailed))
                (fetchWorld s) calls
          | None =>
              let a := downloadArtifacts ReadArtifacts ArtifactUri
                         files_DownloadAndProcessArtifact dir cfg (fetchWorld s) in
              let calls := calls ++ map Fetch (fetchCalls a) in
              match fetchErr a with
              | Some e =>
                  mkPrepareOutcome
                    (inl (errors.Wrap e artifactDownloadError,
                          codeOf ExitCode_DownloadArtifactFailed))
                    (fetchWorld a) calls
              | None =>
                  let '(sinks, w, evs) :=
                    enable_sinks download_CreateOrReplaceAppendBlob
                      azidentity_NewManagedIdentityCredential appendblob_NewClient
                      appendblob_Create download_GetUriForLogging
                      (blobSettings cfg) (fetchWorld a) in
                  let calls := calls ++ map Sink evs in
                  match sinks with
                  | SinksFailed e code => mkPrepareOutcome (inl (e, codeOf code)) w calls
                  | SinksReady hd =>
                      mkPrepareOutcome (inr (mkPrepared cfg dir (fetched s) hd)) w calls
                  end
              end
          end
      end
  end.

End Enable.

(** ** The output streamer of enable *)

Section Streamer.

Context {BlobRef Client World : Type}.
Variable RefAppend : BlobRef -> list Byte.byte -> World -> option string * World.
Variable ClientAppend : Client -> list Byte.byte -> World -> option string * World.

(** [enable] runs the statement
    [outputFilePosition, err = appendToBlob(stdoutF, ref, client, outputFilePosition, ctx)]
    at every tick of the status ticker and once more after the script has
    ended, one call after the other.  [views] are the file systems these
    calls find, in order; each call starts at the cursor the one before
    returned. *)
Fixpoint stream (views : list (gmap string (list Byte.byte))) (sourceFilePath : string)
    (appendBlobRef : option BlobRef) (appendBlobClient : option Client)
    (outputFilePosition : Z) (w : World)
    : list (appendOutcome (BlobRef := BlobRef) (Client := Client) (World := World)) :=
  match views with
  | [] => []
  | fs :: views' =>
      let o := appendToBlob RefAppend ClientAppend fs sourceFilePath
                 appendBlobRef appendBlobClient outputFilePosition w in
      o :: stream views' sourceFilePath appendBlobRef appendBlobClient
             (position o) (sinkWorld o)
  end.

End Streamer.

(** The cursor after the calls [rs], started at [pos]. *)
Definition cursorAfter {BlobRef Client World : Type} (pos : Z)
    (rs : list (appendOutcome (BlobRef := BlobRef) (Client := Client) (World := World)))
    : Z :=
  fold_left (fun _ o => position o) rs pos.

(** The outside world after the calls [rs], started at [w]. *)
Definition worldAfter {BlobRef Client World : Type} (w : World)
    (rs : list (appendOutcome (BlobRef := BlobRef) (Client := Client) (World := World)))
    : World :=
  fold_left (fun _ o => sinkWorld o) rs w.

(** A storage service that keeps an append blob: [blob] reads the bytes the
    blob holds, and a block handed over is added at its end exactly when the
    service answers without error. *)
Definition appendsTo {Sink World : Type} (blob : World -> list Byte.byte)
    (Append : Sink -> list Byte.byte -> World -> option string * World) : Prop :=
  forall sink chunk w,
    blob (snd (Append sink chunk w))
    = if isNil (fst (Append sink chunk w)) then blob w ++ chunk else blob w.

(** A file that only grows: every view holds the file, of a size that fits
    a 64-bit offset, and each content extends the one before. *)
Fixpoint grows (sourceFilePath : string) (before : list Byte.byte)
    (views : list (gmap string (list Byte.byte))) : Prop :=
  match views with
  | [] => True
  | fs :: views' =>
      exists more,
        fs !! sourceFilePath = Some (before ++ more)
        /\ Z.of_nat (length (before ++ more)) <= golang.MaxInt64
        /\ grows sourceFilePath (before ++ more) views'
  end.

(** The content the last view holds. *)
Fixpoint lastContent (sourceFilePath : string) (before : list Byte.byte)
    (views : list (gmap string (list Byte.byte))) : list Byte.byte :=
  match views with
  | [] => before
  | fs :: views' =>
      lastContent sourceFilePath (default before (fs !! sourceFilePath)) views'
  end.

End lifecycle.

(* ===================================================================== *)
(** * pkg/servicehandler: registering a systemd unit                        *)
(* ===================================================================== *)

Module servicehandler.

(** An error as the unit manager hands it back: its text, and whether
    [os.IsNotExist] holds of it. *)
Record error := mkError {
  text : string;
  notExist : bool
}.

(** The calls made to the unit manager, in order. *)
Inductive unitCall :=
| CallStartUnit (unitName : string)
| CallStopUnit (unitName : string)
| CallEnableUnit (unitName : string)
| CallDisableUnit (unitName : string)
| CallDaemonReload (unitName : string)
| CallIsUnitActive (unitName : string)
| CallIsUnitInstalled (unitName : string)
| CallRemoveUnitConfigurationFile (unitName : string)
| CallCreateUnitConfigurationFile (unitName : string) (content : string).

(** [type UnitManager interface]: every method is a transition of the system
    the manager talks to. *)
Class UnitManager (M World : Type) := {
  StartUnit : M -> string -> World -> option error * World;
  StopUnit : M -> string -> World -> option error * World;
  EnableUnit : M -> string -> World -> option error * World;
  DisableUnit : M -> string -> World -> option error * World;
  DaemonReload : M -> string -> World -> option error * World;
  IsUnitActive : M -> string -> World -> option error * World;
  IsUnitInstalled : M -> string -> World -> (bool * option error) * World;
  RemoveUnitConfigurationFile : M -> string -> World -> option error * World;
  CreateUnitConfigurationFile : M -> string -> string -> World -> option error * World
}.

Record Configuration := NewConfiguration {
  Name : string
}.

Record Handler (M : Type) := NewHandler {
  manager : M;
  config : Configuration
}.
Arguments manager {M}.
Arguments config {M}.

Section Methods.

Context {M World : Type} `{UnitManager M World}.

Definition Handler_Stop (handler : Handler M) (w : World) : option error * World :=
  StopUnit (manager handler) (Name (config handler)) w.

Definition Handler_Enable (handler : Handler M) (w : World) : option error * World :=
  EnableUnit (manager handler) (Name (config handler)) w.

Definition Handler_Disable (handler : Handler M) (w : World) : option error * World :=
  DisableUnit (manager handler) (Name (config handler)) w.

Definition Handler_DaemonReload (handler : Handler M) (w : World) : option error * World :=
  DaemonReload (manager handler) (Name (config handler)) w.

(** What [Register] and [DeRegister] return: the text of the error built
    with [fmt.Errorf], or none. *)
Record registration := mkRegistration {
  regErr : option string;
  regWorld : World;
  regCalls : list unitCall
}.

Definition Handler_Register (handler : Handler M) (unitConfigContent : string)
    (w : World) : registration :=
  let name := Name (config handler) in
  let (err, w) := RemoveUnitConfigurationFile (manager handler) name w in
  let calls := [CallRemoveUnitConfigurationFile name] in
  (* [err != nil && !os.IsNotExist(err)] *)
  let failed :=
    match err with
    | Some e => if negb (notExist e) then Some e else None
    | None => None
    end in
  match failed with
  | Some e =>
      mkRegistration
        (Some ("error while removing old unit configuration file: " +:+ text e)) w calls
  | None =>
      let (err, w) :=
        CreateUnitConfigurationFile (manager handler) name unitConfigContent w in
      let calls := calls ++ [CallCreateUnitConfigurationFile name unitConfigContent] in
      match err with
      | Some e =>
          mkRegistration
            (Some ("error while creating unit configuration file: " +:+ text e)) w calls
      | None =>
          let (err, w) := Handler_DaemonReload handler w in
          let calls := calls ++ [CallDaemonReload name] in
          match err with
          | Some e =>
              mkRegistration
                (Some ("error while reloading daemon worker: " +:+ text e)) w calls
          | None =>
              let (err, w) := Handler_Enable handler w in
              let calls := calls ++ [CallEnableUnit name] in
              match err with
              | Some e =>
                  mkRegistration (Some ("error while enabling unit: " +:+ text e)) w calls
              | None => mkRegistration None w calls
              end
          end
      end
  end.

Definition Handler_DeRegister (handler : Handler M) (w : World) : registration :=
  let name := Name (config handler) in
  let (err, w) := Handler_DaemonReload handler w in
  let calls := [CallDaemonReload name] in
  match err with
  | Some e => mkRegistration (Some ("error while reloading daemon : " +:+ text e)) w calls
  | None =>
      let (err, w) := Handler_Stop handler w in
      let calls := calls ++ [CallStopUnit name] in
      match err with
      | Some e => mkRegistration (Some ("error while stopping unit : " +:+ text e)) w calls
      | None =>
          let (err, w) := Handler_Disable handler w in
          let calls := calls ++ [CallDisableUnit name] in
          match err with
          | Some e =>
              mkRegistration (Some ("error while disabling unit : " +:+ text e)) w calls
          | None =>
              let (err, w) := RemoveUnitConfigurationFile (manager handler) name w in
              let calls := calls ++ [CallRemoveUnitConfigurationFile name] in
              match err with
              | Some e =>
                  mkRegistration
                    (Some ("error while removing unit configuration : " +:+ text e)) w calls
              | None => mkRegistration None w calls
              end
          end
      end
  end.

End Methods.

End servicehandler.

(* ===================================================================== *)
(** * The shell shim: waiting for the handler binary                        *)
(* ===================================================================== *)

Module shim.

(** What one look at the handler binary finds: [lsof] returned non-zero, or
    no listed process holds the file open for writing, or one does. *)
Inductive finding := LsofFailed | NoWriteLock | WriteLock.

Inductive shimEvent :=
| Lsof
| EchoWaiting
| EchoSleeping (attempt : nat)
| SleepSeconds (seconds : Z).

Section Lock.

(** [lsof -F ac ${bin}] together with the reading of its output, and
    [sleep], are transitions of the outside world. *)
Context {World : Type}.
Variable look : World -> finding * World.
Variable sleep : Z -> World -> World.

(** The loop [while (( retry_attempts < 10 ))]; [rounds] is what is left of
    the ten attempts, [10 - retry_attempts]. *)
Fixpoint waitLoop (rounds retry_attempts : nat) (w : World) : World * list shimEvent :=
  match rounds with
  | O => (w, [])
  | S rounds' =>
      let (found, w) := look w in
      match found with
      | WriteLock =>
          let retry_attempts := S retry_attempts in
          let (w, later) := waitLoop rounds' retry_attempts (sleep 3 w) in
          (w, Lsof :: EchoWaiting :: EchoSleeping retry_attempts :: SleepSeconds 3 :: later)
      | NoWriteLock | LsofFailed => (w, [Lsof])
      end
  end.

(** [check_binary_write_lock]: do not return error if file descriptor is
    open after retries expire. *)
Definition check_binary_write_lock (w : World) : Z * World * list shimEvent :=
  let (w, evs) := waitLoop 10 0 w in (0, w, evs).

(** The outside world after [k] looks, each followed by a sleep of three
    seconds. *)
Definition afterLooks (k : nat) (w : World) : World :=
  Nat.iter k (fun w => sleep 3 (snd (look w))) w.

End Lock.

Fixpoint looks (evs : list shimEvent) : Z :=
  match evs with
  | [] => 0
  | Lsof :: evs' => 1 + looks evs'
  | _ :: evs' => looks evs'
  end.

Fixpoint waited (evs : list shimEvent) : Z :=
  match evs with
  | [] => 0
  | SleepSeconds s :: evs' => s + waited evs'
  | _ :: evs' => waited evs'
  end.

(** What the shim does around the [attempt]-th look that finds a write
    lock. *)
Definition lockedRound (attempt : nat) : list shimEvent :=
  [Lsof; EchoWaiting; EchoSleeping attempt; SleepSeconds 3].

End shim.

(* ===================================================================== *)
(** * Properties of the download engine                                     *)
(* ===================================================================== *)

Import download.

Arguments attemptMessage : simpl never.
Arguments backoff : simpl never.

Section EngineFacts.

Context {Downloader World : Type}.
Variable Download : Downloader -> World -> DownloadResult * World.
Variable sf : Z -> World -> World.

Lemma calls_of_app (j : nat) (a b : list event) :
  calls_of j (a ++ b) = (calls_of j a + calls_of j b)%nat.
Proof. unfold calls_of. now rewrite List.filter_app, length_app. Qed.

Lemma sleeps_of_app (a b : list event) :
  sleeps_of (a ++ b) = sleeps_of a ++ sleeps_of b.
Proof.
  induction a as [|e a IH]; [reflexivity|].
  destruct e as [i n []]; simpl; congruence.
Qed.

Lemma failures_app (a b : list event) :
  failures (a ++ b) = failures a ++ failures b.
Proof.
  induction a as [|e a IH]; [reflexivity|].
  destruct e as [i n []]; simpl; congruence.
Qed.

Lemma calls_of_closeIfOpen (j i n : nat) (o : option body) :
  calls_of j (closeIfOpen i n o) = 0%nat.
Proof. now destruct o. Qed.

Lemma sleeps_of_closeIfOpen (i n : nat) (o : option body) :
  sleeps_of (closeIfOpen i n o) = [].
Proof. now destruct o. Qed.

Lemma failures_closeIfOpen (i n : nat) (o : option body) :
  failures (closeIfOpen i n o) = [].
Proof. now destruct o. Qed.

(** One pass of the inner loop, spelled out on the result of its call to
    [Download]. *)
Lemma retryLoop_cons next i d n ns de w :
  retryLoop Download sf next i d (n :: ns) de w =
  let r := fst (Download d w) in
  let w1 := snd (Download d w) in
  emit [Ev i n DoDownload]
    match err r with
    | None => {| result := (out r, None); world_after := w1; effects := [] |}
    | Some msg =>
        let de1 := chain de (n, msg) in
        emit (Ev i n (LogError msg) :: closeIfOpen i n (out r))
          (if isAccessIssueHttpStatusCode (status r)
           then next de1 w1
           else if negb (status r =? -1) && negb (isTransientHttpStatusCode (status r))
           then emit [Ev i n (LogSkip (status r))] (next de1 w1)
           else if negb (n =? expRetryN - 1)%nat
           then emit [Ev i n (LogSleep (backoff n)); Ev i n (Sleep (backoff n))]
                  (retryLoop Download sf next i d ns de1 (sf (backoff n) w1))
           else retryLoop Download sf next i d ns de1 w1)
    end.
Proof.
  simpl. destruct (Download d w) as [r w1]. simpl.
  destruct (err r); [|reflexivity]. now destruct de.
Qed.

(** No downloader is asked more often than the inner loop has rounds. *)
Lemma retryLoop_calls (j : nat) next i d ns de w (B : nat) :
  (forall de' w', (calls_of j (effects (next de' w')) <= B)%nat) ->
  (calls_of j (effects (retryLoop Download sf next i d ns de w))
   <= (if (j =? i)%nat then length ns else 0) + B)%nat.
Proof.
  intros Hnext. revert de w.
  induction ns as [|n ns IH]; intros de w.
  - simpl. specialize (Hnext de w). lia.
  - rewrite retryLoop_cons. cbv zeta.
    destruct (Download d w) as [r w1]. cbn [fst snd].
    assert (Hc : (calls_of j [Ev i n DoDownload] <= if (j =? i)%nat then 1 else 0)%nat).
    { unfold calls_of. simpl. now destruct (j =? i)%nat. }
    destruct (err r) as [msg|].
    + repeat match goal with
             | |- context [if ?b then _ else _] => destruct b
             end;
        cbn [emit effects];
        repeat rewrite ?calls_of_app, ?calls_of_closeIfOpen;
        change (Ev i n (LogError msg) :: closeIfOpen i n (out r))
          with ([Ev i n (LogError msg)] ++ closeIfOpen i n (out r));
        repeat rewrite ?calls_of_app, ?calls_of_closeIfOpen;
        try (specialize (Hnext (chain de (n, msg)) w1));
        try (pose proof (IH (chain de (n, msg)) w1));
        try (pose proof (IH (chain de (n, msg)) (sf (backoff n) w1)));
        cbn [length]; cbn [calls_of List.filter isCall length] in *;
        destruct (j =? i)%nat; lia.
    + cbn [emit effects]. rewrite calls_of_app. cbn [length].
      change (calls_of j []) with 0%nat. destruct (j =? i)%nat; lia.
Qed.

Lemma downloadersLoop_calls (j : nat) ds i de w :
  (calls_of j (effects (downloadersLoop Download sf i ds de w))
   <= if (i <=? j)%nat then expRetryN else 0)%nat.
Proof.
  revert i de w. induction ds as [|d ds IH]; intros i de w.
  - simpl. unfold calls_of. simpl. lia.
  - cbn [downloadersLoop].
    pose proof (retryLoop_calls j (downloadersLoop Download sf (S i) ds) i d
                  (seq 0 expRetryN) de w
                  (if (S i <=? j)%nat then expRetryN else 0)%nat
                  (fun de' w' => IH (S i) de' w')) as H.
    rewrite length_seq in H.
    destruct (Nat.eqb_spec j i); destruct (Nat.leb_spec (S i) j);
      destruct (Nat.leb_spec i j); unfold expRetryN in *; lia.
Qed.

(** The inner loop sleeps only when another round follows. *)
Lemma paced_closeIfOpen (i n : nat) (o : option body) (evs : list event) :
  paced (closeIfOpen i n o ++ evs) = paced evs.
Proof. now destruct o. Qed.

Lemma retryLoop_paced next i d (k n0 : nat) de w :
  (n0 + k = expRetryN)%nat ->
  (forall de' w', paced (effects (next de' w')) = true) ->
  paced (effects (retryLoop Download sf next i d (seq n0 k) de w)) = true.
Proof.
  intros Hk Hnext. revert n0 Hk de w.
  induction k as [|k IH]; intros n0 Hk de w.
  - apply Hnext.
  - cbn [seq]. rewrite retryLoop_cons. cbv zeta.
    destruct (Download d w) as [r w1]. cbn [fst snd].
    destruct (err r) as [msg|]; [|reflexivity].
    cbn [emit effects app paced]. rewrite paced_closeIfOpen.
    destruct (isAccessIssueHttpStatusCode (status r)); [apply Hnext|].
    destruct (negb (status r =? -1) && negb (isTransientHttpStatusCode (status r))).
    { cbn [emit effects app paced]. apply Hnext. }
    destruct (Nat.eqb_spec n0 (expRetryN - 1)) as [Heq|Hne]; cbn [negb].
    + apply IH. lia.
    + destruct k as [|k']; [unfold expRetryN in *; lia|].
      cbn [seq]. rewrite retryLoop_cons. cbv zeta.
      cbn [emit effects app paced]. rewrite !Nat.eqb_refl. cbn [andb].
      specialize (IH (S n0) ltac:(lia) (chain de (n0, msg)) (sf (backoff n0) w1)).
      cbn [seq] in IH. rewrite retryLoop_cons in IH. exact IH.
Qed.

Lemma downloadersLoop_paced ds i de w :
  paced (effects (downloadersLoop Download sf i ds de w)) = true.
Proof.
  revert i de w. induction ds as [|d ds IH]; intros i de w; [reflexivity|].
  cbn [downloadersLoop]. apply (retryLoop_paced _ i d expRetryN 0); [reflexivity|].
  intros. apply IH.
Qed.

(** When no call to [Download] succeeds, the run ends with the errors of
    all failed attempts folded into one. *)
Lemma retryLoop_all_fail next i d ns de w :
  (forall w', err (fst (Download d w')) <> None) ->
  (forall de' w', result (next de' w')
                  = (None, fold_left chain (failures (effects (next de' w'))) de')) ->
  let o := retryLoop Download sf next i d ns de w in
  result o = (None, fold_left chain (failures (effects o)) de).
Proof.
  intros Hfail Hnext. cbv zeta. revert de w.
  induction ns as [|n ns IH]; intros de w; [apply Hnext|].
  rewrite retryLoop_cons. cbv zeta. specialize (Hfail w).
  destruct (Download d w) as [r w1]. cbn [fst snd] in *.
  destruct (err r) as [msg|]; [|congruence].
  cbn [emit effects result app failures].
  rewrite failures_app, failures_closeIfOpen. cbn [app fold_left].
  repeat match goal with
         | |- context [if ?b then _ else _] => destruct b
         end;
    cbn [emit effects result app failures]; auto.
Qed.

Lemma downloadersLoop_all_fail ds i de w :
  (forall d, In d ds -> forall w', err (fst (Download d w')) <> None) ->
  let o := downloadersLoop Download sf i ds de w in
  result o = (None, fold_left chain (failures (effects o)) de).
Proof.
  cbv zeta. revert i de w.
  induction ds as [|d ds IH]; intros i de w Hfail; [reflexivity|].
  cbn [downloadersLoop]. apply retryLoop_all_fail.
  - apply Hfail. now left.
  - intros. apply IH. intros d' Hd'. apply Hfail. now right.
Qed.

(** At least one failure is recorded as soon as there is a downloader. *)
Lemma retryLoop_first_failure next i d n ns de w :
  err (fst (Download d w)) <> None ->
  exists msg rest,
    failures (effects (retryLoop Download sf next i d (n :: ns) de w)) = (n, msg) :: rest.
Proof.
  intros Hfail. rewrite retryLoop_cons. cbv zeta.
  destruct (Download d w) as [r w1]. cbn [fst snd] in *.
  destruct (err r) as [msg|]; [|congruence].
  cbn [emit effects app failures]. eauto.
Qed.

End EngineFacts.

(** The layers of a folded error: the latest attempt outermost, the first
    failure innermost. *)
Lemma layers_chain (fs : list (nat * string)) (e0 : error) :
  exists e, fold_left chain fs (Some e0) = Some e
    /\ layers e = map (fun f => attemptMessage (fst f) (snd f)) (rev fs) ++ layers e0.
Proof.
  revert e0. induction fs as [|f fs IH]; intros e0.
  - exists e0. now split.
  - cbn [fold_left chain]. destruct (IH (Wrapf e0 (attemptMessage (fst f) (snd f))))
      as (e & He & Hl).
    exists e. split; [exact He|]. rewrite Hl. cbn [rev layers].
    now rewrite map_app, <- app_assoc.
Qed.

Lemma Error_chain (Sprintf0 : string -> string) (fs : list (nat * string)) (e0 e : error) :
  fold_left chain fs (Some e0) = Some e ->
  Error Sprintf0 e
  = fold_right (fun f acc => Sprintf0 (attemptMessage (fst f) (snd f)) +:+ ": " +:+ acc)
      (Error Sprintf0 e0) (rev fs).
Proof.
  revert e0. induction fs as [|f fs IH]; intros e0 H.
  - cbn in H. now injection H as <-.
  - cbn [fold_left chain] in H. rewrite (IH _ H). cbn [rev].
    now rewrite fold_right_app.
Qed.

Lemma chainText_fold (Sprintf0 : string -> string) (later : list (nat * string)) (first : string) :
  chainText Sprintf0 later first
  = fold_right (fun f acc => Sprintf0 (attemptMessage (fst f) (snd f)) +:+ ": " +:+ acc)
      first later.
Proof. induction later as [|f later IH]; [reflexivity|]. cbn. now rewrite IH. Qed.

Lemma paced_spec (evs : list event) :
  paced evs = true -> sleepsOnlyBeforeRetry evs.
Proof.
  intros Hp pre. revert evs Hp.
  induction pre as [|e pre IH]; intros evs Hp i n slp post ->.
  - cbn [app paced] in Hp. destruct post as [|[i' n' []] post]; try discriminate.
    apply andb_prop in Hp as [Hp _]. apply andb_prop in Hp as [Hi Hn].
    apply Nat.eqb_eq in Hi, Hn. subst. eauto.
  - eapply IH; [|reflexivity].
    cbn [app] in Hp. destruct e as [i0 n0 []]; cbn [paced] in Hp; try exact Hp.
    destruct (pre ++ Ev i n (Sleep slp) :: post) as [|[i' n' []] l]; try discriminate.
    apply andb_prop in Hp as [_ Hp]. exact Hp.
Qed.

(** C10. For the empty list of downloaders [WithRetries] returns a nil
    response body together with a nil error; no request is made, nothing is
    slept, and the outside world is left as it was. *)
Theorem WithRetries_empty_list {Downloader World : Type}
    (Download : Downloader -> World -> DownloadResult * World)
    (sf : Z -> World -> World) (w : World) :
  let o := WithRetries Download sf [] w in
  result o = (None, None) /\ world_after o = w /\ effects o = [].
Proof. cbv zeta. unfold WithRetries. cbn [downloadersLoop result world_after effects]. auto. Qed.

(** C3. When the first downloader always answers with an access-issue status
    (401, 403, 404 or 409) and the second always answers 200, [WithRetries]
    asks the first exactly once and the second exactly once, asks no later
    downloader, never sleeps, and returns the body served by the second
    with no error. *)
Theorem WithRetries_access_issue_switches {Downloader World : Type}
    (Download : Downloader -> World -> DownloadResult * World)
    (sf : Z -> World -> World)
    (d1 d2 : Downloader) (rest : list Downloader) (w : World) :
  (forall w', deniesAccess (fst (Download d1 w'))) ->
  (forall w', servesOK (fst (Download d2 w'))) ->
  let o := WithRetries Download sf (d1 :: d2 :: rest) w in
  let served := fst (Download d2 (snd (Download d1 w))) in
  calls_of 0 (effects o) = 1%nat
  /\ calls_of 1 (effects o) = 1%nat
  /\ (forall j, (2 <= j)%nat -> calls_of j (effects o) = 0%nat)
  /\ sleeps_of (effects o) = []
  /\ result o = (out served, None)
  /\ out served <> None.
Proof.
  intros H1 H2. cbv zeta. unfold WithRetries. cbn [downloadersLoop].
  change (seq 0 expRetryN) with [0; 1; 2]%nat.
  rewrite retryLoop_cons. cbv zeta.
  destruct (H1 w) as [Hs He]. destruct (Download d1 w) as [r1 w1]. cbn [fst snd] in *.
  destruct (err r1) as [msg|]; [|congruence]. rewrite Hs.
  cbn [downloadersLoop]. change (seq 0 expRetryN) with [0; 1; 2]%nat.
  rewrite retryLoop_cons. cbv zeta.
  destruct (H2 w1) as (_ & He2 & Ho2). destruct (Download d2 w1) as [r2 w2].
  cbn [fst snd] in *. rewrite He2.
  cbn [emit effects result app].
  change (Ev 0 0 (LogError msg) :: closeIfOpen 0 0 (out r1) ++ [Ev 1 0 DoDownload])
    with ([Ev 0 0 (LogError msg)] ++ closeIfOpen 0 0 (out r1) ++ [Ev 1 0 DoDownload]).
  change (Ev 0 0 DoDownload :: [Ev 0 0 (LogError msg)] ++ closeIfOpen 0 0 (out r1) ++ [Ev 1 0 DoDownload])
    with ([Ev 0 0 DoDownload; Ev 0 0 (LogError msg)] ++ closeIfOpen 0 0 (out r1) ++ [Ev 1 0 DoDownload]).
  rewrite !calls_of_app, !sleeps_of_app, !calls_of_closeIfOpen, sleeps_of_closeIfOpen.
  repeat split; try reflexivity; try assumption.
  intros j Hj. rewrite !calls_of_app, calls_of_closeIfOpen.
  destruct j as [|[|j]]; [lia|lia|reflexivity].
Qed.

Lemma WithRetries_access_issue_switches_witness :
  let d404 : scripted := fun _ => failing 404 "the blob does not exist" in
  let d200 : scripted := fun _ => serving "#!/bin/sh" in
  let o := WithRetries Download_scripted sleep_recorded [d404; d200] 0%nat in
  calls_of 0 (effects o) = 1%nat
  /\ calls_of 1 (effects o) = 1%nat
  /\ sleeps_of (effects o) = []
  /\ result o = (Some "#!/bin/sh", None).
Proof.
  cbv zeta.
  pose proof (WithRetries_access_issue_switches Download_scripted sleep_recorded
                (fun _ => failing 404 "the blob does not exist")
                (fun _ => serving "#!/bin/sh") [] 0%nat) as H.
  cbv zeta in H.
  destruct H as (H0 & H1 & _ & Hs & Hr & _).
  - intros w'. split; [reflexivity | discriminate].
  - intros w'. repeat split; discriminate.
  - repeat split; assumption.
Defined.

(** The two classes of status codes do not overlap. *)
Lemma transient_is_no_access_issue (s : Z) :
  isTransientHttpStatusCode s = true -> isAccessIssueHttpStatusCode s = false.
Proof.
  unfold isTransientHttpStatusCode, isAccessIssueHttpStatusCode.
  destruct s as [|p|p]; try discriminate.
  intros H.
  do 10 (try reflexivity; try discriminate H; destruct p as [p|p|]).
  all: try reflexivity; try discriminate H.
Qed.

(** C4. A single downloader that answers with a transient status (such as
    429) twice and then with 200 makes [WithRetries] sleep exactly twice, for
    3 seconds and then for 6 seconds, and succeed on the third attempt with
    the body served there.  In every run, whatever the downloaders answer,
    each downloader is asked at most [expRetryN] = 3 times, and every sleep
    is directly followed by a further attempt on the same downloader: none
    follows its last attempt. *)
Theorem WithRetries_transient_backoff {Downloader World : Type}
    (Download : Downloader -> World -> DownloadResult * World)
    (sf : Z -> World -> World)
    (d : Downloader) (w : World) :
  let a1 := Download d w in
  let a2 := Download d (sf (3 * Second) (snd a1)) in
  let a3 := Download d (sf (6 * Second) (snd a2)) in
  let o := WithRetries Download sf [d] w in
  (transientFailure (fst a1) ->
   transientFailure (fst a2) ->
   servesOK (fst a3) ->
   sleeps_of (effects o) = [3 * Second; 6 * Second]
   /\ calls_of 0 (effects o) = 3%nat
   /\ result o = (out (fst a3), None)
   /\ out (fst a3) <> None)
  /\ (forall ds w' j, (calls_of j (effects (WithRetries Download sf ds w')) <= 3)%nat)
  /\ (forall ds w', sleepsOnlyBeforeRetry (effects (WithRetries Download sf ds w'))).
Proof.
  cbv zeta. split; [|split].
  1: intros [Ht1 He1] [Ht2 He2] (_ & He3 & Ho3);
    pose proof transient_is_no_access_issue as Hna;
    split; [|split; [|split]]; try assumption.
  1-3: unfold WithRetries; cbn [downloadersLoop];
    change (seq 0 expRetryN) with [0; 1; 2]%nat;
    rewrite retryLoop_cons; cbv zeta;
    destruct (Download d w) as [r1 w1]; cbn [fst snd] in *;
    destruct (err r1) as [m1|]; [|congruence];
    rewrite (Hna _ Ht1), Ht1, andb_false_r;
    change (negb (0 =? expRetryN - 1)%nat) with true; cbv iota;
    rewrite retryLoop_cons; cbv zeta;
    change (backoff 0) with (3 * Second);
    destruct (Download d (sf (3 * Second) w1)) as [r2 w2]; cbn [fst snd] in *;
    destruct (err r2) as [m2|]; [|congruence];
    rewrite (Hna _ Ht2), Ht2, andb_false_r;
    change (negb (1 =? expRetryN - 1)%nat) with true; cbv iota;
    rewrite retryLoop_cons; cbv zeta;
    change (backoff 1) with (6 * Second);
    destruct (Download d (sf (6 * Second) w2)) as [r3 w3]; cbn [fst snd] in *;
    rewrite He3; cbn [emit effects result app];
    destruct (out r1), (out r2); reflexivity.
  - intros ds w' j. unfold WithRetries.
    pose proof (downloadersLoop_calls Download sf j ds 0 None w') as H.
    destruct (0 <=? j)%nat; unfold expRetryN in H; lia.
  - intros ds w'. apply paced_spec. apply downloadersLoop_paced.
Qed.

Lemma WithRetries_transient_backoff_witness :
  let healing : scripted :=
    fun k => if (k <? 2)%nat then failing 429 "429 Too Many Requests"
             else serving "payload" in
  let o := WithRetries Download_scripted sleep_recorded [healing] 0%nat in
  sleeps_of (effects o) = [3 * Second; 6 * Second]
  /\ calls_of 0 (effects o) = 3%nat
  /\ result o = (Some "payload", None).
Proof.
  cbv zeta.
  pose proof (WithRetries_transient_backoff Download_scripted sleep_recorded
                (fun k => if (k <? 2)%nat then failing 429 "429 Too Many Requests"
                          else serving "payload") 0%nat) as H.
  cbv zeta in H.
  destruct H as (Hheal & _).
  destruct Hheal as (Hs & Hc & Hr & _).
  - split; [reflexivity | discriminate].
  - split; [reflexivity | discriminate].
  - repeat split; discriminate.
  - repeat split; assumption.
Defined.

(** A downloader whose request never produces a status is not abandoned
    after one attempt: the tests' [badDownloader] is asked three times, with
    sleeps of 3 and 6 seconds in between. *)
Lemma no_status_single_attempt_counterexample :
  noStatus (badDownloader 0%nat)
  /\ calls_of 0 (effects (WithRetries Download_scripted sleep_recorded [badDownloader] 0%nat)) = 3%nat
  /\ calls_of 0 (effects (WithRetries Download_scripted sleep_recorded [badDownloader] 0%nat)) <> 1%nat
  /\ sleeps_of (effects (WithRetries Download_scripted sleep_recorded [badDownloader] 0%nat))
     = [3 * Second; 6 * Second].
Proof.
  split; [split; [reflexivity | discriminate]|].
  split; [reflexivity|]. split; [discriminate | reflexivity].
Qed.

(** C2, as the code has it.  A downloader whose attempts produce no HTTP
    status (status -1: the request could not be built or sent) is retried
    like a transient failure: it is asked exactly [expRetryN] = 3 times, with
    sleeps of 3 and then 6 seconds between the attempts, its three errors are
    added to the accumulated error, and only then does the engine move on to
    the next downloader in the list. *)
Theorem no_status_exhausts_retries {Downloader World : Type}
    (Download : Downloader -> World -> DownloadResult * World)
    (sf : Z -> World -> World)
    (d : Downloader) (rest : list Downloader) (i : nat)
    (de : option error) (w : World) :
  (forall w', noStatus (fst (Download d w'))) ->
  let o := downloadersLoop Download sf i (d :: rest) de w in
  exists evs de' w',
    let o' := downloadersLoop Download sf (S i) rest de' w' in
    effects o = evs ++ effects o'
    /\ result o = result o'
    /\ world_after o = world_after o'
    /\ calls_of i evs = 3%nat
    /\ sleeps_of evs = [3 * Second; 6 * Second]
    /\ length (failures evs) = 3%nat
    /\ de' = fold_left chain (failures evs) de.
Proof.
  intros H. cbv zeta. cbn [downloadersLoop].
  change (seq 0 expRetryN) with [0; 1; 2]%nat.
  rewrite retryLoop_cons. cbv zeta.
  destruct (H w) as [Hs1 He1]. destruct (Download d w) as [r1 w1]. cbn [fst snd] in *.
  destruct (err r1) as [m1|]; [|congruence]. rewrite Hs1.
  change (isAccessIssueHttpStatusCode (-1)) with false.
  change (negb (-1 =? -1) && negb (isTransientHttpStatusCode (-1))) with false.
  change (negb (0 =? expRetryN - 1)%nat) with true. cbv iota.
  rewrite retryLoop_cons. cbv zeta.
  destruct (H (sf (backoff 0) w1)) as [Hs2 He2].
  destruct (Download d (sf (backoff 0) w1)) as [r2 w2]. cbn [fst snd] in *.
  destruct (err r2) as [m2|]; [|congruence]. rewrite Hs2.
  change (isAccessIssueHttpStatusCode (-1)) with false.
  change (negb (-1 =? -1) && negb (isTransientHttpStatusCode (-1))) with false.
  change (negb (1 =? expRetryN - 1)%nat) with true. cbv iota.
  rewrite retryLoop_cons. cbv zeta.
  destruct (H (sf (backoff 1) w2)) as [Hs3 He3].
  destruct (Download d (sf (backoff 1) w2)) as [r3 w3]. cbn [fst snd] in *.
  destruct (err r3) as [m3|]; [|congruence]. rewrite Hs3.
  change (isAccessIssueHttpStatusCode (-1)) with false.
  change (negb (-1 =? -1) && negb (isTransientHttpStatusCode (-1))) with false.
  change (negb (2 =? expRetryN - 1)%nat) with false. cbv iota.
  cbn [retryLoop emit effects result world_after].
  eexists (Ev i 0 DoDownload :: Ev i 0 (LogError m1) :: closeIfOpen i 0 (out r1)
           ++ [Ev i 0 (LogSleep (backoff 0)); Ev i 0 (Sleep (backoff 0))]
           ++ Ev i 1 DoDownload :: Ev i 1 (LogError m2) :: closeIfOpen i 1 (out r2)
           ++ [Ev i 1 (LogSleep (backoff 1)); Ev i 1 (Sleep (backoff 1))]
           ++ Ev i 2 DoDownload :: Ev i 2 (LogError m3) :: closeIfOpen i 2 (out r3)),
          _, w3.
  split; [|split; [reflexivity|split; [reflexivity|]]].
  - cbn [app]. repeat (rewrite <- ?app_assoc; cbn [app]). reflexivity.
  - destruct (out r1), (out r2), (out r3); cbn [closeIfOpen app];
      unfold calls_of; cbn [List.filter isCall length]; rewrite ?Nat.eqb_refl;
      cbn [length failures sleeps_of fold_left];
      (split; [reflexivity|split; [reflexivity|split; reflexivity]]).
Qed.

Lemma no_status_exhausts_retries_witness :
  exists evs de' w',
    let o := downloadersLoop Download_scripted sleep_recorded 0 [badDownloader] None 0%nat in
    let o' := downloadersLoop Download_scripted sleep_recorded 1 [] de' w' in
    effects o = evs ++ effects o'
    /\ result o = result o'
    /\ world_after o = world_after o'
    /\ calls_of 0 evs = 3%nat
    /\ sleeps_of evs = [3 * Second; 6 * Second]
    /\ length (failures evs) = 3%nat
    /\ de' = fold_left chain (failures evs) None.
Proof.
  apply (no_status_exhausts_retries Download_scripted sleep_recorded badDownloader [] 0 None 0%nat).
  intros w'. split; [reflexivity | discriminate].
Defined.

(** The aggregate does not put the first attempt's message first.  Two
    downloaders that are refused with the messages alpha and beta leave an
    error whose outermost layer, the one printed first, is the second
    attempt; the first attempt's message is printed last. *)
Lemma aggregate_error_order_counterexample :
  let dA : scripted := fun _ => failing 403 "alpha" in
  let dB : scripted := fun _ => failing 404 "beta" in
  let o := WithRetries Download_scripted sleep_recorded [dA; dB] 0%nat in
  failures (effects o) = [(0%nat, "alpha"); (0%nat, "beta")]
  /\ result o = (None, Some (Wrapf (errorString "alpha") "Attempt 1: beta "))
  /\ layers (Wrapf (errorString "alpha") "Attempt 1: beta ") = ["Attempt 1: beta "; "alpha"]
  /\ head (layers (Wrapf (errorString "alpha") "Attempt 1: beta ")) <> Some "alpha"
  /\ (forall Sprintf0 : string -> string,
        Sprintf0 "Attempt 1: beta " = "Attempt 1: beta " ->
        Error Sprintf0 (Wrapf (errorString "alpha") "Attempt 1: beta ")
        = "Attempt 1: beta : alpha").
Proof.
  cbv zeta. split; [reflexivity|]. split; [reflexivity|]. split; [reflexivity|].
  split; [discriminate|]. intros Sprintf0 Hplain. cbn [Error]. now rewrite Hplain.
Qed.

(** C8, as the code has it.  When every attempt on every downloader of a
    non-empty list fails, [WithRetries] returns a nil body and one error that
    wraps all per-attempt errors: the first failed attempt is the innermost
    cause, and each later failed attempt wraps what came before with the
    message built from its retry number and its error.  Printed, the error
    therefore lists the attempts latest first and ends with the message of
    the very first attempt. *)
Theorem WithRetries_aggregate_error {Downloader World : Type}
    (Download : Downloader -> World -> DownloadResult * World)
    (sf : Z -> World -> World)
    (ds : list Downloader) (w : World) :
  ds <> [] ->
  (forall d, In d ds -> forall w', err (fst (Download d w')) <> None) ->
  let o := WithRetries Download sf ds w in
  exists first later e,
    failures (effects o) = first :: later
    /\ result o = (None, aggregate (failures (effects o)))
    /\ result o = (None, Some e)
    /\ layers e
       = map (fun f => attemptMessage (fst f) (snd f)) (rev later) ++ [snd first]
    /\ forall Sprintf0, Error Sprintf0 e = chainText Sprintf0 (rev later) (snd first).
Proof.
  intros Hne Hfail. cbv zeta.
  pose proof (downloadersLoop_all_fail Download sf ds 0 None w Hfail) as Hres.
  cbv zeta in Hres. unfold WithRetries.
  destruct ds as [|d ds]; [congruence|].
  assert (Hd : err (fst (Download d w)) <> None) by (apply Hfail; now left).
  cbn [downloadersLoop] in *. change (seq 0 expRetryN) with [0; 1; 2]%nat in *.
  destruct (retryLoop_first_failure Download sf (downloadersLoop Download sf 1 ds)
              0 d 0%nat [1; 2]%nat None w Hd) as (msg & later & Hf).
  rewrite Hf in Hres. cbn [fold_left chain snd] in Hres.
  destruct (layers_chain later (errorString msg)) as (e & He & Hl).
  exists (0%nat, msg), later, e. rewrite Hres, He.
  split; [exact Hf|]. split; [rewrite Hf; unfold aggregate; cbn [fold_left chain snd]; now rewrite He|].
  split; [reflexivity|]. split; [exact Hl|].
  intros Sprintf0. rewrite (Error_chain Sprintf0 later (errorString msg) e He).
  now rewrite chainText_fold.
Qed.

Lemma WithRetries_aggregate_error_witness :
  let dA : scripted := fun _ => failing 403 "alpha" in
  let dB : scripted := fun _ => failing 500 "beta" in
  let o := WithRetries Download_scripted sleep_recorded [dA; dB] 0%nat in
  exists first later e,
    failures (effects o) = first :: later
    /\ result o = (None, aggregate (failures (effects o)))
    /\ result o = (None, Some e)
    /\ layers e
       = map (fun f => attemptMessage (fst f) (snd f)) (rev later) ++ [snd first]
    /\ forall Sprintf0, Error Sprintf0 e = chainText Sprintf0 (rev later) (snd first).
Proof.
  cbv zeta.
  apply (WithRetries_aggregate_error Download_scripted sleep_recorded
           [fun _ => failing 403 "alpha"; fun _ => failing 500 "beta"] 0%nat).
  - discriminate.
  - intros d [<-|[<-|[]]] w'; discriminate.
Defined.

(* ===================================================================== *)
(** * Properties of the sequence guard                                      *)
(* ===================================================================== *)

Import commands.

(** The three ways a check can go. *)
Lemma checkAndSaveSeqNum_stale (fs : gmap string Z) (mrseqPath : string) (seq stored : Z) :
  fs !! mrseqPath = Some stored -> seq <= stored ->
  checkAndSaveSeqNum seq mrseqPath fs
  = mkSeqOutcome true None fs [["event"; "comparing seqnum"; "path"; mrseqPath]].
Proof.
  intros Hp Hle. unfold checkAndSaveSeqNum, seqnum.IsSmallerThan. rewrite Hp.
  destruct (Z.ltb_spec stored seq); [lia|reflexivity].
Qed.

Lemma checkAndSaveSeqNum_fresh (fs : gmap string Z) (mrseqPath : string) (seq stored : Z) :
  fs !! mrseqPath = Some stored -> stored < seq ->
  checkAndSaveSeqNum seq mrseqPath fs
  = mkSeqOutcome false None (<[mrseqPath := seq]> fs)
      [["event"; "comparing seqnum"; "path"; mrseqPath];
       ["event"; "seqnum saved"; "path"; mrseqPath]].
Proof.
  intros Hp Hlt. unfold checkAndSaveSeqNum, seqnum.IsSmallerThan. rewrite Hp.
  destruct (Z.ltb_spec stored seq); [reflexivity|lia].
Qed.

Lemma checkAndSaveSeqNum_absent (fs : gmap string Z) (mrseqPath : string) (seq : Z) :
  fs !! mrseqPath = None ->
  checkAndSaveSeqNum seq mrseqPath fs
  = mkSeqOutcome false None (<[mrseqPath := seq]> fs)
      [["event"; "comparing seqnum"; "path"; mrseqPath];
       ["event"; "seqnum saved"; "path"; mrseqPath]].
Proof.
  intros Hp. unfold checkAndSaveSeqNum, seqnum.IsSmallerThan. now rewrite Hp.
Qed.

(** C1. With version [v2] persisted at the marker path, a candidate [v1] at
    or below [v2] is reported as already processed and the marker files are
    left exactly as they were, so the marker still holds [v2]; a candidate
    above [v2] is saved and the command may proceed.  A candidate is also
    saved, and the command may proceed, when nothing is persisted at the
    path.  Hence checking [v1] after a check that saved [v2] reports
    already processed and leaves [v2] in place. *)
Theorem checkAndSaveSeqNum_monotone (fs : gmap string Z) (mrseqPath : string)
    (v1 v2 : Z) :
  fs !! mrseqPath = Some v2 ->
  (v1 <= v2 ->
     let o := checkAndSaveSeqNum v1 mrseqPath fs in
     shouldExit o = true /\ seqErr o = None
     /\ markersAfter o = fs /\ markersAfter o !! mrseqPath = Some v2)
  /\ (v2 < v1 ->
     let o := checkAndSaveSeqNum v1 mrseqPath fs in
     shouldExit o = false /\ seqErr o = None
     /\ markersAfter o = <[mrseqPath := v1]> fs
     /\ markersAfter o !! mrseqPath = Some v1)
  /\ (forall fs0 : gmap string Z, fs0 !! mrseqPath = None ->
     let o := checkAndSaveSeqNum v1 mrseqPath fs0 in
     shouldExit o = false /\ seqErr o = None
     /\ markersAfter o = <[mrseqPath := v1]> fs0
     /\ markersAfter o !! mrseqPath = Some v1)
  /\ (v1 <= v2 -> forall fs0 : gmap string Z,
     let o2 := checkAndSaveSeqNum v2 mrseqPath fs0 in
     shouldExit o2 = false ->
     let o1 := checkAndSaveSeqNum v1 mrseqPath (markersAfter o2) in
     shouldExit o1 = true /\ seqErr o1 = None
     /\ markersAfter o1 !! mrseqPath = Some v2).
Proof.
  intros Hp. split; [|split; [|split]].
  - intros Hle. cbv zeta. rewrite (checkAndSaveSeqNum_stale _ _ _ _ Hp Hle). cbn [shouldExit seqErr markersAfter].
    auto.
  - intros Hlt. cbv zeta. rewrite (checkAndSaveSeqNum_fresh _ _ _ _ Hp Hlt). cbn [shouldExit seqErr markersAfter].
    repeat split; apply lookup_insert_eq.
  - intros fs0 H0. cbv zeta. rewrite (checkAndSaveSeqNum_absent _ _ _ H0). cbn [shouldExit seqErr markersAfter].
    repeat split; apply lookup_insert_eq.
  - intros Hle fs0. cbv zeta. intros Hgo.
    assert (Hm : markersAfter (checkAndSaveSeqNum v2 mrseqPath fs0) !! mrseqPath = Some v2).
    { destruct (fs0 !! mrseqPath) as [v0|] eqn:E0.
      - destruct (Z.lt_ge_cases v0 v2) as [Hlt|Hge].
        + rewrite (checkAndSaveSeqNum_fresh _ _ _ _ E0 Hlt). apply lookup_insert_eq.
        + rewrite (checkAndSaveSeqNum_stale _ _ _ _ E0 Hge) in Hgo. discriminate.
      - rewrite (checkAndSaveSeqNum_absent _ _ _ E0). apply lookup_insert_eq. }
    rewrite (checkAndSaveSeqNum_stale _ _ _ _ Hm Hle). cbn [shouldExit seqErr markersAfter]. auto.
Qed.

Lemma checkAndSaveSeqNum_monotone_witness :
  let fs : gmap string Z := {[ "mrseq" := 5 ]} in
  let o := checkAndSaveSeqNum 3 "mrseq" fs in
  shouldExit o = true /\ seqErr o = None
  /\ markersAfter o = fs /\ markersAfter o !! "mrseq" = Some 5.
Proof.
  cbv zeta.
  apply (proj1 (checkAndSaveSeqNum_monotone {[ "mrseq" := 5 ]} "mrseq" 3 5
                  (lookup_singleton_eq "mrseq" 5))).
  lia.
Defined.

(* ===================================================================== *)
(** * Properties of the append cursor                                       *)
(* ===================================================================== *)

Lemma wrap64_in_range (z : Z) :
  - 2 ^ 63 <= z <= golang.MaxInt64 -> golang.wrap64 z = z.
Proof.
  unfold golang.wrap64, golang.MaxInt64. intros H.
  rewrite Z.mod_small; lia.
Qed.

Lemma unread_fits (content : list Byte.byte) (pos : Z) :
  0 <= pos ->
  Z.of_nat (length content) <= golang.MaxInt64 ->
  drop (Z.to_nat pos) content <> [] ->
  pos + Z.of_nat (length (drop (Z.to_nat pos) content)) = Z.of_nat (length content).
Proof.
  intros Hpos Hmax Hne. rewrite length_drop.
  assert (Z.to_nat pos < length content)%nat; [|lia].
  destruct (Nat.lt_ge_cases (Z.to_nat pos) (length content)) as [|Hge]; [assumption|].
  exfalso. apply Hne. now apply drop_ge.
Qed.

(** What a call read, and what can come of it. *)
Lemma unread_nonempty (fs : gmap string (list Byte.byte)) (sourceFilePath : string) (pos : Z) :
  fst (GetFileFromPosition fs sourceFilePath pos) <> [] ->
  0 <= pos /\ snd (GetFileFromPosition fs sourceFilePath pos) = None
  /\ exists content, fs !! sourceFilePath = Some content
       /\ fst (GetFileFromPosition fs sourceFilePath pos) = drop (Z.to_nat pos) content.
Proof.
  unfold GetFileFromPosition. destruct (fs !! sourceFilePath) as [content|]; [|now cbn].
  destruct (Z.ltb_spec pos 0); [now cbn|]. cbn. eauto.
Qed.

Lemma appendToBlob_cases {BlobRef Client World : Type}
    (RefAppend : BlobRef -> list Byte.byte -> World -> option string * World)
    (ClientAppend : Client -> list Byte.byte -> World -> option string * World)
    (fs : gmap string (list Byte.byte)) (sourceFilePath : string)
    (appendBlobRef : option BlobRef) (appendBlobClient : option Client)
    (pos : Z) (w : World) :
  (appendBlobRef <> None \/ appendBlobClient <> None) ->
  let o := appendToBlob RefAppend ClientAppend fs sourceFilePath
             appendBlobRef appendBlobClient pos w in
  let unread := fst (GetFileFromPosition fs sourceFilePath pos) in
  (unread = [] /\ position o = pos /\ chunksSent (appendLog o) = [])
  \/ (unread <> [] /\ chunksSent (appendLog o) = [unread]
      /\ ((appendErr o = None
           /\ position o = golang.wrap64 (pos + Z.of_nat (length unread)))
          \/ (appendErr o <> None /\ position o = pos))).
Proof.
  intros Hsink. cbv zeta. unfold appendToBlob.
  assert (Hcfg : negb (isNil appendBlobRef) || negb (isNil appendBlobClient) = true).
  { destruct appendBlobRef, appendBlobClient; try reflexivity. destruct Hsink; congruence. }
  rewrite Hcfg. clear Hcfg.
  pose proof (unread_nonempty fs sourceFilePath pos) as Hun.
  destruct (GetFileFromPosition fs sourceFilePath pos) as [unread [e|]]; cbn [fst snd] in *.
  { left. cbn. repeat split.
    destruct unread; [reflexivity|]. destruct Hun as (_ & Hs & _); congruence. }
  destruct (Z.ltb_spec 0 (Z.of_nat (length unread))) as [Hnew|Hnone].
  2:{ left. destruct unread; [now cbn|cbn in Hnone; lia]. }
  assert (Hne : unread <> []) by (intros ->; cbn in Hnew; lia).
  right. split; [exact Hne|].
  destruct appendBlobRef as [ref|]; [|destruct appendBlobClient as [client|]].
  - destruct (RefAppend ref unread w) as [[e|] w']; cbn;
      (split; [reflexivity|]); [right|left]; split; congruence.
  - destruct (ClientAppend client unread w) as [[e|] w']; cbn;
      (split; [reflexivity|]); [right|left]; split; congruence.
  - destruct Hsink; congruence.
Qed.

(** C6. For a call of [appendToBlob] with a configured sink, on a source
    file whose size fits a 64-bit offset.  When the bytes from the input
    cursor on are read and the storage service accepts them, the returned
    cursor is the input cursor plus exactly the number of bytes read, and
    those bytes are sent once.  When the storage service answers the block
    with an error, the block was sent, that error is returned and the cursor
    is the input cursor; when reading fails, or there are no new bytes,
    nothing is sent and the cursor is the input cursor.  The cursor never
    decreases, every block sent consists of the bytes of the file from the
    cursor on (none from below it), and after an accepted block the cursor
    stands at the end of the file, so that the next call reads only what was
    appended since. *)
Theorem appendToBlob_cursor {BlobRef Client World : Type}
    (RefAppend : BlobRef -> list Byte.byte -> World -> option string * World)
    (ClientAppend : Client -> list Byte.byte -> World -> option string * World)
    (fs : gmap string (list Byte.byte)) (sourceFilePath : string)
    (appendBlobRef : option BlobRef) (appendBlobClient : option Client)
    (pos : Z) (w : World) :
  (appendBlobRef <> None \/ appendBlobClient <> None) ->
  (forall content, fs !! sourceFilePath = Some content ->
                   Z.of_nat (length content) <= golang.MaxInt64) ->
  let o := appendToBlob RefAppend ClientAppend fs sourceFilePath
             appendBlobRef appendBlobClient pos w in
  let read := GetFileFromPosition fs sourceFilePath pos in
  let unread := fst read in
  let answer := handOver RefAppend ClientAppend appendBlobRef appendBlobClient unread w in
  (snd read = None -> unread <> [] -> fst answer = None ->
     appendErr o = None
     /\ position o = pos + Z.of_nat (length unread)
     /\ chunksSent (appendLog o) = [unread]
     /\ sinkWorld o = snd answer)
  /\ (snd read = None -> unread <> [] -> forall e, fst answer = Some e ->
     appendErr o = Some e /\ position o = pos
     /\ chunksSent (appendLog o) = [unread]
     /\ sinkWorld o = snd answer)
  /\ (forall e, snd read = Some e ->
     appendErr o = Some e /\ position o = pos
     /\ chunksSent (appendLog o) = [] /\ sinkWorld o = w)
  /\ (snd read = None -> unread = [] ->
     appendErr o = None /\ position o = pos
     /\ chunksSent (appendLog o) = [] /\ sinkWorld o = w)
  /\ pos <= position o
  /\ (forall chunk, In chunk (chunksSent (appendLog o)) ->
        0 <= pos /\ exists content, fs !! sourceFilePath = Some content
                                    /\ chunk = drop (Z.to_nat pos) content)
  /\ (forall content extra, fs !! sourceFilePath = Some content ->
        0 <= pos <= Z.of_nat (length content) ->
        unread = [] \/ fst answer = None ->
        position o = Z.of_nat (length content)
        /\ drop (Z.to_nat (position o)) (content ++ extra) = extra).
Proof.
  intros Hsink Hsize. cbv zeta.
  pose proof (unread_nonempty fs sourceFilePath pos) as Hun.
  assert (Hfit : fst (GetFileFromPosition fs sourceFilePath pos) <> [] ->
            0 <= pos
            /\ golang.wrap64 (pos + Z.of_nat (length (fst (GetFileFromPosition fs
                                                             sourceFilePath pos))))
               = pos + Z.of_nat (length (fst (GetFileFromPosition fs sourceFilePath pos)))
            /\ exists content, fs !! sourceFilePath = Some content
                 /\ fst (GetFileFromPosition fs sourceFilePath pos)
                    = drop (Z.to_nat pos) content
                 /\ pos + Z.of_nat (length (fst (GetFileFromPosition fs sourceFilePath pos)))
                    = Z.of_nat (length content)).
  { intros Hne. destruct (Hun Hne) as (Hpos & _ & content & Hfile & Heq).
    pose proof (Hsize content Hfile) as Hmax.
    assert (Hsum : pos + Z.of_nat (length (fst (GetFileFromPosition fs sourceFilePath pos)))
                   = Z.of_nat (length content)).
    { rewrite Heq. apply unread_fits; [assumption..|]. now rewrite <- Heq. }
    split; [exact Hpos|]. split; [|eauto].
    apply wrap64_in_range. rewrite Hsum. unfold golang.MaxInt64 in *. lia. }
  assert (Hend : forall content extra, fs !! sourceFilePath = Some content ->
            0 <= pos <= Z.of_nat (length content) ->
            fst (GetFileFromPosition fs sourceFilePath pos) = [] ->
            pos = Z.of_nat (length content)
            /\ drop (Z.to_nat pos) (content ++ extra) = extra).
  { intros content extra Hfile Hrange Hnil.
    unfold GetFileFromPosition in Hnil. rewrite Hfile in Hnil.
    destruct (Z.ltb_spec pos 0); [lia|]. cbn [fst] in Hnil.
    apply (f_equal (@length Byte.byte)) in Hnil. rewrite length_drop in Hnil.
    cbn [length] in Hnil. assert (pos = Z.of_nat (length content)) as -> by lia.
    split; [reflexivity|]. rewrite Nat2Z.id. apply drop_app_length. }
  unfold appendToBlob, handOver.
  assert (Hcfg : negb (isNil appendBlobRef) || negb (isNil appendBlobClient) = true).
  { destruct appendBlobRef, appendBlobClient; try reflexivity. destruct Hsink; congruence. }
  rewrite Hcfg. clear Hcfg.
  destruct (GetFileFromPosition fs sourceFilePath pos) as [unread [e|]];
    cbn [fst snd] in *.
  { cbn [appendErr position appendLog sinkWorld chunksSent].
    split; [discriminate|]. split; [discriminate|].
    split; [intros e' He'; injection He' as <-; auto|].
    split; [discriminate|]. split; [lia|]. split; [intros chunk []|].
    intros content extra Hfile Hrange _.
    destruct unread as [|b unread].
    - now apply Hend.
    - destruct (Hun ltac:(discriminate)) as (_ & Hs & _). discriminate Hs. }
  destruct (Z.ltb_spec 0 (Z.of_nat (length unread))) as [Hnew|Hnone].
  2:{ assert (unread = []) as -> by (destruct unread; [reflexivity | cbn in Hnone; lia]).
      cbn [appendErr position appendLog sinkWorld chunksSent].
      split; [intros _ H; contradiction|]. split; [intros _ H; contradiction|].
      split; [discriminate|]. split; [auto|]. split; [lia|]. split; [intros chunk []|].
      intros content extra Hfile Hrange _. now apply Hend. }
  assert (Hne : unread <> []) by (intros ->; cbn in Hnew; lia).
  destruct (Hfit Hne) as (Hpos & Hw & content & Hfile & Heq & Hsum).
  assert (Hsent : forall chunk, In chunk [unread] ->
            0 <= pos /\ exists content, fs !! sourceFilePath = Some content
                                        /\ chunk = drop (Z.to_nat pos) content).
  { intros chunk [<-|[]]. eauto. }
  assert (Hnext : forall content' extra, fs !! sourceFilePath = Some content' ->
            pos + Z.of_nat (length unread) = Z.of_nat (length content')
            /\ drop (Z.to_nat (pos + Z.of_nat (length unread))) (content' ++ extra) = extra).
  { intros content' extra Hfile'. rewrite Hfile in Hfile'. injection Hfile' as <-.
    split; [exact Hsum|]. rewrite Hsum, Nat2Z.id. apply drop_app_length. }
  set (answer := match appendBlobRef, appendBlobClient with
                 | Some ref, _ => RefAppend ref unread w
                 | None, Some client => ClientAppend client unread w
                 | None, None => (None, w)
                 end).
  assert (Hcall :
    (let '(err, w', evs) :=
       match appendBlobRef, appendBlobClient with
       | Some ref, _ =>
           let (err, w') := RefAppend ref unread w in
           (err, w', [RefAppendBlock (Client := Client) ref unread])
       | None, Some client =>
           let (err, w') := ClientAppend client unread w in
           (err, w', [LogInsideClient unread; ClientAppendBlock client unread])
       | None, None => (None, w, [])
       end in
     err = fst answer /\ w' = snd answer /\ chunksSent evs = [unread])).
  { subst answer. destruct appendBlobRef as [ref|]; [|destruct appendBlobClient as [client|]].
    - destruct (RefAppend ref unread w) as [err w']. now cbn.
    - destruct (ClientAppend client unread w) as [err w']. now cbn.
    - destruct Hsink; congruence. }
  destruct (match appendBlobRef, appendBlobClient with
            | Some ref, _ =>
                let (err, w') := RefAppend ref unread w in
                (err, w', [RefAppendBlock (Client := Client) ref unread])
            | None, Some client =>
                let (err, w') := ClientAppend client unread w in
                (err, w', [LogInsideClient unread; ClientAppendBlock client unread])
            | None, None => (None, w, [])
            end) as [[err w'] evs].
  destruct Hcall as (-> & -> & Hchunks).
  assert (Hlog : forall e, chunksSent (evs ++ [LogAppendFailed (BlobRef := BlobRef)
                                                  (Client := Client) e]) = [unread]).
  { intros e. clear - Hchunks. revert Hchunks. generalize [unread].
    induction evs as [|ev evs IH]; intros l Hl; [exact Hl|].
    destruct ev; cbn [app chunksSent] in *; try (now apply IH);
      destruct l as [|x l]; try discriminate Hl; injection Hl as -> Hl;
      f_equal; now apply IH. }
  destruct (fst answer) as [e|] eqn:Ha;
    cbn [appendErr position appendLog sinkWorld]; rewrite ?Hlog, ?Hchunks, ?Hw.
  - split; [discriminate|]. split; [intros _ _ e' He'; injection He' as <-; auto|].
    split; [discriminate|]. split; [intros _ H; contradiction|]. split; [lia|].
    split; [exact Hsent|].
    intros content' extra _ _ [H|H]; [contradiction | discriminate H].
  - split; [auto|]. split; [discriminate|]. split; [discriminate|].
    split; [intros _ H; contradiction|]. split; [lia|]. split; [exact Hsent|].
    intros content' extra Hfile' _ _. destruct (Hnext content' extra Hfile') as [H1 H2].
    rewrite H1 in *. now split.
Qed.

Lemma appendToBlob_cursor_witness :
  let fs : gmap string (list Byte.byte) := {[ "stdout" := [Byte.x68; Byte.x69; Byte.x0a] ]} in
  let o := appendToBlob keepBlock keepBlock fs "stdout" (Some tt) None 1 [] in
  appendErr o = None /\ position o = 1 + 2
  /\ chunksSent (appendLog o) = [[Byte.x69; Byte.x0a]]
  /\ sinkWorld o = [[Byte.x69; Byte.x0a]].
Proof.
  cbv zeta.
  pose proof (appendToBlob_cursor keepBlock keepBlock
                {[ "stdout" := [Byte.x68; Byte.x69; Byte.x0a] ]} "stdout"
                (Some tt) None 1 []) as H.
  cbv zeta in H.
  assert (Hread : GetFileFromPosition {[ "stdout" := [Byte.x68; Byte.x69; Byte.x0a] ]}
                    "stdout" 1 = ([Byte.x69; Byte.x0a], None)).
  { unfold GetFileFromPosition. rewrite lookup_singleton_eq. reflexivity. }
  rewrite Hread in H. cbn [fst snd] in H.
  destruct H as (Hadv & _).
  - left. discriminate.
  - intros content Hc. rewrite lookup_singleton_eq in Hc. injection Hc as <-.
    vm_compute. discriminate.
  - apply Hadv; [reflexivity | discriminate | reflexivity].
Defined.

(* ===================================================================== *)
(** * Properties of the sink stage                                          *)
(* ===================================================================== *)

Section SinkFacts.

Context {BlobRef Cred Client World : Type}.
Variable SAS : string -> string -> World -> (option BlobRef * option string) * World.
Variable NewCred : option string -> World -> (Cred + string) * World.
Variable NewClient : string -> Cred -> World -> (Client + string) * World.
Variable Create : Client -> World -> option string * World.
Variable UriForLogging : string -> string.

Abbreviation viaSASOrIdentity := (createOrReplaceAppendBlob SAS NewCred NewClient Create UriForLogging).
Abbreviation viaIdentity :=
  (createOrReplaceAppendBlobUsingManagedIdentity NewCred NewClient Create UriForLogging).

Lemma createOrReplaceAppendBlob_no_uri sasToken mi w :
  viaSASOrIdentity "" sasToken mi w = mkBlobOutcome None None None w [].
Proof. reflexivity. Qed.

Lemma createOrReplaceAppendBlob_sas_ok blobUri sasToken mi w :
  blobUri <> "" -> sasToken <> "" ->
  snd (fst (SAS blobUri sasToken w)) = None ->
  viaSASOrIdentity blobUri sasToken mi w
  = mkBlobOutcome (fst (fst (SAS blobUri sasToken w))) None None
      (snd (SAS blobUri sasToken w)) [SASCreateOrReplace blobUri sasToken].
Proof.
  intros Hu Ht Hs. unfold createOrReplaceAppendBlob.
  destruct (String.eqb_spec blobUri ""); [contradiction|].
  destruct (String.eqb_spec sasToken ""); [contradiction|]. cbn [negb].
  destruct (SAS blobUri sasToken w) as [[ref e] w1]. cbn [fst snd] in *. subst e.
  reflexivity.
Qed.

Lemma createOrReplaceAppendBlob_sas_failed blobUri sasToken mi w e :
  blobUri <> "" -> sasToken <> "" ->
  snd (fst (SAS blobUri sasToken w)) = Some e ->
  let m := viaIdentity blobUri mi (snd (SAS blobUri sasToken w)) in
  viaSASOrIdentity blobUri sasToken mi w
  = mkBlobOutcome
      (if isNil (miErr m) then fst (fst (SAS blobUri sasToken w)) else None)
      (if isNil (miErr m) then miClient m else None)
      (if isNil (miErr m) then None
       else Some (errors.Wrap e "Creating or Replacing append blob failed."))
      (miWorld m)
      (SASCreateOrReplace blobUri sasToken :: LogSASFailed (UriForLogging blobUri) e :: miLog m).
Proof.
  intros Hu Ht Hs. cbv zeta. unfold createOrReplaceAppendBlob.
  destruct (String.eqb_spec blobUri ""); [contradiction|].
  destruct (String.eqb_spec sasToken ""); [contradiction|]. cbn [negb].
  destruct (SAS blobUri sasToken w) as [[ref e'] w1]. cbn [fst snd] in *. subst e'.
  cbn [isNil negb orb andb].
  destruct (miErr (viaIdentity blobUri mi w1)); reflexivity.
Qed.

Lemma createOrReplaceAppendBlob_no_token blobUri mi w :
  blobUri <> "" ->
  let m := viaIdentity blobUri mi w in
  viaSASOrIdentity blobUri "" mi w
  = mkBlobOutcome None
      (if isNil (miErr m) then miClient m else None)
      (match miErr m with
       | Some e => Some (errors.Wrap e "Creating or Replacing append blob failed.")
       | None => None
       end)
      (miWorld m) (miLog m).
Proof.
  intros Hu. cbv zeta. unfold createOrReplaceAppendBlob.
  destruct (String.eqb_spec blobUri ""); [contradiction|]. cbn [negb String.eqb orb andb isNil].
  destruct (miErr (viaIdentity blobUri mi w)); reflexivity.
Qed.

(** The sink stage fails exactly when creating one of the configured sinks
    fails, and then with the exit code for that condition. *)
Lemma enable_sinks_outcome (cfg : HandlerSettings) (w : World) :
  let out := viaSASOrIdentity (OutputBlobURI cfg)
               (OutputBlobSASToken (protectedSettings cfg))
               (OutputBlobManagedIdentity (protectedSettings cfg)) w in
  let err := viaSASOrIdentity (ErrorBlobURI cfg)
               (ErrorBlobSASToken (protectedSettings cfg))
               (ErrorBlobManagedIdentity (protectedSettings cfg)) (blobWorld out) in
  let stage := fst (fst (enable_sinks SAS NewCred NewClient Create UriForLogging cfg w)) in
  match blobErr out, blobErr err with
  | Some e, _ =>
      stage = SinksFailed (errors.Wrap e (blobCreateOrReplaceError (OutputBlobURI cfg)))
                ExitCode_BlobCreateOrReplaceFailed
  | None, Some e =>
      stage = SinksFailed (errors.Wrap e (blobCreateOrReplaceError (ErrorBlobURI cfg)))
                ExitCode_BlobCreateOrReplaceFailed
  | None, None =>
      stage = SinksReady (mkSinkHandles (blobSASRef out) (blobAppendClient out)
                            (blobSASRef err) (blobAppendClient err))
  end.
Proof.
  cbv zeta. unfold enable_sinks.
  destruct (String.eqb_spec (OutputBlobURI cfg) "") as [Ho|Ho]; cbn [negb].
  - rewrite Ho, createOrReplaceAppendBlob_no_uri. cbn [blobErr blobWorld blobSASRef blobAppendClient].
    destruct (String.eqb_spec (ErrorBlobURI cfg) "") as [He|He]; cbn [negb].
    + rewrite He, createOrReplaceAppendBlob_no_uri. reflexivity.
    + destruct (blobErr (viaSASOrIdentity (ErrorBlobURI cfg) _ _ w)); reflexivity.
  - destruct (blobErr (viaSASOrIdentity (OutputBlobURI cfg) _ _ w)); [reflexivity|].
    destruct (String.eqb_spec (ErrorBlobURI cfg) "") as [He|He]; cbn [negb].
    + rewrite He, createOrReplaceAppendBlob_no_uri. reflexivity.
    + destruct (blobErr (viaSASOrIdentity (ErrorBlobURI cfg) _ _ _)); reflexivity.
Qed.

(** C7. For a configured sink URI, blob creation tries the SAS token first
    when one is given; a successful SAS attempt ends the matter without the
    managed identity being consulted; when the SAS attempt fails, or no SAS
    token is given, the managed identity is tried next, and its success lets
    the command proceed.  An error comes back exactly when every credential
    that was tried failed.  The sink stage of [enable] fails, with the exit
    code for a failed blob create-or-replace, exactly when creating the
    output sink or (that having gone well) the error sink comes back with an
    error; otherwise it hands the sinks on. *)
Theorem createOrReplaceAppendBlob_credentials (blobUri sasToken : string)
    (mi : option RunCommandManagedIdentity) (w : World) :
  blobUri <> "" ->
  let o := viaSASOrIdentity blobUri sasToken mi w in
  let sas := SAS blobUri sasToken w in
  (sasToken <> "" -> snd (fst sas) = None ->
     blobErr o = None /\ blobSASRef o = fst (fst sas) /\ blobAppendClient o = None
     /\ blobLog o = [SASCreateOrReplace blobUri sasToken] /\ blobWorld o = snd sas)
  /\ (sasToken <> "" -> snd (fst sas) <> None ->
     let m := viaIdentity blobUri mi (snd sas) in
     (exists e, blobLog o = SASCreateOrReplace blobUri sasToken
                            :: LogSASFailed (UriForLogging blobUri) e :: miLog m)
     /\ (blobErr o = None <-> miErr m = None)
     /\ (miErr m = None -> blobAppendClient o = miClient m))
  /\ (sasToken = "" ->
     let m := viaIdentity blobUri mi w in
     blobLog o = miLog m
     /\ (blobErr o = None <-> miErr m = None)
     /\ (miErr m = None -> blobAppendClient o = miClient m /\ blobSASRef o = None))
  /\ (forall cfg : HandlerSettings,
     let out := viaSASOrIdentity (OutputBlobURI cfg)
                  (OutputBlobSASToken (protectedSettings cfg))
                  (OutputBlobManagedIdentity (protectedSettings cfg)) w in
     let err := viaSASOrIdentity (ErrorBlobURI cfg)
                  (ErrorBlobSASToken (protectedSettings cfg))
                  (ErrorBlobManagedIdentity (protectedSettings cfg)) (blobWorld out) in
     let stage := fst (fst (enable_sinks SAS NewCred NewClient Create UriForLogging cfg w)) in
     ((exists e, stage = SinksFailed e ExitCode_BlobCreateOrReplaceFailed)
      <-> blobErr out <> None \/ (blobErr out = None /\ blobErr err <> None))
     /\ (forall e code, stage = SinksFailed e code -> code = ExitCode_BlobCreateOrReplaceFailed)
     /\ ((exists h, stage = SinksReady h) <-> blobErr out = None /\ blobErr err = None)).
Proof.
  intros Hu. cbv zeta. split; [|split; [|split]].
  - intros Ht Hs. rewrite (createOrReplaceAppendBlob_sas_ok _ _ mi w Hu Ht Hs).
    cbn. auto.
  - intros Ht Hs. destruct (snd (fst (SAS blobUri sasToken w))) as [e|] eqn:He; [|congruence].
    pose proof (createOrReplaceAppendBlob_sas_failed _ _ mi w e Hu Ht He) as Hr.
    cbv zeta in Hr. rewrite Hr. cbn [blobErr blobLog blobAppendClient].
    destruct (miErr (viaIdentity blobUri mi (snd (SAS blobUri sasToken w)))) as [e'|];
      cbn [isNil]; (split; [eauto|]); split; try tauto; try congruence.
    all: split; congruence.
  - intros ->. pose proof (createOrReplaceAppendBlob_no_token _ mi w Hu) as Hr.
    cbv zeta in Hr. rewrite Hr. cbn [blobErr blobLog blobAppendClient blobSASRef].
    destruct (miErr (viaIdentity blobUri mi w)) as [e'|]; cbn [isNil];
      (split; [reflexivity|]); split; try tauto; try congruence.
    all: split; congruence.
  - intros cfg. pose proof (enable_sinks_outcome cfg w) as Hs. cbv zeta in Hs.
    destruct (blobErr (viaSASOrIdentity (OutputBlobURI cfg) _ _ w)) as [e1|].
    + rewrite Hs. split; [|split].
      * split; [intros _; left; congruence | eauto].
      * intros e code H. congruence.
      * split; [intros [h H]; discriminate | intros [H _]; discriminate].
    + destruct (blobErr (viaSASOrIdentity (ErrorBlobURI cfg) _ _ _)) as [e2|].
      * rewrite Hs. split; [|split].
        -- split; [intros _; right; split; congruence | eauto].
        -- intros e code H. congruence.
        -- split; [intros [h H]; discriminate | intros [_ H]; discriminate].
      * rewrite Hs. split; [|split].
        -- split; [intros [e H]; discriminate | intros [H|[_ H]]; congruence].
        -- intros e code H. discriminate.
        -- split; eauto.
Qed.

End SinkFacts.

Lemma createOrReplaceAppendBlob_credentials_witness :
  let o := createOrReplaceAppendBlob sasRefused credentialGranted clientFor createAccepted
             (fun uri => uri) "https://account/container/out" "sv=2020&sig=stale" None 0%nat in
  blobErr o = None /\ blobAppendClient o = Some "https://account/container/out".
Proof.
  cbv zeta.
  pose proof (createOrReplaceAppendBlob_credentials sasRefused credentialGranted clientFor
                createAccepted (fun uri => uri)
                "https://account/container/out" "sv=2020&sig=stale" None 0%nat) as H.
  cbv zeta in H.
  destruct H as (_ & Hfall & _); [discriminate|].
  destruct Hfall as (_ & Hiff & Hclient); [discriminate | discriminate |].
  split.
  - apply Hiff. reflexivity.
  - rewrite Hclient; reflexivity.
Defined.

(* ===================================================================== *)
(** * Properties of the status file                                         *)
(* ===================================================================== *)

Import status.

(** Decimal numerals start with a digit. *)
Lemma isDigit_digitChar (d : Z) : 0 <= d < 10 -> golang.isDigit (golang.digitChar d) = true.
Proof.
  intros H.
  assert (d = 0 \/ d = 1 \/ d = 2 \/ d = 3 \/ d = 4 \/ d = 5 \/ d = 6 \/ d = 7
          \/ d = 8 \/ d = 9) as Hd by lia.
  repeat (destruct Hd as [->|Hd]; [reflexivity|]). now subst.
Qed.

Lemma utoa_go_digit (fuel : nat) (n : Z) (acc : string) :
  exists c s, golang.utoa_go (S fuel) n acc = String c s /\ golang.isDigit c = true.
Proof.
  revert n acc. induction fuel as [|fuel IH]; intros n acc.
  - cbn [golang.utoa_go]. destruct (n <? 10);
      eexists _, _; (split; [reflexivity|]); apply isDigit_digitChar;
      apply Z.mod_pos_bound; lia.
  - change (golang.utoa_go (S (S fuel)) n acc)
      with (if n <? 10 then String (golang.digitChar (n mod 10)) acc
            else golang.utoa_go (S fuel) (n / 10) (String (golang.digitChar (n mod 10)) acc)).
    destruct (n <? 10); [|apply IH].
    eexists _, _; (split; [reflexivity|]); apply isDigit_digitChar;
      apply Z.mod_pos_bound; lia.
Qed.

Lemma nextRandom_digit (h : host) (try : nat) :
  exists c s, nextRandom h try = String c s /\ golang.isDigit c = true.
Proof. apply utoa_go_digit. Qed.

(** Text manipulation used by the temporary name. *)
Lemma append_cancel_l (p a b : string) : p +:+ a = p +:+ b -> a = b.
Proof.
  induction p as [|c p IH]; cbn; [auto|]. intros H. injection H as H. auto.
Qed.

Lemma append_nonempty_differs (p : string) (c : ascii) (s : string) :
  p +:+ String c s <> p.
Proof.
  induction p as [|a p IH]; cbn; [discriminate|]. intros H. injection H as H. auto.
Qed.

Lemma append_empty_r (s : string) : s +:+ "" = s.
Proof.
  induction s as [|c s IH]; [reflexivity|].
  change (String c (s +:+ "") = String c s). now f_equal.
Qed.

Lemma splitLast_spec (c : ascii) (s p q : string) :
  splitLast c s = Some (p, q) -> s = p +:+ String c q.
Proof.
  revert p q. induction s as [|a s IH]; intros p q; cbn; [discriminate|].
  destruct (splitLast c s) as [[p' q']|].
  - intros H. injection H as <- <-. cbn. now rewrite (IH p' q' eq_refl).
  - destruct (Ascii.eqb_spec a c) as [->|]; [|discriminate].
    intros H. now injection H as <- <-.
Qed.

(** The temporary name never coincides with the pattern it was made from. *)
Lemma temporary_name_differs (pattern prefix suffix : string) (c : ascii) (s : string) :
  prefixAndSuffix pattern = inl (prefix, suffix) ->
  golang.isDigit c = true ->
  prefix +:+ String c s +:+ suffix <> pattern.
Proof.
  unfold prefixAndSuffix. destruct (hasSeparator pattern); [discriminate|].
  destruct (splitLast "*" pattern) as [[p q]|] eqn:Hs.
  - intros H Hd. injection H as <- <-. apply splitLast_spec in Hs. rewrite Hs.
    intros Heq. apply append_cancel_l in Heq. cbn in Heq. injection Heq as -> _.
    discriminate Hd.
  - intros H Hd. injection H as <- <-. rewrite append_empty_r.
    apply append_nonempty_differs.
Qed.

(** Text manipulation used by file names. *)
Lemma length_append (a b : string) :
  String.length (a +:+ b) = (String.length a + String.length b)%nat.
Proof.
  induction a as [|c a IH]; [reflexivity|].
  change (S (String.length (a +:+ b)) = S (String.length a + String.length b)).
  now f_equal.
Qed.

Lemma append_assoc3 (a b c : string) : (a +:+ b) +:+ c = a +:+ (b +:+ c).
Proof.
  induction a as [|x a IH]; [reflexivity|].
  change (String x ((a +:+ b) +:+ c) = String x (a +:+ (b +:+ c))). now f_equal.
Qed.

Lemma hasSeparator_append (a b : string) :
  hasSeparator (a +:+ b) = hasSeparator a || hasSeparator b.
Proof.
  induction a as [|c a IH]; [reflexivity|].
  change (hasSeparator (String c a +:+ b)) with (Ascii.eqb c "/" || hasSeparator (a +:+ b)).
  cbn [hasSeparator]. rewrite IH. apply orb_assoc.
Qed.

Lemma splitLast_none (s : string) : hasSeparator s = false -> splitLast "/" s = None.
Proof.
  induction s as [|c s IH]; [reflexivity|]. cbn [hasSeparator splitLast]. intros H.
  apply orb_false_elim in H as [Hc Hs]. now rewrite (IH Hs), Hc.
Qed.

Lemma splitLast_app (a b : string) :
  hasSeparator b = false -> splitLast "/" (a +:+ String "/" b) = Some (a, b).
Proof.
  intros Hb. induction a as [|c a IH].
  - change ("" +:+ String "/" b) with (String "/" b). cbn [splitLast].
    now rewrite (splitLast_none b Hb).
  - change (String c a +:+ String "/" b) with (String c (a +:+ String "/" b)).
    cbn [splitLast]. now rewrite IH.
Qed.

Lemma baseName_entry (a b : string) :
  hasSeparator b = false -> baseName (a +:+ String "/" b) = b.
Proof. intros Hb. unfold baseName. now rewrite splitLast_app. Qed.

Lemma baseName_plain (b : string) : hasSeparator b = false -> baseName b = b.
Proof. intros Hb. unfold baseName. now rewrite splitLast_none. Qed.

(** [os.joinPath] puts the name into the directory as its last element. *)
Lemma joinPath_entry (dir e : string) : exists a, joinPath dir e = a +:+ String "/" e.
Proof.
  unfold joinPath. destruct (splitLast "/" dir) as [[p q]|] eqn:E.
  - destruct q as [|c q]; [|now exists dir].
    apply splitLast_spec in E. exists p. rewrite E. now rewrite append_assoc3.
  - now exists dir.
Qed.

Lemma joinPath_app (dir a b : string) : joinPath dir (a +:+ b) = joinPath dir a +:+ b.
Proof.
  unfold joinPath. destruct (splitLast "/" dir) as [[p [|c q]]|].
  - now rewrite append_assoc3.
  - rewrite append_assoc3. reflexivity.
  - rewrite append_assoc3. reflexivity.
Qed.

Lemma splitSlash_nonempty (s : string) : splitSlash s <> [].
Proof.
  destruct s as [|c s]; [discriminate|]. cbn [splitSlash].
  destruct (Ascii.eqb c "/"); [discriminate|]. destruct (splitSlash s); discriminate.
Qed.

Lemma splitSlash_plain (s : string) : hasSeparator s = false -> splitSlash s = [s].
Proof.
  induction s as [|c s IH]; [reflexivity|]. cbn [hasSeparator splitSlash]. intros H.
  apply orb_false_elim in H as [Hc Hs]. now rewrite Hc, (IH Hs).
Qed.

Lemma splitSlash_app (a b : string) :
  hasSeparator b = false -> splitSlash (a +:+ String "/" b) = splitSlash a ++ [b].
Proof.
  intros Hb. induction a as [|c a IH].
  - change ("" +:+ String "/" b) with (String "/" b). cbn [splitSlash].
    change (Ascii.eqb "/" "/") with true. cbv iota. now rewrite (splitSlash_plain b Hb).
  - change (String c a +:+ String "/" b) with (String c (a +:+ String "/" b)).
    cbn [splitSlash]. rewrite IH. destruct (Ascii.eqb c "/"); [reflexivity|].
    pose proof (splitSlash_nonempty a) as Hne.
    destruct (splitSlash a) as [|e es]; [contradiction|reflexivity].
Qed.

Lemma joinSlash_snoc (elems : list string) (e : string) :
  joinSlash (elems ++ [e])
  = match elems with
    | [] => e
    | _ :: _ => joinSlash elems +:+ String "/" e
    end.
Proof.
  induction elems as [|x elems IH]; [reflexivity|].
  change ((x :: elems) ++ [e]) with (x :: (elems ++ [e])).
  cbn [joinSlash]. rewrite IH.
  destruct elems as [|y elems]; [reflexivity|].
  cbn [app]. now rewrite append_assoc3.
Qed.

Lemma cleanStep_entry (rooted : bool) (kept : list string) (fn : string) :
  entryName fn -> cleanStep rooted kept fn = fn :: kept.
Proof.
  intros (_ & H0 & H1 & H2). unfold cleanStep.
  destruct (String.eqb_spec fn ""); [contradiction|].
  destruct (String.eqb_spec fn "."); [contradiction|].
  destruct (String.eqb_spec fn ".."); [contradiction|]. reflexivity.
Qed.

Lemma Clean_entry (path fn : string) :
  entryName fn ->
  path = fn \/ (exists a, path = a +:+ String "/" fn) ->
  baseName (Clean path) = fn.
Proof.
  intros Hfn Hpath. pose proof Hfn as (Hsep & H0 & _).
  assert (Hsplit : exists elems, splitSlash path = elems ++ [fn]).
  { destruct Hpath as [->|[a ->]].
    - exists []. now apply splitSlash_plain.
    - exists (splitSlash a). now apply splitSlash_app. }
  destruct Hsplit as [elems Hsplit].
  assert (Hp : path <> "").
  { destruct Hpath as [->|[a ->]]; [exact H0|]. destruct a; discriminate. }
  unfold Clean. destruct (String.eqb_spec path ""); [contradiction|].
  rewrite Hsplit, fold_left_app. cbn [fold_left].
  rewrite (cleanStep_entry _ _ _ Hfn). cbn [rev]. rewrite joinSlash_snoc.
  set (rooted := match path with String c _ => Ascii.eqb c "/" | EmptyString => false end).
  set (kept := rev (fold_left (cleanStep rooted) elems [])).
  assert (Hout : forall out : string,
            out = fn \/ (exists a, out = a +:+ String "/" fn) ->
            baseName (if String.eqb out "" then "." else out) = fn).
  { intros out [->|[a ->]].
    - destruct (String.eqb_spec fn ""); [contradiction|]. now apply baseName_plain.
    - destruct (String.eqb_spec (a +:+ String "/" fn) "") as [E|_].
      + destruct a; discriminate E.
      + now apply baseName_entry. }
  apply Hout. destruct rooted, kept as [|k kept'].
  - right. now exists "".
  - right. exists ("/" +:+ joinSlash (k :: kept')). now rewrite append_assoc3.
  - now left.
  - right. now exists (joinSlash (k :: kept')).
Qed.

Lemma baseName_Join (dir fn : string) :
  entryName fn -> baseName (filepath_Join dir fn) = fn.
Proof.
  intros Hfn. pose proof Hfn as (_ & H0 & _). unfold filepath_Join.
  destruct (String.eqb_spec dir "") as [->|_]; cbn [negb].
  - destruct (String.eqb_spec fn ""); [contradiction|]. cbn [negb].
    apply Clean_entry; auto.
  - apply Clean_entry; [exact Hfn | right; now exists dir].
Qed.

(** The status file name is an entry name unless the extension name brings
    a separator. *)
Lemma statusFileName_entry (extName : string) (seqNo : Z) :
  hasSeparator (statusFileName extName seqNo) = false ->
  entryName (statusFileName extName seqNo).
Proof.
  intros Hsep. split; [exact Hsep|].
  assert (Hlen : (7 <= String.length (statusFileName extName seqNo))%nat).
  { unfold statusFileName. destruct (negb (String.eqb extName ""));
      rewrite ?length_append; cbn [String.length]; lia. }
  repeat split; intros E; rewrite E in Hlen; cbn in Hlen; lia.
Qed.

(** Decimal numerals hold no separator. *)
Lemma digitChar_no_separator (d : Z) :
  0 <= d < 10 -> Ascii.eqb (golang.digitChar d) "/" = false.
Proof.
  intros H.
  assert (d = 0 \/ d = 1 \/ d = 2 \/ d = 3 \/ d = 4 \/ d = 5 \/ d = 6 \/ d = 7
          \/ d = 8 \/ d = 9) as Hd by lia.
  repeat (destruct Hd as [->|Hd]; [reflexivity|]). now subst.
Qed.

Lemma utoa_go_no_separator (fuel : nat) (n : Z) (acc : string) :
  hasSeparator acc = false -> hasSeparator (golang.utoa_go fuel n acc) = false.
Proof.
  revert n acc. induction fuel as [|fuel IH]; intros n acc Hacc; [exact Hacc|].
  assert (Hd : hasSeparator (String (golang.digitChar (n mod 10)) acc) = false).
  { cbn [hasSeparator]. rewrite digitChar_no_separator, Hacc; [reflexivity|].
    apply Z.mod_pos_bound. lia. }
  change (golang.utoa_go (S fuel) n acc)
    with (if n <? 10 then String (golang.digitChar (n mod 10)) acc
          else golang.utoa_go fuel (n / 10) (String (golang.digitChar (n mod 10)) acc)).
  destruct (n <? 10); [exact Hd | now apply IH].
Qed.

Lemma prefixAndSuffix_no_separator (pattern prefix suffix : string) :
  prefixAndSuffix pattern = inl (prefix, suffix) ->
  hasSeparator pattern = false
  /\ hasSeparator prefix = false /\ hasSeparator suffix = false.
Proof.
  unfold prefixAndSuffix. destruct (hasSeparator pattern) eqn:Hp; [discriminate|].
  destruct (splitLast "*" pattern) as [[p q]|] eqn:Hs; intros H; injection H as <- <-.
  - apply splitLast_spec in Hs. rewrite Hs, hasSeparator_append in Hp.
    apply orb_false_elim in Hp as [Hp Hq]. cbn [hasSeparator] in Hq.
    apply orb_false_elim in Hq as [_ Hq]. auto.
  - auto.
Qed.

(** What [os.CreateTemp] leaves behind: a new, empty file whose name is an
    entry of the directory as written, other than the pattern. *)
Lemma createTempLoop_spec (directory : string -> string) (h : host)
    (prefix suffix : string) (fuel try : nat) (fs : gmap location string) :
  match createTempLoop directory h prefix suffix fuel try fs with
  | (inl tmp, fs1) =>
      fs !! locate directory tmp = None /\ fs1 = <[locate directory tmp := ""]> fs
      /\ exists k, tmp = prefix +:+ nextRandom h k +:+ suffix
  | (inr _, fs1) => fs1 = fs
  end.
Proof.
  revert try. induction fuel as [|fuel IH]; intros try; cbn [createTempLoop]; [reflexivity|].
  destruct (fs !! locate directory (prefix +:+ nextRandom h try +:+ suffix)) eqn:Hl;
    [apply IH|].
  destruct (openFault h); [reflexivity|]. eauto.
Qed.

Lemma CreateTemp_spec (directory : string -> string) (h : host) (dir pattern : string)
    (fs : gmap location string) :
  match CreateTemp directory h dir pattern fs with
  | (inl tmp, fs1) =>
      fs !! locate directory tmp = None /\ fs1 = <[locate directory tmp := ""]> fs
      /\ hasSeparator pattern = false
      /\ exists e,
           tmp = joinPath (if String.eqb dir "" then TempDir h else dir) e
           /\ hasSeparator e = false /\ e <> pattern
  | (inr _, fs1) => fs1 = fs
  end.
Proof.
  unfold CreateTemp. destruct (prefixAndSuffix pattern) as [[prefix suffix]|e] eqn:Hp;
    [|reflexivity].
  pose proof (createTempLoop_spec directory h
                (joinPath (if String.eqb dir "" then TempDir h else dir) prefix)
                suffix (100 * 100) 0 fs) as H.
  destruct (createTempLoop directory h _ suffix (100 * 100) 0 fs) as [[tmp|e] fs1];
    [|exact H].
  destruct H as (Hnew & Hfs & k & ->).
  destruct (prefixAndSuffix_no_separator _ _ _ Hp) as (Hpat & Hpre & Hsuf).
  split; [exact Hnew|]. split; [exact Hfs|]. split; [exact Hpat|].
  exists (prefix +:+ nextRandom h k +:+ suffix).
  split; [now rewrite joinPath_app|]. split.
  - rewrite !hasSeparator_append, Hpre, Hsuf. unfold nextRandom, golang.utoa.
    now rewrite utoa_go_no_separator.
  - destruct (nextRandom_digit h k) as (c & s & -> & Hd).
    now apply temporary_name_differs.
Qed.

Lemma TempDir_nonempty (h : host) : TempDir h <> "".
Proof.
  unfold TempDir. destruct (String.eqb_spec (TMPDIR h) ""); [discriminate|assumption].
Qed.

Lemma writing_elsewhere (loc p : location) (data : string) (n : nat)
    (fs s : gmap location string) :
  In s (writing loc data n fs) -> p <> loc -> s !! p = fs !! p.
Proof.
  unfold writing. intros Hin Hne. apply in_map_iff in Hin as (k & <- & _).
  now apply lookup_insert_ne.
Qed.

(** The temporary file and the final path are different entries, wherever
    their directories lie. *)
Lemma temporary_is_not_final (directory : string -> string) (dir e statusFolder fn : string) :
  hasSeparator e = false -> entryName fn -> e <> fn ->
  locate directory (joinPath dir e) <> locate directory (filepath_Join statusFolder fn).
Proof.
  intros He Hfn Hne. unfold locate. intros H. injection H as _ H.
  rewrite (baseName_Join _ _ Hfn) in H.
  destruct (joinPath_entry dir e) as [a Ha]. rewrite Ha, (baseName_entry _ _ He) in H.
  contradiction.
Qed.

(** One run of [saveStatusReport], whatever the status folder and whatever
    the directories its names denote. *)
Lemma saveStatusReport_run (directory : string -> string) (h : host)
    (statusFolder extName : string) (seqNo : Z) (rootStatusJson : string)
    (fs : gmap location string) :
  let fn := statusFileName extName seqNo in
  let final := locate directory (filepath_Join statusFolder fn) in
  let o := saveStatusReport directory h statusFolder extName seqNo rootStatusJson fs in
  (forall s, In s (snapshots o) ->
        s !! final = fs !! final \/ s !! final = Some rootStatusJson)
  /\ (saveErr o = None ->
        filesAfter o = <[final := rootStatusJson]> fs
        /\ exists tmp,
             locate directory tmp <> final /\ fs !! locate directory tmp = None
             /\ fileCalls o = [CallCreateTemp statusFolder fn (Some tmp);
                               CallClose tmp;
                               CallWriteFile tmp rootStatusJson;
                               CallRename tmp (filepath_Join statusFolder fn)])
  /\ (saveErr o <> None -> filesAfter o !! final = fs !! final)
  /\ (forall dir pattern tmp,
        In (CallCreateTemp dir pattern (Some tmp)) (fileCalls o) ->
        exists e, tmp = joinPath (if String.eqb statusFolder "" then TempDir h
                                  else statusFolder) e
                  /\ hasSeparator e = false)
  /\ (forall name data, In (CallWriteFile name data) (fileCalls o) ->
        data = rootStatusJson).
Proof.
  cbv zeta.
  unfold saveStatusReport.
  set (fn := statusFileName extName seqNo).
  set (final := locate directory (filepath_Join statusFolder fn)).
  pose proof (CreateTemp_spec directory h statusFolder fn fs) as Hct.
  destruct (CreateTemp directory h statusFolder fn fs) as [[tmp|e] fs1].
  2:{ subst fs1. cbn [snapshots saveErr filesAfter fileCalls].
      split; [intros s [<-|[]]; now left|].
      split; [discriminate|]. split; [reflexivity|].
      split; [intros dir pattern tmp [H|[]]; discriminate H|].
      intros name data [H|[]]. discriminate H. }
  destruct Hct as (Hnew & -> & Hsep & e & Htmp & He & Hname).
  assert (Hne : final <> locate directory tmp).
  { intros Heq. subst final. rewrite Htmp in Heq.
    apply (temporary_is_not_final directory
             (if String.eqb statusFolder "" then TempDir h else statusFolder)
             e statusFolder fn He (statusFileName_entry _ _ Hsep) Hname).
    now symmetry. }
  assert (Hstep : forall (x : string) (m : gmap location string),
             <[locate directory tmp := x]> m !! final = m !! final).
  { intros x m. apply lookup_insert_ne. congruence. }
  assert (Hmade : forall dir pattern tmp',
            CallCreateTemp statusFolder fn (Some tmp) = CallCreateTemp dir pattern (Some tmp') ->
            exists e, tmp' = joinPath (if String.eqb statusFolder "" then TempDir h
                                       else statusFolder) e
                      /\ hasSeparator e = false).
  { intros dir pattern tmp' H. injection H as _ _ <-. now exists e. }
  unfold WriteFile. destruct (writeFault h) as [[k err]|].
  { cbn [snapshots saveErr filesAfter fileCalls].
    split.
    { intros s [<-|[<-|Hin]]; [now left|left; apply Hstep|].
      apply in_app_or in Hin as [Hin|[<-|[]]].
      - left. rewrite (writing_elsewhere _ _ _ _ _ _ Hin Hne). apply Hstep.
      - left. now rewrite !Hstep. }
    split; [discriminate|]. split; [intros _; now rewrite !Hstep|].
    split.
    - intros dir pattern tmp' Hin. cbn in Hin.
      destruct Hin as [H|[H|[H|[]]]]; try discriminate H. now apply (Hmade dir pattern).
    - intros name data Hin. cbn in Hin.
      destruct Hin as [H|[H|[H|[]]]]; try discriminate H. now injection H as _ <-. }
  unfold Rename. destruct (renameFault h) as [err|].
  { cbn [snapshots saveErr filesAfter fileCalls].
    split.
    { intros s [<-|[<-|Hin]]; [now left|left; apply Hstep|].
      apply in_app_or in Hin as [Hin|[<-|[<-|[]]]].
      - left. rewrite (writing_elsewhere _ _ _ _ _ _ Hin Hne). apply Hstep.
      - left. now rewrite !Hstep.
      - left. now rewrite !Hstep. }
    split; [discriminate|]. split; [intros _; now rewrite !Hstep|].
    split.
    - intros dir pattern tmp' Hin. cbn in Hin.
      destruct Hin as [H|[H|[H|[H|[]]]]]; try discriminate H. now apply (Hmade dir pattern).
    - intros name data Hin. cbn in Hin.
      destruct Hin as [H|[H|[H|[H|[]]]]]; try discriminate H. now injection H as _ <-. }
  rewrite lookup_insert_eq.
  rewrite delete_insert_eq, (delete_insert_id _ _ _ Hnew).
  cbn [snapshots saveErr filesAfter fileCalls].
  split.
  { intros s [<-|[<-|Hin]]; [now left|left; apply Hstep|].
    apply in_app_or in Hin as [Hin|[<-|[<-|[]]]].
    - left. rewrite (writing_elsewhere _ _ _ _ _ _ Hin Hne). apply Hstep.
    - left. now rewrite !Hstep.
    - right. apply lookup_insert_eq. }
  split.
  { intros _. split; [reflexivity|]. exists tmp. repeat split; auto. }
  split; [congruence|].
  split.
  - intros dir pattern tmp' Hin. cbn in Hin.
    destruct Hin as [H|[H|[H|[H|[]]]]]; try discriminate H. now apply (Hmade dir pattern).
  - intros name data Hin. cbn in Hin.
    destruct Hin as [H|[H|[H|[H|[]]]]]; try discriminate H. now injection H as _ <-.
Qed.

(** C5. With an empty status folder the temporary file is not written to the
    folder of the status file.  [os.CreateTemp] takes the empty directory as
    the default directory for temporary files, [filepath.Join] as no
    directory at all: the temporary file is [/tmp/7.status7], the final path
    is [7.status] in the working directory, and the rename has to carry the
    file from the one directory to the other. *)
Theorem saveStatusReport_empty_folder_leaves_folder :
  let h := mkHost "" (fun _ => 7) None None None in
  let o := saveStatusReport Clean h "" "" 7 "{}" ∅ in
  saveErr o = None
  /\ fileCalls o = [CallCreateTemp "" "7.status" (Some "/tmp/7.status7");
                    CallClose "/tmp/7.status7";
                    CallWriteFile "/tmp/7.status7" "{}";
                    CallRename "/tmp/7.status7" "7.status"]
  /\ dirName "/tmp/7.status7" = "/tmp"
  /\ dirName "7.status" = "."
  /\ (forall directory : string -> string,
        directory "/tmp" <> directory "." ->
        fst (locate directory "/tmp/7.status7") <> fst (locate directory "7.status")).
Proof.
  cbv zeta. split; [vm_compute; reflexivity|].
  split; [vm_compute; reflexivity|].
  split; [reflexivity|]. split; [reflexivity|].
  intros directory Hd. exact Hd.
Qed.

(* ===================================================================== *)
(** * Properties of the two status bodies                                   *)
(* ===================================================================== *)

(** The indenter only adds layout. *)
Lemma dropLayout_app (a b : list token) :
  dropLayout (a ++ b) = dropLayout a ++ dropLayout b.
Proof. unfold dropLayout. apply List.filter_app. Qed.

Lemma dropLayout_appendIndent (prefix indent : string) (src : list token)
    (needIndent : bool) (depth : nat) :
  dropLayout (appendIndent prefix indent needIndent depth src) = dropLayout src.
Proof.
  revert needIndent depth. induction src as [|t src IH]; intros needIndent depth;
    [reflexivity|].
  cbn [appendIndent].
  destruct t, needIndent; cbn [andb negb app];
    unfold dropLayout in *; cbn [List.filter isLayout negb]; now rewrite ?IH.
Qed.

Lemma length_render_appendIndent (prefix indent : string) (src : list token)
    (needIndent : bool) (depth : nat) :
  (String.length (render src)
   <= String.length (render (appendIndent prefix indent needIndent depth src)))%nat.
Proof.
  revert needIndent depth. induction src as [|t src IH]; intros needIndent depth;
    [reflexivity|].
  cbn [appendIndent].
  destruct t, needIndent; cbn [andb negb app render fold_right];
    rewrite ?length_append;
    repeat match goal with
           | |- context [appendIndent prefix indent ?b ?d src] =>
               let H := fresh in
               pose proof (IH b d) as H;
               generalize dependent (appendIndent prefix indent b d src); intros
           end;
    unfold render in *; lia.
Qed.

Section ReportingFacts.

Context {StatusReport World : Type}.
Variable NewStatusReport : StatusType -> string -> string -> StatusReport.
Variable toJSON : StatusReport -> json.
Variable encodeString : string -> string.
Variable ReportStatus : string -> string -> World -> option string * World.

(** The compact text holds no layout. *)
Lemma compactTokens_no_layout :
  forall j : json, dropLayout (compactTokens encodeString j) = compactTokens encodeString j.
Proof.
  fix IH 1. intros [s|z|members|items]; try reflexivity.
  - cbn [compactTokens]. unfold dropLayout at 1. cbn [List.filter isLayout negb].
    fold dropLayout. f_equal. generalize true. revert members.
    fix IHm 1. intros [|[k v] ms] first; [reflexivity|].
    rewrite dropLayout_app. f_equal; [now destruct first|].
    unfold dropLayout at 1. cbn [List.filter isLayout negb]. fold dropLayout.
    do 2 f_equal. rewrite dropLayout_app. f_equal; [apply IH | apply IHm].
  - cbn [compactTokens]. unfold dropLayout at 1. cbn [List.filter isLayout negb].
    fold dropLayout. f_equal. generalize true. revert items.
    fix IHv 1. intros [|v vs] first; [reflexivity|].
    rewrite !dropLayout_app. f_equal; [now destruct first|].
    f_equal; [apply IH | apply IHv].
Qed.

(** An object or array with something in it is longer once indented. *)
Lemma indented_is_longer (j : json) :
  (exists k v ms, j = JObject ((k, v) :: ms)) \/ (exists v vs, j = JArray (v :: vs)) ->
  (String.length (render (compactTokens encodeString j))
   < String.length (render (appendIndent "" tab false 0 (compactTokens encodeString j))))%nat.
Proof.
  intros [(k & v & ms & ->)|(v & vs & ->)].
  - cbn [compactTokens app appendIndent andb negb].
    cbn [render fold_right]. rewrite !length_append.
    match goal with
    | |- context [appendIndent ?p ?i ?b ?d ?src] =>
        pose proof (length_render_appendIndent p i src b d) as H;
        unfold render in H
    end.
    cbn [tokenText newline String.length] in *. lia.
  - cbn [compactTokens app].
    destruct (compactTokens encodeString v) as [|t ts] eqn:Hv.
    { destruct v as [| |[|[]]|[|]]; discriminate Hv. }
    assert (Hopen : match t with EndObject | EndArray => false | _ => true end = true).
    { destruct v as [| |[|[]]|[|]]; cbn in Hv; injection Hv as <- _; reflexivity. }
    cbn [app appendIndent andb negb].
    destruct t; try discriminate Hopen; cbn [andb negb app render fold_right];
      rewrite !length_append;
      match goal with
      | |- context [appendIndent ?p ?i ?b ?d ?src] =>
          pose proof (length_render_appendIndent p i src b d) as H;
          unfold render in H
      end;
      cbn [tokenText newline String.length] in *; lia.
Qed.

(** C9, as the code has it.  For a command that reports status, the body
    posted to the reporting endpoint and the body saved in the status file
    are both renderings of the one status report built from the status type,
    the command name and the message: the posted body is the compact text
    of [json.Marshal], the saved body is the same text passed through the
    indenter ([json.MarshalIndent] with an empty prefix and a tab).  The two
    hold the same tokens in the same order and differ only in layout white
    space; they are not the same bytes as soon as the report is an object or
    array with something in it. *)
Theorem status_bodies_same_document (directory : string -> string) (h : host)
    (hEnv : HandlerEnvironment)
    (metadata : RCMetadata) (statusType : StatusType) (c : Cmd) (msg : string)
    (w : World) (fs : gmap location string) :
  ShouldReportStatus c = true ->
  let report := NewStatusReport statusType (Name c) msg in
  let compact := marshalTokens toJSON encodeString report in
  let indented := marshalIndentTokens toJSON encodeString report "" tab in
  let remote := ReportStatusToBlob NewStatusReport toJSON encodeString ReportStatus
                  hEnv metadata statusType c msg w in
  let saved := ReportStatusToLocalFile NewStatusReport toJSON encodeString
                 directory h hEnv metadata statusType c msg fs in
  let final := locate directory
                 (filepath_Join (StatusFolder hEnv)
                    (statusFileName (ExtName metadata) (SeqNum metadata))) in
  submitted remote = [(WireServerFallbackAddress, render compact)]
  /\ (forall name data, In (CallWriteFile name data) (fileCalls saved) ->
        data = render indented)
  /\ (saveErr saved = None -> filesAfter saved !! final = Some (render indented))
  /\ indented = appendIndent "" tab false 0 compact
  /\ dropLayout indented = compact
  /\ ((exists k v ms, toJSON report = JObject ((k, v) :: ms))
      \/ (exists v vs, toJSON report = JArray (v :: vs)) ->
      render indented <> render compact).
Proof.
  intros Hreport. cbv zeta.
  split; [|split; [|split; [|split; [reflexivity|split]]]].
  - unfold ReportStatusToBlob, getRootStatusJson, json_Marshal. rewrite Hreport.
    cbn [negb]. destruct (ReportStatus _ _ w) as [e w']. reflexivity.
  - unfold ReportStatusToLocalFile, getRootStatusJson, json_MarshalIndent.
    rewrite Hreport. cbn [negb fileCalls].
    apply (saveStatusReport_run directory h (StatusFolder hEnv) (ExtName metadata)
             (SeqNum metadata)).
  - unfold ReportStatusToLocalFile, getRootStatusJson, json_MarshalIndent.
    rewrite Hreport. cbn [negb saveErr filesAfter].
    pose proof (saveStatusReport_run directory h (StatusFolder hEnv) (ExtName metadata)
                  (SeqNum metadata)
                  (render (marshalIndentTokens toJSON encodeString
                             (NewStatusReport statusType (Name c) msg) "" tab)) fs) as H.
    cbv zeta in H. destruct H as (_ & Hok & _).
    destruct (saveErr (saveStatusReport _ _ _ _ _ _ fs)) as [e|]; [discriminate|].
    intros _. destruct (Hok eq_refl) as [-> _]. apply lookup_insert_eq.
  - unfold marshalIndentTokens, marshalTokens.
    rewrite dropLayout_appendIndent. apply compactTokens_no_layout.
  - intros Hshape Heq. unfold marshalIndentTokens, marshalTokens in Heq.
    pose proof (indented_is_longer _ Hshape) as Hlt. rewrite Heq in Hlt. lia.
Qed.

End ReportingFacts.

(** The two bodies are not the same bytes: for a successful enable with the
    message ok, 51 bytes are posted and 61 bytes are saved. *)
Lemma status_bodies_differ_counterexample :
  let h := mkHost "" (fun _ => 7) None None None in
  let cmd := mkCmd "enable" true in
  let remote := ReportStatusToBlob mkStatusItem itemJSON quotePlain acceptAll
                  (mkHandlerEnvironment "/var/lib/waagent/status") (mkRCMetadata "" 7)
                  StatusSuccess cmd "ok" [] in
  let saved := ReportStatusToLocalFile mkStatusItem itemJSON quotePlain Clean h
                 (mkHandlerEnvironment "/var/lib/waagent/status") (mkRCMetadata "" 7)
                 StatusSuccess cmd "ok" ∅ in
  match submitted remote, filesAfter saved !! ("/var/lib/waagent/status", "7.status") with
  | [(_, posted)], Some kept =>
      String.eqb posted kept = false
      /\ String.length posted = 51%nat /\ String.length kept = 61%nat
  | _, _ => False
  end.
Proof. vm_compute. repeat split. Qed.

Lemma status_bodies_same_document_witness :
  let h := mkHost "" (fun _ => 7) None None None in
  let cmd := mkCmd "enable" true in
  let report := mkStatusItem StatusSuccess "enable" "ok" in
  let remote := ReportStatusToBlob mkStatusItem itemJSON quotePlain acceptAll
                  (mkHandlerEnvironment "/var/lib/waagent/status") (mkRCMetadata "" 7)
                  StatusSuccess cmd "ok" [] in
  submitted remote
  = [(WireServerFallbackAddress, render (marshalTokens itemJSON quotePlain report))]
  /\ dropLayout (marshalIndentTokens itemJSON quotePlain report "" tab)
     = marshalTokens itemJSON quotePlain report.
Proof.
  cbv zeta.
  pose proof (status_bodies_same_document mkStatusItem itemJSON quotePlain acceptAll
                Clean (mkHost "" (fun _ => 7) None None None)
                (mkHandlerEnvironment "/var/lib/waagent/status") (mkRCMetadata "" 7)
                StatusSuccess (mkCmd "enable" true) "ok" [] ∅ eq_refl) as H.
  cbv zeta in H. destruct H as (Hposted & _ & _ & _ & Hsame & _).
  split; assumption.
Defined.

(* ===================================================================== *)
(** * Further properties of the download engine                            *)
(* ===================================================================== *)

Import totals.

Section EngineMore.

Context {Downloader World : Type}.
Variable Download : Downloader -> World -> DownloadResult * World.
Variable sf : Z -> World -> World.

Lemma sleeps_of_attempt i n msg o (rest : list event) :
  sleeps_of (Ev i n DoDownload :: Ev i n (LogError msg) :: closeIfOpen i n o ++ rest)
  = sleeps_of rest.
Proof. now destruct o. Qed.

Lemma scheduled_nonneg (l : list Z) :
  Forall scheduled l -> 0 <= fold_right Z.add 0 l.
Proof.
  induction 1 as [|x l Hx HF IHF]; cbn [fold_right]; [lia|].
  destruct Hx; subst; unfold Second; lia.
Qed.

Lemma retryLoop_sleeps next i d (k n0 : nat) de w (B : Z) :
  (n0 + k = expRetryN)%nat ->
  (forall de' w', Forall scheduled (sleeps_of (effects (next de' w')))
                  /\ slept (effects (next de' w')) <= B) ->
  let o := retryLoop Download sf next i d (seq n0 k) de w in
  Forall scheduled (sleeps_of (effects o)) /\ slept (effects o) <= budgetFrom n0 + B.
Proof.
  intros Hk Hnext. cbv zeta. revert n0 Hk de w.
  assert (Hb : forall n, 0 <= budgetFrom n).
  { intros [|[|n]]; unfold budgetFrom, Second; lia. }
  induction k as [|k IH]; intros n0 Hk de w.
  - cbn [seq retryLoop]. destruct (Hnext de w) as [HF HB]. split; [exact HF|].
    specialize (Hb n0). lia.
  - cbn [seq]. rewrite retryLoop_cons. cbv zeta.
    destruct (Download d w) as [r w1]. cbn [fst snd].
    destruct (err r) as [msg|].
    + cbn [emit effects app]. unfold slept. rewrite sleeps_of_attempt.
      destruct (isAccessIssueHttpStatusCode (status r)).
      { destruct (Hnext (chain de (n0, msg)) w1) as [HF HB]. split; [exact HF|].
        unfold slept in HB. specialize (Hb n0). lia. }
      destruct (negb (status r =? -1) && negb (isTransientHttpStatusCode (status r))).
      { cbn [emit effects app sleeps_of].
        destruct (Hnext (chain de (n0, msg)) w1) as [HF HB]. split; [exact HF|].
        unfold slept in HB. specialize (Hb n0). lia. }
      destruct (Nat.eqb_spec n0 (expRetryN - 1)) as [Heq|Hne]; cbn [negb].
      * destruct (IH (S n0) ltac:(lia) (chain de (n0, msg)) w1) as [HF HB].
        split; [exact HF|]. unfold slept in HB.
        subst n0. unfold expRetryN in *. cbn [Nat.sub budgetFrom] in *. lia.
      * cbn [emit effects app sleeps_of fold_right].
        destruct (IH (S n0) ltac:(lia) (chain de (n0, msg)) (sf (backoff n0) w1))
          as [HF HB].
        unfold slept in HB. unfold expRetryN in *.
        destruct n0 as [|[|n0]]; [| |lia].
        -- change (backoff 0) with (3 * Second) in *. split.
           ++ constructor; [now left | exact HF].
           ++ cbn [budgetFrom] in *. lia.
        -- change (backoff 1) with (6 * Second) in *. split.
           ++ constructor; [now right | exact HF].
           ++ cbn [budgetFrom] in *. lia.
    + cbn [emit effects app sleeps_of]. unfold slept. cbn [sleeps_of fold_right].
      split; [constructor|]. destruct (Hnext de w) as [HF HB].
      pose proof (scheduled_nonneg _ HF). unfold slept in HB.
      specialize (Hb n0). lia.
Qed.

Lemma downloadersLoop_sleeps ds i de w :
  let o := downloadersLoop Download sf i ds de w in
  Forall scheduled (sleeps_of (effects o))
  /\ slept (effects o) <= 9 * Second * Z.of_nat (length ds).
Proof.
  cbv zeta. revert i de w. induction ds as [|d ds IH]; intros i de w.
  - cbn. split; [constructor|lia].
  - cbn [downloadersLoop].
    pose proof (retryLoop_sleeps (downloadersLoop Download sf (S i) ds) i d
                  expRetryN 0 de w (9 * Second * Z.of_nat (length ds))
                  eq_refl (fun de' w' => IH (S i) de' w')) as H.
    cbv zeta in H. destruct H as [HF HB]. split; [exact HF|].
    cbn [budgetFrom length] in *. lia.
Qed.

Lemma wellEnded_after_failure evs (o : outcome (World := World)) de f de' :
  wellEnded o (chain de f) -> wellEnded (emit evs o) de'.
Proof.
  intros [H1 H2]. split; [exact H1|]. cbn [emit result effects]. intros Hn.
  destruct (H2 Hn) as [[Hd _]|(pre & i & n & ->)].
  - destruct de; discriminate.
  - right. exists (evs ++ pre), i, n. now rewrite app_assoc.
Qed.

Lemma retryLoop_wellEnded next i d ns de w :
  (forall de' w', wellEnded (next de' w') de') ->
  wellEnded (retryLoop Download sf next i d ns de w) de.
Proof.
  intros Hnext. revert de w. induction ns as [|n ns IH]; intros de w; [apply Hnext|].
  rewrite retryLoop_cons. cbv zeta.
  destruct (Download d w) as [r w1]. cbn [fst snd].
  destruct (err r) as [msg|].
  - apply (wellEnded_after_failure _ _ de (n, msg)).
    apply (wellEnded_after_failure _ _ de (n, msg)).
    destruct (isAccessIssueHttpStatusCode (status r)); [apply Hnext|].
    destruct (negb (status r =? -1) && negb (isTransientHttpStatusCode (status r))).
    { apply (wellEnded_after_failure _ _ de (n, msg)). apply Hnext. }
    destruct (negb (n =? expRetryN - 1)%nat).
    + apply (wellEnded_after_failure _ _ de (n, msg)). apply IH.
    + apply IH.
  - split; cbn [emit result effects fst snd app]; [congruence|].
    intros _. right. now exists [], i, n.
Qed.

Lemma downloadersLoop_wellEnded ds i de w :
  wellEnded (downloadersLoop Download sf i ds de w) de.
Proof.
  revert i de w. induction ds as [|d ds IH]; intros i de w.
  - split; cbn [downloadersLoop result effects fst snd]; [reflexivity|]. now left.
  - cbn [downloadersLoop]. apply retryLoop_wellEnded. intros. apply IH.
Qed.

End EngineMore.

Section EngineOrder.

Context {Downloader World : Type}.
Variable Download : Downloader -> World -> DownloadResult * World.
Variable sf : Z -> World -> World.

Lemma requests_app (a b : list event) : requests (a ++ b) = requests a ++ requests b.
Proof.
  induction a as [|e a IH]; [reflexivity|].
  destruct e as [i n []]; cbn [app requests]; congruence.
Qed.

Lemma requests_closeIfOpen (i n : nat) (o : option body) : requests (closeIfOpen i n o) = [].
Proof. now destruct o. Qed.

Lemma requests_attempt i n msg o (rest : list event) :
  requests (Ev i n DoDownload :: Ev i n (LogError msg) :: closeIfOpen i n o ++ rest)
  = (i, n) :: requests rest.
Proof. cbn [requests]. now rewrite requests_app, requests_closeIfOpen. Qed.

Lemma retryLoop_inOrder next i d (k n0 : nat) de w prev :
  follows prev (i, n0) ->
  (forall de' w' prev',
      (forall p, prev' = Some p -> (fst p <= i)%nat) ->
      inOrder prev' (requests (effects (next de' w')))) ->
  inOrder prev (requests (effects (retryLoop Download sf next i d (seq n0 k) de w))).
Proof.
  intros Hprev Hnext. revert n0 de w prev Hprev.
  induction k as [|k IH]; intros n0 de w prev Hprev.
  - cbn [seq retryLoop]. apply Hnext. intros p ->. cbn in Hprev. lia.
  - cbn [seq]. rewrite retryLoop_cons. cbv zeta.
    destruct (Download d w) as [r w1]. cbn [fst snd].
    assert (Hlater : forall de' w', inOrder (Some (i, n0)) (requests (effects (next de' w')))).
    { intros de' w'. apply Hnext. intros p Hp. injection Hp as <-. cbn. lia. }
    destruct (err r) as [msg|]; [|cbn; auto].
    cbn [emit effects app]. rewrite requests_attempt. cbn [inOrder].
    split; [exact Hprev|].
    destruct (isAccessIssueHttpStatusCode (status r)); [apply Hlater|].
    destruct (negb (status r =? -1) && negb (isTransientHttpStatusCode (status r)));
      [cbn [emit effects app requests]; apply Hlater|].
    destruct (negb (n0 =? expRetryN - 1)%nat); cbn [emit effects app requests];
      apply IH; cbn; lia.
Qed.

Lemma downloadersLoop_inOrder ds i de w prev :
  (forall p, prev = Some p -> (fst p < i)%nat) ->
  inOrder prev (requests (effects (downloadersLoop Download sf i ds de w))).
Proof.
  revert i de w prev. induction ds as [|d ds IH]; intros i de w prev Hprev; [exact I|].
  cbn [downloadersLoop]. apply retryLoop_inOrder.
  - destruct prev as [p|]; [|reflexivity]. right. split; [now apply Hprev | reflexivity].
  - intros de' w' prev' Hp. apply IH. intros p Hpp. specialize (Hp p Hpp). lia.
Qed.

End EngineOrder.

(** X1. Over a whole run [WithRetries] sleeps only for 3 or for 6 seconds at
    a time, and for at most 9 seconds per downloader in the list, whatever
    the downloaders answer. *)
Theorem WithRetries_sleep_budget {Downloader World : Type}
    (Download : Downloader -> World -> DownloadResult * World)
    (sf : Z -> World -> World) (ds : list Downloader) (w : World) :
  let o := WithRetries Download sf ds w in
  Forall scheduled (sleeps_of (effects o))
  /\ slept (effects o) <= 9 * Second * Z.of_nat (length ds).
Proof. apply downloadersLoop_sleeps. Qed.

(** X2. [WithRetries] never hands back a body together with an error, and
    when it returns without error on a non-empty list the request that
    succeeded is the last thing it did: no further request, sleep, log line
    or close follows it. *)
Theorem WithRetries_ends_at_success {Downloader World : Type}
    (Download : Downloader -> World -> DownloadResult * World)
    (sf : Z -> World -> World) (ds : list Downloader) (w : World) :
  let o := WithRetries Download sf ds w in
  (forall e, snd (result o) = Some e -> fst (result o) = None)
  /\ (snd (result o) = None -> effects o = [] \/ endsWithDownload (effects o))
  /\ (effects o = [] <-> ds = []).
Proof.
  cbv zeta. unfold WithRetries.
  destruct (downloadersLoop_wellEnded Download sf ds 0 None w) as [H1 H2].
  split; [|split].
  - intros e He. apply H1. congruence.
  - intros Hn. destruct (H2 Hn) as [[_ H]|H]; [now left | now right].
  - split; [|now intros ->].
    destruct ds as [|d ds]; [reflexivity|].
    cbn [downloadersLoop]. change (seq 0 expRetryN) with [0; 1; 2]%nat.
    rewrite retryLoop_cons. cbv zeta. discriminate.
Qed.

(** X3. [WithRetries] asks the downloaders in the order of the list and
    never goes back: every request is either the next attempt on the
    downloader asked just before, or the first attempt on a downloader
    further down the list; the very first request is the first attempt on
    some downloader. *)
Theorem WithRetries_never_goes_back {Downloader World : Type}
    (Download : Downloader -> World -> DownloadResult * World)
    (sf : Z -> World -> World) (ds : list Downloader) (w : World) :
  inOrder None (requests (effects (WithRetries Download sf ds w))).
Proof. apply downloadersLoop_inOrder. discriminate. Qed.

(** X4. A downloader whose first answer is an error with a status that is
    neither an access issue nor transient nor missing (400, say) is given up
    at once: one request, the error logged and added to the accumulated
    error, the body closed if there is one, an info line, no sleep; the run
    continues with the next downloader. *)
Theorem other_status_abandons_downloader {Downloader World : Type}
    (Download : Downloader -> World -> DownloadResult * World)
    (sf : Z -> World -> World)
    (d : Downloader) (rest : list Downloader) (i : nat)
    (de : option error) (w : World) (msg : string) :
  let r := fst (Download d w) in
  err r = Some msg ->
  isAccessIssueHttpStatusCode (status r) = false ->
  isTransientHttpStatusCode (status r) = false ->
  status r <> -1 ->
  let o := downloadersLoop Download sf i (d :: rest) de w in
  let o' := downloadersLoop Download sf (S i) rest (chain de (0%nat, msg))
              (snd (Download d w)) in
  effects o
  = Ev i 0 DoDownload :: Ev i 0 (LogError msg) :: closeIfOpen i 0 (out r)
    ++ Ev i 0 (LogSkip (status r)) :: effects o'
  /\ result o = result o'
  /\ world_after o = world_after o'
  /\ calls_of i (effects o) = S (calls_of i (effects o'))
  /\ sleeps_of (effects o) = sleeps_of (effects o').
Proof.
  cbv zeta. intros He Ha Ht Hs. cbn [downloadersLoop].
  change (seq 0 expRetryN) with [0; 1; 2]%nat.
  rewrite retryLoop_cons. cbv zeta.
  destruct (Download d w) as [r w1]. cbn [fst snd] in *.
  rewrite He, Ha, Ht. apply Z.eqb_neq in Hs. rewrite Hs. cbn [negb andb].
  cbn [emit effects result world_after app].
  split; [reflexivity|]. split; [reflexivity|]. split; [reflexivity|].
  split.
  - change (Ev i 0 DoDownload :: Ev i 0 (LogError msg) :: closeIfOpen i 0 (out r)
            ++ Ev i 0 (LogSkip (status r)) :: ?x)
      with ([Ev i 0 DoDownload; Ev i 0 (LogError msg)] ++ closeIfOpen i 0 (out r)
            ++ [Ev i 0 (LogSkip (status r))] ++ x).
    rewrite !calls_of_app, calls_of_closeIfOpen.
    unfold calls_of at 1 2. cbn [List.filter isCall length]. rewrite Nat.eqb_refl.
    reflexivity.
  - rewrite sleeps_of_attempt. reflexivity.
Qed.

Lemma other_status_abandons_downloader_witness :
  let refused : scripted := fun _ => failing 400 "400 Bad Request" in
  let o := downloadersLoop Download_scripted sleep_recorded 0 [refused] None 0%nat in
  effects o = [Ev 0 0 DoDownload; Ev 0 0 (LogError "400 Bad Request"); Ev 0 0 (LogSkip 400)]
  /\ result o = (None, Some (errorString "400 Bad Request"))
  /\ sleeps_of (effects o) = [].
Proof.
  cbv zeta.
  pose proof (other_status_abandons_downloader Download_scripted sleep_recorded
                (fun _ => failing 400 "400 Bad Request") [] 0 None 0%nat
                "400 Bad Request") as H.
  cbv zeta in H.
  destruct H as (He & Hr & _ & _ & Hs).
  - reflexivity.
  - reflexivity.
  - reflexivity.
  - discriminate.
  - split; [exact He|]. split; [exact Hr | exact Hs].
Defined.

(** X5. A downloader that keeps answering with a transient status (408, 429,
    500, 502, 503 or 504) is asked exactly three times, with sleeps of 3 and
    then 6 seconds between the attempts and none after the third; its three
    errors are added to the accumulated error and the run continues with the
    next downloader. *)
Theorem transient_exhausts_retries {Downloader World : Type}
    (Download : Downloader -> World -> DownloadResult * World)
    (sf : Z -> World -> World)
    (d : Downloader) (rest : list Downloader) (i : nat)
    (de : option error) (w : World) :
  (forall w', transientFailure (fst (Download d w'))) ->
  let o := downloadersLoop Download sf i (d :: rest) de w in
  exists evs de' w',
    let o' := downloadersLoop Download sf (S i) rest de' w' in
    effects o = evs ++ effects o'
    /\ result o = result o'
    /\ world_after o = world_after o'
    /\ calls_of i evs = 3%nat
    /\ sleeps_of evs = [3 * Second; 6 * Second]
    /\ (exists pre a, evs = pre ++ [a] /\ sleeps_of [a] = [])
    /\ de' = fold_left chain (failures evs) de
    /\ length (failures evs) = 3%nat.
Proof.
  intros H. cbv zeta. cbn [downloadersLoop].
  pose proof transient_is_no_access_issue as Hna.
  change (seq 0 expRetryN) with [0; 1; 2]%nat.
  rewrite retryLoop_cons. cbv zeta.
  destruct (H w) as [Hs1 He1]. destruct (Download d w) as [r1 w1]. cbn [fst snd] in *.
  destruct (err r1) as [m1|]; [|congruence].
  rewrite (Hna _ Hs1), Hs1, andb_false_r.
  change (negb (0 =? expRetryN - 1)%nat) with true. cbv iota.
  rewrite retryLoop_cons. cbv zeta.
  destruct (H (sf (backoff 0) w1)) as [Hs2 He2].
  destruct (Download d (sf (backoff 0) w1)) as [r2 w2]. cbn [fst snd] in *.
  destruct (err r2) as [m2|]; [|congruence].
  rewrite (Hna _ Hs2), Hs2, andb_false_r.
  change (negb (1 =? expRetryN - 1)%nat) with true. cbv iota.
  rewrite retryLoop_cons. cbv zeta.
  destruct (H (sf (backoff 1) w2)) as [Hs3 He3].
  destruct (Download d (sf (backoff 1) w2)) as [r3 w3]. cbn [fst snd] in *.
  destruct (err r3) as [m3|]; [|congruence].
  rewrite (Hna _ Hs3), Hs3, andb_false_r.
  change (negb (2 =? expRetryN - 1)%nat) with false. cbv iota.
  cbn [retryLoop emit effects result world_after].
  eexists (Ev i 0 DoDownload :: Ev i 0 (LogError m1) :: closeIfOpen i 0 (out r1)
           ++ [Ev i 0 (LogSleep (backoff 0)); Ev i 0 (Sleep (backoff 0))]
           ++ Ev i 1 DoDownload :: Ev i 1 (LogError m2) :: closeIfOpen i 1 (out r2)
           ++ [Ev i 1 (LogSleep (backoff 1)); Ev i 1 (Sleep (backoff 1))]
           ++ Ev i 2 DoDownload :: Ev i 2 (LogError m3) :: closeIfOpen i 2 (out r3)),
          _, w3.
  split; [|split; [reflexivity|split; [reflexivity|]]].
  - cbn [app]. repeat (rewrite <- ?app_assoc; cbn [app]). reflexivity.
  - destruct (out r1) as [b1|], (out r2) as [b2|], (out r3) as [b3|];
      cbn [closeIfOpen app];
      unfold calls_of; cbn [List.filter isCall length]; rewrite ?Nat.eqb_refl;
      cbn [length failures sleeps_of fold_left];
      (split; [reflexivity|split; [reflexivity|split; [|split; reflexivity]]]).
    all: match goal with
         | |- exists pre a, ?l = _ /\ _ =>
             exists (List.removelast l), (List.last l (Ev 0 0 DoDownload))
         end; cbn [List.removelast List.last]; split; reflexivity.
Qed.

Lemma transient_exhausts_retries_witness :
  let busy : scripted := fun _ => failing 503 "503 Service Unavailable" in
  exists evs de' w',
    let o := downloadersLoop Download_scripted sleep_recorded 0 [busy] None 0%nat in
    let o' := downloadersLoop Download_scripted sleep_recorded 1 [] de' w' in
    effects o = evs ++ effects o'
    /\ result o = result o'
    /\ world_after o = world_after o'
    /\ calls_of 0 evs = 3%nat
    /\ sleeps_of evs = [3 * Second; 6 * Second]
    /\ (exists pre a, evs = pre ++ [a] /\ sleeps_of [a] = [])
    /\ de' = fold_left chain (failures evs) None
    /\ length (failures evs) = 3%nat.
Proof.
  cbv zeta.
  apply (transient_exhausts_retries Download_scripted sleep_recorded
           (fun _ => failing 503 "503 Service Unavailable") [] 0 None 0%nat).
  intros w'. split; [reflexivity | discriminate].
Defined.

(* ===================================================================== *)
(** * Properties of the handler environment lookup                          *)
(* ===================================================================== *)

(** X6. [GetHandlerEnv] prefers the descriptor next to the executable: the
    one a level up is read only when the first does not exist.  A first file
    that exists but cannot be read is an error, whatever lies a level up, and
    when neither exists the error names both paths. *)
Theorem GetHandlerEnv_prefers_own_level {HandlerEnvironment : Type}
    (zero : HandlerEnvironment)
    (json_Unmarshal : string -> list HandlerEnvironment + string)
    (os_ReadFile : string -> handlersettings.readResult)
    (filepath_Join : list string -> string) (dir : string) :
  let here := filepath_Join [dir; handlersettings.HandlerEnvFileName] in
  let above := filepath_Join [dir; ".."; handlersettings.HandlerEnvFileName] in
  let o := handlersettings.GetHandlerEnv zero json_Unmarshal os_ReadFile filepath_Join
             (inl dir) in
  let parsed b := handlersettings.ParseHandlerEnv zero json_Unmarshal b in
  match os_ReadFile here with
  | handlersettings.ReadOK b =>
      handlersettings.filesRead o = [here]
      /\ (handlersettings.he o, handlersettings.envErr o) = parsed b
  | handlersettings.ReadFailed e =>
      handlersettings.filesRead o = [here]
      /\ handlersettings.envErr o
         = Some ("vmextension: error examining HandlerEnvironment at '" +:+ here
                 +:+ "': " +:+ e)
  | handlersettings.ReadNotExist _ =>
      handlersettings.filesRead o = [here; above]
      /\ match os_ReadFile above with
         | handlersettings.ReadOK b =>
             (handlersettings.he o, handlersettings.envErr o) = parsed b
         | handlersettings.ReadFailed e =>
             handlersettings.envErr o
             = Some ("vmextension: error examining HandlerEnvironment at '" +:+ above
                     +:+ "': " +:+ e)
         | handlersettings.ReadNotExist _ =>
             handlersettings.envErr o
             = Some ("vmextension: Cannot find HandlerEnvironment at paths: "
                     +:+ here +:+ ", " +:+ above)
         end
  end.
Proof.
  cbv zeta. unfold handlersettings.GetHandlerEnv.
  cbn [handlersettings.examine].
  destruct (os_ReadFile (filepath_Join [dir; handlersettings.HandlerEnvFileName]))
    as [b|e|e].
  - cbn. destruct (handlersettings.ParseHandlerEnv zero json_Unmarshal b). now split.
  - destruct (os_ReadFile (filepath_Join [dir; ".."; handlersettings.HandlerEnvFileName]))
      as [b|e'|e'].
    + cbn. destruct (handlersettings.ParseHandlerEnv zero json_Unmarshal b). now split.
    + now split.
    + now split.
  - now split.
Qed.

(* ===================================================================== *)
(** * Further properties of the status file                                 *)
(* ===================================================================== *)

Import naming.

Lemma append_cancel_r (a b s : string) : a +:+ s = b +:+ s -> a = b.
Proof.
  revert b. induction a as [|x a IH]; intros [|y b] H.
  - reflexivity.
  - apply (f_equal String.length) in H. rewrite !length_append in H.
    cbn [String.length] in H. lia.
  - apply (f_equal String.length) in H. rewrite !length_append in H.
    cbn [String.length] in H. lia.
  - change (String x (a +:+ s) = String y (b +:+ s)) in H.
    injection H as -> H. f_equal. now apply IH.
Qed.

Lemma digitChar_inj (d1 d2 : Z) :
  0 <= d1 < 10 -> 0 <= d2 < 10 -> golang.digitChar d1 = golang.digitChar d2 -> d1 = d2.
Proof.
  intros H1 H2 H. unfold golang.digitChar in H.
  apply (f_equal nat_of_ascii) in H.
  rewrite !nat_ascii_embedding in H by lia. lia.
Qed.

Lemma digitChar_noDot (d : Z) : 0 <= d < 10 -> Ascii.eqb (golang.digitChar d) "." = false.
Proof.
  intros H.
  assert (d = 0 \/ d = 1 \/ d = 2 \/ d = 3 \/ d = 4 \/ d = 5 \/ d = 6 \/ d = 7
          \/ d = 8 \/ d = 9) as Hd by lia.
  repeat (destruct Hd as [->|Hd]; [reflexivity|]). now subst.
Qed.

Lemma utoa_go_step (fuel : nat) (n : Z) (acc : string) :
  golang.utoa_go (S fuel) n acc
  = if n <? 10 then String (golang.digitChar (n mod 10)) acc
    else golang.utoa_go fuel (n / 10) (String (golang.digitChar (n mod 10)) acc).
Proof. reflexivity. Qed.

Lemma utoa_go_length (fuel : nat) (n : Z) (acc : string) :
  (String.length acc + (if fuel is O then 0 else 1)
   <= String.length (golang.utoa_go fuel n acc))%nat.
Proof.
  revert n acc. induction fuel as [|fuel IH]; intros n acc; [cbn; lia|].
  rewrite utoa_go_step. destruct (n <? 10); [cbn [String.length]; lia|].
  specialize (IH (n / 10) (String (golang.digitChar (n mod 10)) acc)).
  cbn [String.length] in IH. destruct fuel; lia.
Qed.

Lemma utoa_go_noDot (fuel : nat) (n : Z) (acc : string) :
  noDot acc = true -> noDot (golang.utoa_go fuel n acc) = true.
Proof.
  revert n acc. induction fuel as [|fuel IH]; intros n acc Hacc; [exact Hacc|].
  rewrite utoa_go_step.
  assert (Hd : noDot (String (golang.digitChar (n mod 10)) acc) = true).
  { cbn [noDot]. rewrite digitChar_noDot, Hacc; [reflexivity|].
    apply Z.mod_pos_bound. lia. }
  destruct (n <? 10); [exact Hd | now apply IH].
Qed.

(** Different numbers have different numerals. *)
Lemma utoa_go_inj (fuel : nat) (n m : Z) (acc1 acc2 : string) :
  0 <= n < 10 ^ Z.of_nat fuel -> 0 <= m < 10 ^ Z.of_nat fuel ->
  String.length acc1 = String.length acc2 ->
  golang.utoa_go fuel n acc1 = golang.utoa_go fuel m acc2 ->
  n = m /\ acc1 = acc2.
Proof.
  revert n m acc1 acc2. induction fuel as [|fuel IH]; intros n m acc1 acc2 Hn Hm Hl H.
  - cbn in *. split; [lia | exact H].
  - rewrite Nat2Z.inj_succ, Z.pow_succ_r in Hn, Hm by lia.
    rewrite !utoa_go_step in H.
    pose proof (Z.mod_pos_bound n 10 ltac:(lia)) as Hdn.
    pose proof (Z.mod_pos_bound m 10 ltac:(lia)) as Hdm.
    pose proof (Z.div_mod n 10 ltac:(lia)) as Hn10.
    pose proof (Z.div_mod m 10 ltac:(lia)) as Hm10.
    destruct (Z.ltb_spec n 10) as [Hn1|Hn1]; destruct (Z.ltb_spec m 10) as [Hm1|Hm1].
    + injection H as Hd Ha. apply digitChar_inj in Hd; [|lia|lia].
      rewrite !Z.mod_small in Hd by lia. now split.
    + exfalso. apply (f_equal String.length) in H.
      pose proof (utoa_go_length fuel (m / 10)
                    (String (golang.digitChar (m mod 10)) acc2)) as Hlen.
      cbn [String.length] in H, Hlen.
      destruct fuel as [|fuel]; [cbn in Hm; lia|]. lia.
    + exfalso. apply (f_equal String.length) in H.
      pose proof (utoa_go_length fuel (n / 10)
                    (String (golang.digitChar (n mod 10)) acc1)) as Hlen.
      cbn [String.length] in H, Hlen.
      destruct fuel as [|fuel]; [cbn in Hn; lia|]. lia.
    + apply IH in H.
      * destruct H as [Hq Ha]. injection Ha as Hd Ha.
        apply digitChar_inj in Hd; [|lia|lia]. split; [lia | exact Ha].
      * split; [apply Z.div_pos; lia | apply Z.div_lt_upper_bound; lia].
      * split; [apply Z.div_pos; lia | apply Z.div_lt_upper_bound; lia].
      * cbn [String.length]. now f_equal.
Qed.

Lemma itoa_noDot (z : Z) : noDot (golang.itoa z) = true.
Proof.
  unfold golang.itoa, golang.utoa. destruct (z <? 0).
  - change ("-" +:+ golang.utoa_go 20 (- z) "")
      with (String "-" (golang.utoa_go 20 (- z) "")).
    cbn [noDot]. now rewrite utoa_go_noDot.
  - now apply utoa_go_noDot.
Qed.

Lemma itoa_inj (n m : Z) : isInt n -> isInt m -> golang.itoa n = golang.itoa m -> n = m.
Proof.
  unfold isInt, golang.MaxInt64, golang.itoa, golang.utoa. intros Hn Hm H.
  assert (Hr : 2 ^ 63 < 10 ^ Z.of_nat 20) by (vm_compute; reflexivity).
  destruct (Z.ltb_spec n 0) as [Hn0|Hn0]; destruct (Z.ltb_spec m 0) as [Hm0|Hm0].
  - apply append_cancel_l in H. apply utoa_go_inj in H; [lia|lia|lia|reflexivity].
  - exfalso. destruct (utoa_go_digit 19 m "") as (c & s & Hc & Hd).
    rewrite Hc in H. change ("-" +:+ ?x) with (String "-" x) in H.
    injection H as <- _. discriminate Hd.
  - exfalso. destruct (utoa_go_digit 19 n "") as (c & s & Hc & Hd).
    rewrite Hc in H. change ("-" +:+ ?x) with (String "-" x) in H.
    injection H as -> _. discriminate Hd.
  - apply utoa_go_inj in H; [lia|lia|lia|reflexivity].
Qed.

Lemma noDot_append_dot (a b : string) : noDot (a +:+ String "." b) = false.
Proof.
  induction a as [|x a IH]; [reflexivity|].
  change (noDot (String x (a +:+ String "." b)) = false).
  cbn [noDot]. rewrite IH. apply andb_false_r.
Qed.

(** The last full stop of a text splits it in one way only. *)
Lemma split_at_last_dot (a b x y : string) :
  noDot x = true -> noDot y = true ->
  a +:+ String "." x = b +:+ String "." y -> a = b /\ x = y.
Proof.
  intros Hx Hy. revert b. induction a as [|c a IH]; intros [|c' b] H.
  - injection H as H. now split.
  - change (String "." x = String c' (b +:+ String "." y)) in H.
    injection H as _ H. rewrite H, noDot_append_dot in Hx. discriminate.
  - change (String c (a +:+ String "." x) = String "." y) in H.
    injection H as _ H. rewrite <- H, noDot_append_dot in Hy. discriminate.
  - change (String c (a +:+ String "." x) = String c' (b +:+ String "." y)) in H.
    injection H as -> H. destruct (IH b H) as [-> ->]. now split.
Qed.

(** X7. Two status files have the same name only if they belong to the same
    extension name and the same sequence number: no configuration of a
    multiconfig extension, and no sequence number, overwrites the status of
    another. *)
Theorem statusFileName_injective (extName1 extName2 : string) (seqNo1 seqNo2 : Z) :
  isInt seqNo1 -> isInt seqNo2 ->
  statusFileName extName1 seqNo1 = statusFileName extName2 seqNo2 ->
  extName1 = extName2 /\ seqNo1 = seqNo2.
Proof.
  intros H1 H2. unfold statusFileName.
  pose proof (itoa_noDot seqNo1) as Hd1. pose proof (itoa_noDot seqNo2) as Hd2.
  destruct (String.eqb_spec extName1 "") as [->|Hne1];
    destruct (String.eqb_spec extName2 "") as [->|Hne2]; cbn [negb]; intros H.
  - apply append_cancel_r in H. split; [reflexivity | now apply itoa_inj].
  - exfalso. rewrite <- !append_assoc3 in H. apply append_cancel_r in H.
    change (extName2 +:+ "." +:+ golang.itoa seqNo2)
      with (extName2 +:+ String "." (golang.itoa seqNo2)) in H.
    rewrite append_assoc3 in H.
    change ("." +:+ golang.itoa seqNo2) with (String "." (golang.itoa seqNo2)) in H.
    rewrite H, noDot_append_dot in Hd1. discriminate.
  - exfalso. rewrite <- !append_assoc3 in H. apply append_cancel_r in H.
    rewrite append_assoc3 in H.
    change ("." +:+ golang.itoa seqNo1) with (String "." (golang.itoa seqNo1)) in H.
    rewrite <- H, noDot_append_dot in Hd2. discriminate.
  - rewrite <- !append_assoc3 in H. apply append_cancel_r in H.
    rewrite !append_assoc3 in H.
    change ("." +:+ golang.itoa seqNo1) with (String "." (golang.itoa seqNo1)) in H.
    change ("." +:+ golang.itoa seqNo2) with (String "." (golang.itoa seqNo2)) in H.
    apply split_at_last_dot in H; [|assumption|assumption].
    destruct H as [-> H]. split; [reflexivity | now apply itoa_inj].
Qed.

Lemma statusFileName_injective_witness :
  statusFileName "ext" 7 = statusFileName "ext" 7 /\ ("ext" = "ext" /\ 7 = 7).
Proof.
  split; [reflexivity|].
  apply (statusFileName_injective "ext" "ext" 7 7).
  - unfold isInt, golang.MaxInt64. lia.
  - unfold isInt, golang.MaxInt64. lia.
  - reflexivity.
Defined.

Lemma hasSeparator_append_l (a b : string) :
  hasSeparator a = true -> hasSeparator (a +:+ b) = true.
Proof. intros H. now rewrite hasSeparator_append, H. Qed.

(** X8. An extension name that contains a path separator is refused: the
    temporary file cannot be created from the file name, [saveStatusReport]
    returns that error, and no file is created, written or renamed. *)
Theorem saveStatusReport_rejects_separator (directory : string -> string) (h : host)
    (statusFolder extName : string)
    (seqNo : Z) (rootStatusJson : string) (fs : gmap location string) :
  hasSeparator extName = true ->
  let fn := statusFileName extName seqNo in
  let o := saveStatusReport directory h statusFolder extName seqNo rootStatusJson fs in
  saveErr o = Some ("status: failed to create temporary file: createtemp " +:+ fn
                    +:+ ": pattern contains path separator")
  /\ filesAfter o = fs
  /\ snapshots o = [fs]
  /\ fileCalls o = [CallCreateTemp statusFolder fn None].
Proof.
  intros Hsep. cbv zeta.
  assert (Hfn : hasSeparator (statusFileName extName seqNo) = true).
  { unfold statusFileName. destruct (String.eqb_spec extName "") as [->|_];
      [discriminate|]. cbn [negb]. now apply hasSeparator_append_l. }
  unfold saveStatusReport, CreateTemp, prefixAndSuffix. rewrite Hfn.
  cbn [saveErr filesAfter snapshots fileCalls]. repeat split.
Qed.

Lemma saveStatusReport_rejects_separator_witness :
  let h := mkHost "" (fun _ => 7) None None None in
  let o := saveStatusReport Clean h "/var/lib/waagent/status" "../ext" 7 "{}" ∅ in
  saveErr o = Some "status: failed to create temporary file: createtemp ../ext.7.status: pattern contains path separator"
  /\ filesAfter o = ∅.
Proof.
  cbv zeta.
  pose proof (saveStatusReport_rejects_separator Clean
                (mkHost "" (fun _ => 7) None None None)
                "/var/lib/waagent/status" "../ext" 7 "{}" ∅ eq_refl) as H.
  cbv zeta in H. destruct H as (He & Hf & _). split; [exact He | exact Hf].
Defined.




(** X10. The last writer wins.  Two successful runs of [saveStatusReport] for
    the same folder, extension name and sequence number leave the second
    document at the final path and nothing else: compared with the files
    before the first run only the final path differs, and no temporary file
    of either run remains. *)
Theorem saveStatusReport_last_writer_wins (directory : string -> string) (h1 h2 : host)
    (statusFolder extName : string) (seqNo : Z) (doc1 doc2 : string)
    (fs : gmap location string) :
  let final := locate directory
                 (filepath_Join statusFolder (statusFileName extName seqNo)) in
  let o1 := saveStatusReport directory h1 statusFolder extName seqNo doc1 fs in
  let o2 := saveStatusReport directory h2 statusFolder extName seqNo doc2 (filesAfter o1) in
  saveErr o1 = None -> saveErr o2 = None ->
  filesAfter o2 = <[final := doc2]> fs.
Proof.
  cbv zeta. intros H1 H2.
  destruct (saveStatusReport_run directory h1 statusFolder extName seqNo doc1 fs)
    as (_ & Hok1 & _).
  destruct (Hok1 H1) as [Hfs1 _].
  destruct (saveStatusReport_run directory h2 statusFolder extName seqNo doc2
              (filesAfter (saveStatusReport directory h1 statusFolder extName seqNo
                             doc1 fs)))
    as (_ & Hok2 & _).
  destruct (Hok2 H2) as [Hfs2 _].
  rewrite Hfs2, Hfs1. apply insert_insert_eq.
Qed.

Lemma saveStatusReport_last_writer_wins_witness :
  let h := mkHost "" (fun _ => 7) None None None in
  let o1 := saveStatusReport Clean h "/var/lib/waagent/status" "" 7 "{1}" ∅ in
  let o2 := saveStatusReport Clean h "/var/lib/waagent/status" "" 7 "{2}" (filesAfter o1) in
  filesAfter o2 = <[("/var/lib/waagent/status", "7.status") := "{2}"]> ∅.
Proof.
  cbv zeta.
  apply (saveStatusReport_last_writer_wins Clean (mkHost "" (fun _ => 7) None None None)
           (mkHost "" (fun _ => 7) None None None)
           "/var/lib/waagent/status" "" 7 "{1}" "{2}" ∅).
  - vm_compute. reflexivity.
  - vm_compute. reflexivity.
Defined.

(** X21. The status file is never seen half written.  Whatever the status
    folder, whatever fails, and at every moment of a run of
    [saveStatusReport], the final path holds either what it held before or
    the complete document.  After a run without error it holds the document,
    the temporary file is gone and no other file has changed; after a run
    with an error it holds what it held before. *)
Theorem saveStatusReport_never_partial (directory : string -> string) (h : host)
    (statusFolder extName : string) (seqNo : Z) (rootStatusJson : string)
    (fs : gmap location string) :
  let final := locate directory
                 (filepath_Join statusFolder (statusFileName extName seqNo)) in
  let o := saveStatusReport directory h statusFolder extName seqNo rootStatusJson fs in
  In fs (snapshots o) /\ In (filesAfter o) (snapshots o)
  /\ (forall s, In s (snapshots o) ->
        s !! final = fs !! final \/ s !! final = Some rootStatusJson)
  /\ (saveErr o = None -> filesAfter o = <[final := rootStatusJson]> fs)
  /\ (saveErr o <> None -> filesAfter o !! final = fs !! final).
Proof.
  cbv zeta.
  destruct (saveStatusReport_run directory h statusFolder extName seqNo rootStatusJson fs)
    as (Hsnap & Hok & Hfail & _).
  split; [|split; [|split; [exact Hsnap|split; [|exact Hfail]]]].
  - unfold saveStatusReport.
    destruct (CreateTemp directory h statusFolder _ fs) as [[tmp|e] fs1]; [|now left].
    destruct (WriteFile directory h tmp rootStatusJson fs1) as [[[e|] fs2] during];
      [now left|].
    destruct (Rename directory h tmp _ fs2) as [[e|] fs3]; now left.
  - unfold saveStatusReport.
    pose proof (CreateTemp_spec directory h statusFolder
                  (statusFileName extName seqNo) fs) as Hc.
    destruct (CreateTemp directory h statusFolder _ fs) as [[tmp|e] fs1];
      [|left; now symmetry].
    destruct (WriteFile directory h tmp rootStatusJson fs1) as [[[e|] fs2] during].
    + cbn [snapshots filesAfter]. right. right. apply in_or_app. right. now left.
    + destruct (Rename directory h tmp _ fs2) as [[e|] fs3];
        cbn [snapshots filesAfter]; right; right; apply in_or_app; right; right; now left.
  - intros Hn. now destruct (Hok Hn).
Qed.

(* ===================================================================== *)
(** * Properties of the steps of enable                                     *)
(* ===================================================================== *)

Import lifecycle.

(** X11. A configuration is let through only once.  When [enablePre] lets a
    sequence number through, it has saved it and has not called the cleanup
    function; a later [enablePre] with that sequence number or a smaller one
    returns the error that the configuration has already been processed,
    calls the cleanup function once, with an empty run-as user, and leaves
    the marker as it was. *)
Theorem enablePre_refuses_rerun {World : Type} (Cleanup : string -> World -> World)
    (SeqNum SeqNum' : Z) (MostRecentSequence : string) (fs : gmap string Z)
    (w w' : World) :
  SeqNum' <= SeqNum ->
  let o1 := enablePre Cleanup SeqNum MostRecentSequence fs w in
  preErr o1 = None ->
  let o2 := enablePre Cleanup SeqNum' MostRecentSequence (preMarkers o1) w' in
  preMarkers o1 !! MostRecentSequence = Some SeqNum
  /\ preCleanups o1 = [] /\ preWorld o1 = w
  /\ preErr o2
     = Some "the script configuration has already been processed, will not run again"
  /\ preMarkers o2 = preMarkers o1
  /\ preCleanups o2 = [""] /\ preWorld o2 = Cleanup "" w'.
Proof.
  intros Hle. cbv zeta. unfold enablePre at 1 2 3 4.
  assert (Hsaved : preErr (enablePre Cleanup SeqNum MostRecentSequence fs w) = None ->
            checkAndSaveSeqNum SeqNum MostRecentSequence fs
            = mkSeqOutcome false None (<[MostRecentSequence := SeqNum]> fs)
                [["event"; "comparing seqnum"; "path"; MostRecentSequence];
                 ["event"; "seqnum saved"; "path"; MostRecentSequence]]).
  { unfold enablePre. destruct (fs !! MostRecentSequence) as [stored|] eqn:E.
    - destruct (Z.lt_ge_cases stored SeqNum) as [Hlt|Hge].
      + now rewrite (checkAndSaveSeqNum_fresh _ _ _ _ E Hlt).
      + rewrite (checkAndSaveSeqNum_stale _ _ _ _ E Hge). discriminate.
    - now rewrite (checkAndSaveSeqNum_absent _ _ _ E). }
  intros Hok. specialize (Hsaved Hok).
  unfold enablePre. rewrite Hsaved. cbn [seqErr shouldExit markersAfter preMarkers
    preCleanups preWorld preErr].
  rewrite (checkAndSaveSeqNum_stale (<[MostRecentSequence := SeqNum]> fs)
             MostRecentSequence SeqNum' SeqNum (lookup_insert_eq _ _ _) Hle).
  cbn [seqErr shouldExit markersAfter preMarkers preCleanups preWorld preErr].
  repeat split. apply lookup_insert_eq.
Qed.

Lemma enablePre_refuses_rerun_witness :
  let once (user : string) (w : nat) := S w in
  let o1 := enablePre once 4 "mrseq" {[ "mrseq" := 3 ]} 0%nat in
  let o2 := enablePre once 4 "mrseq" (preMarkers o1) 0%nat in
  preErr o1 = None
  /\ preErr o2
     = Some "the script configuration has already been processed, will not run again"
  /\ preWorld o2 = 1%nat.
Proof.
  cbv zeta.
  pose proof (enablePre_refuses_rerun (fun (_ : string) (w : nat) => S w) 4 4 "mrseq"
                {[ "mrseq" := 3 ]} 0%nat 0%nat) as H.
  cbv zeta in H.
  assert (Hok : preErr (enablePre (fun (_ : string) (w : nat) => S w) 4 "mrseq"
                          {[ "mrseq" := 3 ]} 0%nat) = None).
  { unfold enablePre.
    rewrite (checkAndSaveSeqNum_fresh {[ "mrseq" := 3 ]} "mrseq" 4 3
               (lookup_singleton_eq "mrseq" 3)); [reflexivity | lia]. }
  destruct (H ltac:(lia) Hok) as (_ & _ & _ & He & _ & _ & Hw).
  split; [exact Hok|]. split; [exact He | exact Hw].
Defined.

Section StepFacts.

Context {Cfg Artifact World : Type}.
Variable ArtifactUri : Artifact -> string.
Variable files_DownloadAndProcessArtifact :
  string -> Artifact -> World -> (string * option string) * World.

Lemma allFetched_tail (dir : string) (b : Artifact) (before : list Artifact) (w : World) :
  allFetched files_DownloadAndProcessArtifact dir (b :: before) w ->
  snd (fst (files_DownloadAndProcessArtifact dir b w)) = None
  /\ allFetched files_DownloadAndProcessArtifact dir before (snd (files_DownloadAndProcessArtifact dir b w)).
Proof.
  intros Hok. split; [exact (Hok [] b before eq_refl)|].
  intros b1 b' b2 ->. exact (Hok (b :: b1) b' b2 eq_refl).
Qed.

Lemma artifactsLoop_fails (dir : string) (before : list Artifact) (a : Artifact)
    (rest : list Artifact) (e : string) (w : World) :
  allFetched files_DownloadAndProcessArtifact dir before w ->
  snd (fst (files_DownloadAndProcessArtifact dir a
              (fetchedAll files_DownloadAndProcessArtifact dir before w))) = Some e ->
  let o := artifactsLoop ArtifactUri files_DownloadAndProcessArtifact dir
             (before ++ a :: rest) w in
  fetchErr o = Some (errors.Wrap e ("failed to download artifact " +:+ ArtifactUri a))
  /\ fetchCalls o = map (DownloadAndProcessArtifact dir) (before ++ [a])
  /\ fetchWorld o = snd (files_DownloadAndProcessArtifact dir a
                           (fetchedAll files_DownloadAndProcessArtifact dir before w)).
Proof.
  cbv zeta. revert w. induction before as [|b before IH]; intros w Hok Hfail;
    cbn [app artifactsLoop].
  - cbn [fetchedAll fold_left] in Hfail |- *.
    destruct (files_DownloadAndProcessArtifact dir a w) as [[filePath err] w1].
    cbn [fst snd] in *. subst err. now cbn.
  - destruct (allFetched_tail dir b before w Hok) as [Hb Hrest].
    cbn [fetchedAll fold_left] in Hfail |- *.
    fold (fetchedAll files_DownloadAndProcessArtifact dir before
            (snd (files_DownloadAndProcessArtifact dir b w))) in Hfail |- *.
    destruct (files_DownloadAndProcessArtifact dir b w) as [[filePath err] w1].
    cbn [fst snd] in *. subst err.
    destruct (IH w1 Hrest Hfail) as (He & Hc & Hw).
    cbn [fetchErr fetchCalls fetchWorld map]. rewrite He, Hc, Hw. now repeat split.
Qed.

Lemma artifactsLoop_succeeds (dir : string) (artifacts : list Artifact) (w : World) :
  allFetched files_DownloadAndProcessArtifact dir artifacts w ->
  let o := artifactsLoop ArtifactUri files_DownloadAndProcessArtifact dir artifacts w in
  fetchErr o = None
  /\ fetchCalls o = map (DownloadAndProcessArtifact dir) artifacts
  /\ fetchWorld o = fetchedAll files_DownloadAndProcessArtifact dir artifacts w.
Proof.
  cbv zeta. revert w. induction artifacts as [|b artifacts IH]; intros w Hok;
    cbn [artifactsLoop]; [now cbn|].
  destruct (allFetched_tail dir b artifacts w Hok) as [Hb Hrest].
  cbn [fetchedAll fold_left].
  fold (fetchedAll files_DownloadAndProcessArtifact dir artifacts
          (snd (files_DownloadAndProcessArtifact dir b w))).
  destruct (files_DownloadAndProcessArtifact dir b w) as [[filePath err] w1].
  cbn [fst snd] in *. subst err.
  destruct (IH w1 Hrest) as (He & Hc & Hw).
  cbn [fetchErr fetchCalls fetchWorld map]. rewrite He, Hc, Hw. now repeat split.
Qed.

End StepFacts.

(** X12. [downloadArtifacts] fetches the artifacts in the order of the list,
    each in the world the fetch before left, and stops at the first one
    [files.DownloadAndProcessArtifact] answers with an error.  When the
    artifacts before [a] are fetched without error and the fetch of [a] is
    answered with the error [e], the artifacts asked for are those up to [a]
    and no other, the error returned is [e] wrapped with the URI of [a], and
    the world is the one that answer left.  When every fetch is answered
    without error, all artifacts were asked for, in order, and no error is
    returned.  When the artifact list cannot be read, that error is returned
    and nothing is fetched; nothing is fetched for a nil list either. *)
Theorem downloadArtifacts_stops_at_first_failure {Cfg Artifact World : Type}
    (ReadArtifacts : Cfg -> option (list Artifact) * option string)
    (ArtifactUri : Artifact -> string)
    (files_DownloadAndProcessArtifact :
       string -> Artifact -> World -> (string * option string) * World)
    (dir : string) (cfg : Cfg) (w : World) :
  let o := downloadArtifacts ReadArtifacts ArtifactUri files_DownloadAndProcessArtifact
             dir cfg w in
  let answer := files_DownloadAndProcessArtifact dir in
  let after := fetchedAll files_DownloadAndProcessArtifact dir in
  (forall l e, ReadArtifacts cfg = (l, Some e) ->
     fetchErr o = Some e /\ fetchCalls o = [] /\ fetchWorld o = w)
  /\ (ReadArtifacts cfg = (None, None) ->
     fetchErr o = None /\ fetchCalls o = [] /\ fetchWorld o = w)
  /\ (forall before a rest e,
        ReadArtifacts cfg = (Some (before ++ a :: rest), None) ->
        allFetched files_DownloadAndProcessArtifact dir before w ->
        snd (fst (answer a (after before w))) = Some e ->
        fetchErr o = Some (errors.Wrap e ("failed to download artifact " +:+ ArtifactUri a))
        /\ fetchCalls o = map (DownloadAndProcessArtifact dir) (before ++ [a])
        /\ fetchWorld o = snd (answer a (after before w)))
  /\ (forall artifacts,
        ReadArtifacts cfg = (Some artifacts, None) ->
        allFetched files_DownloadAndProcessArtifact dir artifacts w ->
        fetchErr o = None
        /\ fetchCalls o = map (DownloadAndProcessArtifact dir) artifacts
        /\ fetchWorld o = after artifacts w).
Proof.
  cbv zeta. unfold downloadArtifacts.
  split; [intros l e ->; now destruct l|].
  split; [intros ->; now repeat split|].
  split.
  - intros before a rest e -> Hok Hfail.
    now apply artifactsLoop_fails.
  - intros artifacts -> Hok. now apply artifactsLoop_succeeds.
Qed.

(** X13. What [runCmd] does with the answers it gets.  An inline script
    takes precedence over a downloaded one and is saved as [script.sh] in
    the download directory.  When [files.SaveScriptFile] answers with an
    error, that error is returned, wrapped, with the code
    [ExitCode_SaveScriptFailed], and nothing is killed or run.  Otherwise the
    previous process is killed, the pid file written, the script run once,
    the runner's success or failure sent to telemetry and the pid file
    removed, in this order, each in the world the call before left.  When the
    runner answers with an error, that error is returned, wrapped, with the
    number the runner handed back; when it answers without one, the code is
    [ExitCode_Okay], whatever number came with it.  The pid file is removed
    whenever it was written. *)
Theorem runCmd_pid_file_paired {Cfg World : Type}
    (codeOf : ExitCode -> Z)
    (Script ScriptURI : Cfg -> string)
    (filepath_Join : list string -> string)
    (files_SaveScriptFile : string -> string -> World -> option string * World)
    (pid_KillPreviousExtension pid_SaveCurrentPidAndStartTime
       pid_DeleteCurrentPidAndStartTime : string -> World -> World)
    (exec_ExecCmdInDir : string -> string -> Cfg -> World -> (option string * Z) * World)
    (telemetryResult : string -> string -> bool -> World -> World)
    (dir scriptFilePath : string) (cfg : Cfg) (PidFilePath : string) (w : World) :
  let o := runCmd codeOf Script ScriptURI filepath_Join files_SaveScriptFile
             pid_KillPreviousExtension pid_SaveCurrentPidAndStartTime
             pid_DeleteCurrentPidAndStartTime exec_ExecCmdInDir telemetryResult
             dir scriptFilePath cfg PidFilePath w in
  let inline := negb (String.eqb (Script cfg) "") in
  let run := if inline then filepath_Join [dir; "script.sh"] else scriptFilePath in
  let scenario :=
    if inline then "embedded-script"
    else if negb (String.eqb (ScriptURI cfg) "") then "public-scriptUri" else "" in
  let saving := if inline then [SaveScriptFile run (Script cfg)] else [] in
  let saved := if inline then files_SaveScriptFile run (Script cfg) w else (None, w) in
  let ran :=
    exec_ExecCmdInDir run dir cfg
      (pid_SaveCurrentPidAndStartTime PidFilePath
         (pid_KillPreviousExtension PidFilePath (snd saved))) in
  let succeeded := isNil (fst (fst ran)) in
  countCalls isSavePid (runCalls o) = countCalls isDeletePid (runCalls o)
  /\ (forall e, fst saved = Some e ->
        runErr o = Some (errors.Wrap e "failed to save script to file")
        /\ runExit o = codeOf ExitCode_SaveScriptFailed
        /\ runCalls o = saving
        /\ runWorld o = snd saved)
  /\ (fst saved = None ->
        runCalls o = saving ++ [KillPreviousExtension PidFilePath;
                                SaveCurrentPidAndStartTime PidFilePath;
                                ExecCmdInDir run dir;
                                TelemetryResult "scenario" scenario succeeded;
                                DeleteCurrentPidAndStartTime PidFilePath]
        /\ runWorld o = pid_DeleteCurrentPidAndStartTime PidFilePath
                          (telemetryResult "scenario" scenario succeeded (snd ran))
        /\ (forall e, fst (fst ran) = Some e ->
              runErr o = Some (errors.Wrap e "failed to execute command")
              /\ runExit o = snd (fst ran))
        /\ (fst (fst ran) = None ->
              runErr o = None /\ runExit o = codeOf ExitCode_Okay)).
Proof.
  cbv zeta. unfold runCmd.
  destruct (negb (String.eqb (Script cfg) "")).
  - destruct (files_SaveScriptFile (filepath_Join [dir; "script.sh"]) (Script cfg) w)
      as [[e|] w1]; cbn [fst snd].
    + cbn. split; [reflexivity|]. split; [|discriminate].
      intros e' He. injection He as <-. now repeat split.
    + destruct (exec_ExecCmdInDir _ dir cfg _) as [[[e|] code] w2]; cbn [fst snd isNil];
        (split; [reflexivity|]); (split; [discriminate|]); intros _;
        cbn [runCalls runWorld runErr runExit app];
        (split; [reflexivity|]); (split; [reflexivity|]); split;
        try discriminate; try (intros e' He; injection He as <-); now split.
  - cbn [fst snd].
    destruct (negb (String.eqb (ScriptURI cfg) ""));
      destruct (exec_ExecCmdInDir _ dir cfg _) as [[[e|] code] w2]; cbn [fst snd isNil];
      (split; [reflexivity|]); (split; [discriminate|]); intros _;
      cbn [runCalls runWorld runErr runExit app];
      (split; [reflexivity|]); (split; [reflexivity|]); split;
      try discriminate; try (intros e' He; injection He as <-); now split.
Qed.

Section StreamFacts.

Context {BlobRef Client World : Type}.
Variable RefAppend : BlobRef -> list Byte.byte -> World -> option string * World.
Variable ClientAppend : Client -> list Byte.byte -> World -> option string * World.

(** One call on a file that is there: nothing is unread, or all that is
    unread is handed over and the service's answer decides where the cursor
    goes. *)
Lemma appendToBlob_round (fs : gmap string (list Byte.byte)) (sourceFilePath : string)
    (appendBlobRef : option BlobRef) (appendBlobClient : option Client)
    (pos : Z) (w : World) (content : list Byte.byte) :
  (appendBlobRef <> None \/ appendBlobClient <> None) ->
  fs !! sourceFilePath = Some content ->
  Z.of_nat (length content) <= golang.MaxInt64 ->
  0 <= pos <= Z.of_nat (length content) ->
  let o := appendToBlob RefAppend ClientAppend fs sourceFilePath
             appendBlobRef appendBlobClient pos w in
  let unread := drop (Z.to_nat pos) content in
  let answer := handOver RefAppend ClientAppend appendBlobRef appendBlobClient unread w in
  fst (GetFileFromPosition fs sourceFilePath pos) = unread
  /\ ((unread = [] /\ pos = Z.of_nat (length content)
       /\ position o = pos /\ sinkWorld o = w)
      \/ (unread <> [] /\ fst answer = None
          /\ position o = Z.of_nat (length content) /\ sinkWorld o = snd answer)
      \/ (unread <> [] /\ fst answer <> None
          /\ position o = pos /\ sinkWorld o = snd answer)).
Proof.
  intros Hsink Hfile Hmax Hpos. cbv zeta. unfold appendToBlob, handOver.
  assert (Hcfg : negb (isNil appendBlobRef) || negb (isNil appendBlobClient) = true).
  { destruct appendBlobRef, appendBlobClient; try reflexivity. destruct Hsink; congruence. }
  rewrite Hcfg. clear Hcfg.
  unfold GetFileFromPosition. rewrite Hfile.
  destruct (Z.ltb_spec pos 0) as [|_]; [lia|]. cbn [fst].
  split; [reflexivity|].
  pose proof (length_drop content (Z.to_nat pos)) as Hlen.
  set (unread := drop (Z.to_nat pos) content) in *.
  destruct (Z.ltb_spec 0 (Z.of_nat (length unread))) as [Hnew|Hnone].
  2:{ left. cbn [position sinkWorld].
      split; [destruct unread; [reflexivity | cbn in Hnone; lia]|].
      split; [lia|]. now split. }
  right.
  assert (Hne : unread <> []) by (intros Heq; rewrite Heq in Hnew; cbn in Hnew; lia).
  assert (Hw : golang.wrap64 (pos + Z.of_nat (length unread)) = Z.of_nat (length content)).
  { rewrite wrap64_in_range; unfold golang.MaxInt64 in *; lia. }
  destruct appendBlobRef as [ref|]; [|destruct appendBlobClient as [client|]].
  - destruct (RefAppend ref unread w) as [[e|] w']; [right|left];
      cbn [position sinkWorld fst snd]; repeat split; auto; discriminate.
  - destruct (ClientAppend client unread w) as [[e|] w']; [right|left];
      cbn [position sinkWorld fst snd]; repeat split; auto; discriminate.
  - destruct Hsink; congruence.
Qed.

Variable blob : World -> list Byte.byte.
Hypothesis RefAppend_appends : appendsTo blob RefAppend.
Hypothesis ClientAppend_appends : appendsTo blob ClientAppend.

Lemma handOver_appends (appendBlobRef : option BlobRef) (appendBlobClient : option Client)
    (chunk : list Byte.byte) (w : World) :
  (appendBlobRef <> None \/ appendBlobClient <> None) ->
  let answer := handOver RefAppend ClientAppend appendBlobRef appendBlobClient chunk w in
  blob (snd answer) = if isNil (fst answer) then blob w ++ chunk else blob w.
Proof.
  intros Hsink. cbv zeta. unfold handOver.
  destruct appendBlobRef as [ref|]; [apply RefAppend_appends|].
  destruct appendBlobClient as [client|]; [apply ClientAppend_appends|].
  destruct Hsink; congruence.
Qed.

Lemma stream_invariant (views : list (gmap string (list Byte.byte)))
    (sourceFilePath : string)
    (appendBlobRef : option BlobRef) (appendBlobClient : option Client)
    (before : list Byte.byte) (pos : Z) (w : World) (base : list Byte.byte) :
  (appendBlobRef <> None \/ appendBlobClient <> None) ->
  grows sourceFilePath before views ->
  0 <= pos <= Z.of_nat (length before) ->
  blob w = base ++ take (Z.to_nat pos) before ->
  let rs := stream RefAppend ClientAppend views sourceFilePath
              appendBlobRef appendBlobClient pos w in
  let p := cursorAfter pos rs in
  let c := lastContent sourceFilePath before views in
  pos <= p <= Z.of_nat (length c)
  /\ blob (worldAfter w rs) = base ++ take (Z.to_nat p) c
  /\ (forall views0 fs, views = views0 ++ [fs] ->
        let rs0 := stream RefAppend ClientAppend views0 sourceFilePath
                     appendBlobRef appendBlobClient pos w in
        let unread := fst (GetFileFromPosition fs sourceFilePath (cursorAfter pos rs0)) in
        unread = []
        \/ fst (handOver RefAppend ClientAppend appendBlobRef appendBlobClient unread
                  (worldAfter w rs0)) = None ->
        p = Z.of_nat (length c)).
Proof.
  intros Hsink. cbv zeta. revert before pos w.
  induction views as [|fs views IH]; intros before pos w Hgrow Hpos Hblob.
  - cbn. split; [lia|]. split; [exact Hblob|].
    intros views0 fs Heq. now destruct views0.
  - cbn [grows] in Hgrow. destruct Hgrow as (more & Hfile & Hmax & Hgrow).
    cbn [stream lastContent]. rewrite Hfile.
    change (default before (Some (before ++ more))) with (before ++ more).
    set (c1 := before ++ more) in *.
    assert (Hpos1 : 0 <= pos <= Z.of_nat (length c1)).
    { subst c1. rewrite length_app. lia. }
    assert (Htake : take (Z.to_nat pos) before = take (Z.to_nat pos) c1).
    { subst c1. symmetry. apply take_app_le. lia. }
    pose proof (appendToBlob_round fs sourceFilePath appendBlobRef appendBlobClient
                  pos w c1 Hsink Hfile Hmax Hpos1) as Hround.
    pose proof (handOver_appends appendBlobRef appendBlobClient
                  (drop (Z.to_nat pos) c1) w Hsink) as Hsent.
    cbv zeta in Hround, Hsent.
    set (o := appendToBlob RefAppend ClientAppend fs sourceFilePath
                appendBlobRef appendBlobClient pos w) in *.
    change (cursorAfter pos (o :: ?rs)) with (cursorAfter (position o) rs).
    change (worldAfter w (o :: ?rs)) with (worldAfter (sinkWorld o) rs).
    destruct Hround as (Hread & Hround).
    assert (Hnext : exists pos1,
              position o = pos1 /\ pos <= pos1 <= Z.of_nat (length c1)
              /\ blob (sinkWorld o) = base ++ take (Z.to_nat pos1) c1
              /\ (fst (GetFileFromPosition fs sourceFilePath pos) = []
                  \/ fst (handOver RefAppend ClientAppend appendBlobRef appendBlobClient
                            (fst (GetFileFromPosition fs sourceFilePath pos)) w) = None ->
                  pos1 = Z.of_nat (length c1))).
    { rewrite Hread.
      destruct Hround as [(Hnil & Hend & Hp & Hw)|[(Hne & Ha & Hp & Hw)|(Hne & Ha & Hp & Hw)]].
      - exists pos. rewrite Hw, Hblob, Htake. repeat split; auto; lia.
      - exists (Z.of_nat (length c1)). rewrite Hw, Hsent, Ha, Hblob. cbn [isNil].
        split; [exact Hp|]. split; [lia|]. split; [|reflexivity].
        rewrite Htake, <- app_assoc, take_drop, Nat2Z.id. now rewrite firstn_all.
      - exists pos. rewrite Hw, Hsent.
        destruct (fst (handOver _ _ _ _ _ _)) as [e|]; [|congruence]. cbn [isNil].
        rewrite Hblob, Htake. split; [exact Hp|]. split; [lia|]. split; [reflexivity|].
        intros [H|H]; [contradiction | discriminate H]. }
    destruct Hnext as (pos1 & Hp & Hr1 & Hb1 & Hlast1). rewrite Hp.
    assert (Hrest : 0 <= pos1 <= Z.of_nat (length c1)) by lia.
    destruct (IH c1 pos1 (sinkWorld o) Hgrow Hrest Hb1) as (Hr & Hb & Hlast).
    split; [lia|]. split; [exact Hb|].
    intros views0 fs' Heq. destruct views0 as [|fs0 views0]; cbn [app] in Heq.
    + injection Heq as <- ->. cbn [stream cursorAfter worldAfter fold_left lastContent].
      exact Hlast1.
    + injection Heq as <- ->. cbn [stream]. fold o.
      change (cursorAfter pos (o :: ?rs)) with (cursorAfter (position o) rs).
      change (worldAfter w (o :: ?rs)) with (worldAfter (sinkWorld o) rs).
      rewrite Hp. now apply Hlast.
Qed.

End StreamFacts.

(** X14. The output streamer puts every byte into the blob once.  The
    storage service keeps an append blob: a block handed to it is added at
    the end of the blob exactly when the service answers without error.  Over
    any number of [appendToBlob] calls on a file that only grows, each
    started at the cursor and in the world the call before left and the
    first at cursor 0, the blob ends up holding what it held before followed
    by exactly the first [p] bytes of the file as the last call found it, [p]
    being the final cursor: no byte twice, none skipped, none out of order,
    whichever blocks the service refused on the way.  When the last call
    finds nothing unread, or the service answers its block without error,
    that is the whole file. *)
Theorem stream_sends_each_byte_once {BlobRef Client World : Type}
    (RefAppend : BlobRef -> list Byte.byte -> World -> option string * World)
    (ClientAppend : Client -> list Byte.byte -> World -> option string * World)
    (blob : World -> list Byte.byte)
    (views : list (gmap string (list Byte.byte))) (sourceFilePath : string)
    (appendBlobRef : option BlobRef) (appendBlobClient : option Client) (w : World) :
  (appendBlobRef <> None \/ appendBlobClient <> None) ->
  appendsTo blob RefAppend ->
  appendsTo blob ClientAppend ->
  grows sourceFilePath [] views ->
  let rs := stream RefAppend ClientAppend views sourceFilePath
              appendBlobRef appendBlobClient 0 w in
  let p := cursorAfter 0 rs in
  let c := lastContent sourceFilePath [] views in
  0 <= p <= Z.of_nat (length c)
  /\ blob (worldAfter w rs) = blob w ++ take (Z.to_nat p) c
  /\ (forall views0 fs, views = views0 ++ [fs] ->
        let rs0 := stream RefAppend ClientAppend views0 sourceFilePath
                     appendBlobRef appendBlobClient 0 w in
        let unread := fst (GetFileFromPosition fs sourceFilePath (cursorAfter 0 rs0)) in
        unread = []
        \/ fst (handOver RefAppend ClientAppend appendBlobRef appendBlobClient unread
                  (worldAfter w rs0)) = None ->
        blob (worldAfter w rs) = blob w ++ c).
Proof.
  intros Hsink Href Hclient Hgrow. cbv zeta.
  destruct (stream_invariant RefAppend ClientAppend blob Href Hclient views sourceFilePath
              appendBlobRef appendBlobClient [] 0 w (blob w) Hsink Hgrow
              ltac:(cbn; lia) ltac:(cbn; now rewrite app_nil_r))
    as (Hr & Hb & Hlast).
  split; [exact Hr|]. split; [exact Hb|].
  intros views0 fs Heq Hanswer. rewrite Hb, (Hlast views0 fs Heq Hanswer), Nat2Z.id.
  now rewrite firstn_all.
Qed.

Lemma stream_sends_each_byte_once_witness :
  let v1 : gmap string (list Byte.byte) := {[ "stdout" := [Byte.x68; Byte.x69] ]} in
  let v2 : gmap string (list Byte.byte) := {[ "stdout" := [Byte.x68; Byte.x69; Byte.x0a] ]} in
  let rs := stream busyBlob busyBlob [v1; v1; v2; v2] "stdout" (Some tt) None 0
              (0%nat, []) in
  map appendErr rs = [None; None; Some "503 The server is busy."; None]
  /\ snd (worldAfter (0%nat, []) rs) = [Byte.x68; Byte.x69; Byte.x0a]
  /\ cursorAfter 0 rs = 3.
Proof.
  cbv zeta.
  pose proof (stream_sends_each_byte_once busyBlob busyBlob snd
                [{[ "stdout" := [Byte.x68; Byte.x69] ]};
                 {[ "stdout" := [Byte.x68; Byte.x69] ]};
                 {[ "stdout" := [Byte.x68; Byte.x69; Byte.x0a] ]};
                 {[ "stdout" := [Byte.x68; Byte.x69; Byte.x0a] ]}]
                "stdout" (Some tt) None (0%nat, [])) as H.
  cbv zeta in H.
  assert (Hblob : appendsTo snd busyBlob).
  { intros sink chunk w. unfold busyBlob. now destruct (Nat.even (fst w)). }
  destruct H as (_ & Hb & _).
  - left. discriminate.
  - exact Hblob.
  - exact Hblob.
  - cbn [grows]. exists [Byte.x68; Byte.x69].
    split; [apply lookup_singleton_eq|]. split; [vm_compute; discriminate|].
    exists []. split; [apply lookup_singleton_eq|]. split; [vm_compute; discriminate|].
    exists [Byte.x0a]. split; [apply lookup_singleton_eq|].
    split; [vm_compute; discriminate|].
    exists []. split; [apply lookup_singleton_eq|].
    split; [vm_compute; discriminate | exact I].
  - split; [vm_compute; reflexivity|]. split; [|vm_compute; reflexivity].
    rewrite Hb. vm_compute. reflexivity.
Defined.

(* ===================================================================== *)
(** * Further properties of the blob sinks                                  *)
(* ===================================================================== *)

(** X15. Which identity is asked for, and what comes back.  With a client
    id the user-assigned identity of that id is requested, whatever the
    object id says; an identity given by object id alone is refused before
    any service is called; without either, the system-assigned identity is
    requested.  After the request the outcome follows the services' answers:
    when the identity service answers with an error, that error is returned,
    wrapped, and neither a client is made nor a blob created; when making the
    client fails, that error is returned, wrapped, and no blob is created;
    otherwise the blob is created with that client, and the client is handed
    back exactly when the creation is answered without error, its error
    being returned, wrapped, otherwise.  Each call is made in the world the
    call before left. *)
Theorem managed_identity_selection {Cred Client World : Type}
    (NewCred : option string -> World -> (Cred + string) * World)
    (NewClient : string -> Cred -> World -> (Client + string) * World)
    (Create : Client -> World -> option string * World)
    (UriForLogging : string -> string)
    (blobUri : string) (managedIdentity : option RunCommandManagedIdentity) (w : World) :
  let o := createOrReplaceAppendBlobUsingManagedIdentity NewCred NewClient Create
             UriForLogging blobUri managedIdentity w in
  let notAppendBlob :=
    "'. Make sure you are using Append blob. Other types of blob such as PageBlob, BlockBlob are not supported types." in
  (forall mi, managedIdentity = Some mi -> ClientId mi <> "" ->
     exists rest, miLog o = NewManagedIdentityCredential (Some (ClientId mi)) :: rest)
  /\ (forall mi, managedIdentity = Some mi -> ClientId mi = "" -> ObjectId mi <> "" ->
     miLog o = [] /\ miWorld o = w /\ miClient o = None
     /\ miErr o = Some "Managed identity's ObjectId is not supported. Use ClientId instead")
  /\ ((managedIdentity = None
       \/ exists mi, managedIdentity = Some mi /\ ClientId mi = "" /\ ObjectId mi = "") ->
     exists rest, miLog o = NewManagedIdentityCredential None :: rest)
  /\ (forall options rest, miLog o = NewManagedIdentityCredential options :: rest ->
        let credential := NewCred options w in
        match fst credential with
        | inr e =>
            o = mkMiOutcome None
                  (Some (errors.Wrap e "Error while retrieving managed identity credential"))
                  (snd credential) [NewManagedIdentityCredential options]
        | inl cred =>
            let made := NewClient blobUri cred (snd credential) in
            match fst made with
            | inr e =>
                o = mkMiOutcome None
                      (Some (errors.Wrap e
                         ("Error Creating client to Append Blob '" +:+
                          UriForLogging blobUri +:+ notAppendBlob)))
                      (snd made)
                      [NewManagedIdentityCredential options; NewAppendBlobClient blobUri]
            | inl client =>
                let created := Create client (snd made) in
                o = mkMiOutcome
                      (match fst created with Some _ => None | None => Some client end)
                      (match fst created with
                       | Some e =>
                           Some (errors.Wrap e
                              ("Error creating or replacing the Append blob '" +:+
                               UriForLogging blobUri +:+ notAppendBlob))
                       | None => None
                       end)
                      (snd created)
                      [NewManagedIdentityCredential options; NewAppendBlobClient blobUri;
                       AppendBlobCreate blobUri]
            end
        end).
Proof.
  cbv zeta. unfold createOrReplaceAppendBlobUsingManagedIdentity.
  destruct managedIdentity as [mi|];
    [destruct (String.eqb_spec (ClientId mi) "") as [Hc|Hc];
     [destruct (String.eqb_spec (ObjectId mi) "") as [Ho|Ho]|]|];
    cbn [negb]; rewrite ?String.eqb_refl; cbn [negb];
    try (destruct (String.eqb_spec (ClientId mi) "") as [|_]; [contradiction|]; cbn [negb]);
    try (destruct (NewCred _ w) as [[cred|e] w1] eqn:Ecred;
         [destruct (NewClient blobUri cred w1) as [[client|e] w2] eqn:Emade;
          [destruct (Create client w2) as [[e|] w3] eqn:Ecreated|]|]);
    cbn [miLog miWorld miClient miErr app].
  all: split; [try discriminate; intros mi' Hmi; injection Hmi as <-; intros;
               try contradiction; eauto|].
  all: split; [try discriminate; intros mi' Hmi; injection Hmi as <-; intros;
               try contradiction; now repeat split|].
  all: split; [intros [Hn|(mi' & Hmi & Hce & Hoe)];
               try discriminate; try (injection Hmi as <-; try contradiction); eauto|].
  all: intros options rest Hlog; try discriminate Hlog; injection Hlog as <- _.
  all: rewrite Ecred; cbn [fst snd]; try rewrite Emade; cbn [fst snd];
    try rewrite Ecreated; reflexivity.
Qed.

Section HandleFacts.

Context {BlobRef Cred Client World : Type}.
Variable SAS : string -> string -> World -> (option BlobRef * option string) * World.
Variable NewCred : option string -> World -> (Cred + string) * World.
Variable NewClient : string -> Cred -> World -> (Client + string) * World.
Variable Create : Client -> World -> option string * World.
Variable UriForLogging : string -> string.
Variable RefAppend : BlobRef -> list Byte.byte -> World -> option string * World.
Variable ClientAppend : Client -> list Byte.byte -> World -> option string * World.


End HandleFacts.


(* ===================================================================== *)
(** * Properties of enable before the script starts                         *)
(* ===================================================================== *)

Section EnableFacts.

Context {BlobRef Cred Client World : Type}.
Variable SAS : string -> string -> World -> (option BlobRef * option string) * World.
Variable NewCred : option string -> World -> (Cred + string) * World.
Variable NewClient : string -> Cred -> World -> (Client + string) * World.
Variable Create : Client -> World -> option string * World.
Variable UriForLogging : string -> string.

Lemma enable_sinks_code (cfg : HandlerSettings) (w : World) (e : string) (code : ExitCode) :
  fst (fst (enable_sinks SAS NewCred NewClient Create UriForLogging cfg w))
  = SinksFailed e code ->
  code = ExitCode_BlobCreateOrReplaceFailed.
Proof.
  pose proof (enable_sinks_outcome SAS NewCred NewClient Create UriForLogging cfg w) as H.
  cbv zeta in H. intros Hs. rewrite Hs in H.
  destruct (blobErr _) as [e1|]; [congruence|].
  destruct (blobErr _) as [e2|]; congruence.
Qed.

End EnableFacts.

(** X17. [enable] goes through its steps in a fixed order, each in the
    world the step before left, and stops at the first one that answers with
    an error.  When the settings cannot be read, that error is returned,
    wrapped, with the code for a failed settings read, and nothing else was
    asked for.  When the immediate variant answers with an error, that error
    and the number that came with it are returned as they are, whichever
    number it is, and nothing is fetched.  When [downloadScript] fails, its
    error is returned, wrapped, with the code for a failed script download,
    and no artifact is fetched; when [downloadArtifacts] fails, its error is
    returned, wrapped, with the code for a failed artifact download, and no
    blob is touched.  When the creation of a blob fails the code is the one
    for a failed blob creation.  When every step answers without error, the
    script is started on the settings read, in the directory
    [DataDir/DownloadDir/SeqNum], with the file [downloadScript] handed back
    and the blob handles created. *)
Theorem enable_stops_at_first_failure
    {HandlerEnvironment Cfg Artifact BlobRef Cred Client World : Type}
    (codeOf : ExitCode -> Z)
    (ConfigFolder : HandlerEnvironment -> string)
    (GetSettings : string -> string -> Z -> World -> (Cfg + string) * World)
    (Immediate :
       HandlerEnvironment -> string -> Z -> Cfg -> World -> (Z * option string) * World)
    (blobSettings : Cfg -> HandlerSettings)
    (ScriptURI : Cfg -> string)
    (ReadArtifacts : Cfg -> option (list Artifact) * option string)
    (ArtifactUri : Artifact -> string)
    (DataDir : string)
    (filepath_Join : list string -> string)
    (os_MkdirAll : string -> World -> option string * World)
    (FetchScript : string -> string -> Cfg -> World -> (string * option string) * World)
    (FetchArtifact : string -> Artifact -> World -> (string * option string) * World)
    (telemetryResult : string -> string -> bool -> World -> World)
    (SAS : string -> string -> World -> (option BlobRef * option string) * World)
    (NewCred : option string -> World -> (Cred + string) * World)
    (NewClient : string -> Cred -> World -> (Client + string) * World)
    (Create : Client -> World -> option string * World)
    (UriForLogging : string -> string)
    (h : HandlerEnvironment) (ExtName : string) (SeqNum : Z) (DownloadDir : string)
    (w : World) :
  let o := enable_prepare codeOf ConfigFolder GetSettings Immediate blobSettings ScriptURI
             ReadArtifacts ArtifactUri DataDir filepath_Join os_MkdirAll FetchScript
             FetchArtifact telemetryResult SAS NewCred NewClient Create UriForLogging
             h ExtName SeqNum DownloadDir w in
  let asked := GetHandlerSettings (Artifact := Artifact) (ConfigFolder h) ExtName SeqNum in
  let settings := GetSettings (ConfigFolder h) ExtName SeqNum w in
  let d := filepath_Join [DataDir; DownloadDir; golang.itoa SeqNum] in
  (forall e, fst settings = inr e ->
     stage o = inl (errors.Wrap e "failed to get configuration",
                    codeOf ExitCode_GetHandlerSettingsFailed)
     /\ prepareCalls o = [asked]
     /\ prepareWorld o = snd settings)
  /\ (forall cfg, fst settings = inl cfg ->
     let immediate := Immediate h ExtName SeqNum cfg (snd settings) in
     let s := downloadScript (Artifact := Artifact) ScriptURI os_MkdirAll FetchScript
                telemetryResult d cfg (snd immediate) in
     let a := downloadArtifacts ReadArtifacts ArtifactUri FetchArtifact d cfg
                (fetchWorld s) in
     let sinks := enable_sinks SAS NewCred NewClient Create UriForLogging
                    (blobSettings cfg) (fetchWorld a) in
     (forall e, snd (fst immediate) = Some e ->
        stage o = inl (e, fst (fst immediate))
        /\ prepareCalls o = [asked; ImmediateEnable]
        /\ prepareWorld o = snd immediate)
     /\ (forall e, snd (fst immediate) = None -> fetchErr s = Some e ->
        stage o = inl (errors.Wrap e (scriptDownloadError (UriForLogging (ScriptURI cfg))),
                       codeOf ExitCode_ScriptBlobDownloadFailed)
        /\ prepareCalls o = asked :: ImmediateEnable :: map Fetch (fetchCalls s)
        /\ prepareWorld o = fetchWorld s)
     /\ (forall e, snd (fst immediate) = None -> fetchErr s = None -> fetchErr a = Some e ->
        stage o = inl (errors.Wrap e artifactDownloadError,
                       codeOf ExitCode_DownloadArtifactFailed)
        /\ prepareCalls o
           = asked :: ImmediateEnable :: map Fetch (fetchCalls s ++ fetchCalls a)
        /\ prepareWorld o = fetchWorld a)
     /\ (snd (fst immediate) = None -> fetchErr s = None -> fetchErr a = None ->
        prepareCalls o
        = asked :: ImmediateEnable
          :: map Fetch (fetchCalls s ++ fetchCalls a) ++ map Sink (snd sinks)
        /\ prepareWorld o = snd (fst sinks)
        /\ (forall e code, fst (fst sinks) = SinksFailed e code ->
              stage o = inl (e, codeOf ExitCode_BlobCreateOrReplaceFailed))
        /\ (forall handles, fst (fst sinks) = SinksReady handles ->
              stage o = inr (mkPrepared cfg d (fetched s) handles)))).
Proof.
  cbv zeta. unfold enable_prepare.
  destruct (GetSettings (ConfigFolder h) ExtName SeqNum w) as [[cfg|e] w1]; cbn [fst snd].
  2:{ split; [|intros cfg H; discriminate H].
      intros e' He. injection He as <-. now repeat split. }
  split; [intros e H; discriminate H|]. intros cfg' Hcfg. injection Hcfg as <-.
  destruct (Immediate h ExtName SeqNum cfg w1) as [[code [e|]] w2]; cbn [fst snd].
  { split; [intros e' He; injection He as <-; now repeat split|].
    repeat split; intros; discriminate. }
  split; [intros e H; discriminate H|].
  set (d := filepath_Join [DataDir; DownloadDir; golang.itoa SeqNum]).
  set (s := downloadScript ScriptURI os_MkdirAll FetchScript telemetryResult d cfg w2).
  destruct (fetchErr s) as [e|].
  { split; [intros e' _ He; injection He as <-; now repeat split|].
    repeat split; intros; discriminate. }
  split; [intros e _ H; discriminate H|].
  set (a := downloadArtifacts ReadArtifacts ArtifactUri FetchArtifact d cfg (fetchWorld s)).
  destruct (fetchErr a) as [e|].
  { split; [|intros; discriminate].
    intros e' _ _ He. injection He as <-. cbn [stage prepareCalls prepareWorld app].
    rewrite map_app. now repeat split. }
  split; [intros e _ _ H; discriminate H|]. intros _ _ _.
  pose proof (enable_sinks_code SAS NewCred NewClient Create UriForLogging
                (blobSettings cfg) (fetchWorld a)) as Hcode.
  destruct (enable_sinks SAS NewCred NewClient Create UriForLogging (blobSettings cfg)
              (fetchWorld a)) as [[[e code'|hd] w3] evs]; cbn [fst snd] in *.
  - rewrite (Hcode e code' eq_refl). cbn [stage prepareCalls prepareWorld app].
    rewrite map_app, <- app_assoc. split; [reflexivity|]. split; [reflexivity|].
    split; [|intros hd H; discriminate H].
    intros e' code0 Hs. now injection Hs as <- _.
  - cbn [stage prepareCalls prepareWorld app].
    rewrite map_app, <- app_assoc. split; [reflexivity|]. split; [reflexivity|].
    split; [intros e code0 H; discriminate H|].
    intros hd' Hs. now injection Hs as <-.
Qed.

(* ===================================================================== *)
(** * Properties of unit registration                                       *)
(* ===================================================================== *)

Import servicehandler.

(** X18. [Register] removes the old unit file, creates the new one, reloads
    the daemon and enables the unit, in this order and each in the world the
    step before left, and stops at the first step the unit manager answers
    with an error, whose text it returns behind the name of that step.  An
    old unit file that does not exist is the one error it passes over: the
    new file is created all the same.  It returns no error exactly when the
    removal is answered without error or with a not-exist error and the
    three other steps are answered without error. *)
Theorem Register_steps {M World : Type} `{UnitManager M World}
    (handler : Handler M) (unitConfigContent : string) (w : World) :
  let r := Handler_Register handler unitConfigContent w in
  let name := Name (config handler) in
  let removed := RemoveUnitConfigurationFile (manager handler) name w in
  let created :=
    CreateUnitConfigurationFile (manager handler) name unitConfigContent (snd removed) in
  let reloaded := DaemonReload (manager handler) name (snd created) in
  let enabled := EnableUnit (manager handler) name (snd reloaded) in
  let passed := fst removed = None \/ exists e, fst removed = Some e /\ notExist e = true in
  let steps := [CallRemoveUnitConfigurationFile name;
                CallCreateUnitConfigurationFile name unitConfigContent;
                CallDaemonReload name;
                CallEnableUnit name] in
  (forall e, fst removed = Some e -> notExist e = false ->
     regErr r = Some ("error while removing old unit configuration file: " +:+ text e)
     /\ regCalls r = take 1 steps /\ regWorld r = snd removed)
  /\ (forall e, passed -> fst created = Some e ->
     regErr r = Some ("error while creating unit configuration file: " +:+ text e)
     /\ regCalls r = take 2 steps /\ regWorld r = snd created)
  /\ (forall e, passed -> fst created = None -> fst reloaded = Some e ->
     regErr r = Some ("error while reloading daemon worker: " +:+ text e)
     /\ regCalls r = take 3 steps /\ regWorld r = snd reloaded)
  /\ (forall e, passed -> fst created = None -> fst reloaded = None ->
     fst enabled = Some e ->
     regErr r = Some ("error while enabling unit: " +:+ text e)
     /\ regCalls r = steps /\ regWorld r = snd enabled)
  /\ (passed -> fst created = None -> fst reloaded = None -> fst enabled = None ->
     regErr r = None /\ regCalls r = steps /\ regWorld r = snd enabled)
  /\ (regErr r = None ->
     passed /\ fst created = None /\ fst reloaded = None /\ fst enabled = None).
Proof.
  cbv zeta. unfold Handler_Register, Handler_DaemonReload, Handler_Enable.
  destruct (RemoveUnitConfigurationFile (manager handler) (Name (config handler)) w)
    as [old w1].
  destruct old as [e0|]; [destruct (notExist e0) eqn:Hn|]; cbn [negb fst snd].
  2:{ split; [intros e He _; injection He as <-; now repeat split|].
      repeat split; try discriminate;
        intros; repeat match goal with
                       | Hp : _ \/ _ |- _ => destruct Hp as [Hp|(e' & Hp & Hp')]
                       end; congruence. }
  all: (split; [intros e He Hne; try discriminate He; injection He as <-; congruence|]).
  all: destruct (CreateUnitConfigurationFile _ _ unitConfigContent w1) as [[e1|] w2];
    cbn [fst snd];
    [split; [intros e _ He; injection He as <-; now repeat split|];
     repeat split; try discriminate; intros; discriminate|].
  all: (split; [intros e _ He; discriminate He|]).
  all: destruct (DaemonReload _ _ w2) as [[e2|] w3]; cbn [fst snd];
    [split; [intros e _ _ He; injection He as <-; now repeat split|];
     repeat split; try discriminate; intros; discriminate|].
  all: (split; [intros e _ _ He; discriminate He|]).
  all: destruct (EnableUnit _ _ w3) as [[e3|] w4]; cbn [fst snd].
  all: split; [intros e _ _ _ He; try discriminate He; injection He as <-;
               now repeat split|].
  all: split; [intros _ _ _ He; try discriminate He; now repeat split|].
  all: cbn [regErr]; intros He; try discriminate He.
  all: split; [eauto | now repeat split].
Qed.

(** X19. [DeRegister] reloads the daemon, stops the unit, disables it and
    removes its unit file, in this order and each in the world the step
    before left.  It stops at the first step the unit manager answers with
    an error, whose text it returns behind the name of that step, so the unit
    file is removed only after the reload, the stop and the disabling were
    all answered without error.  It returns no error exactly when all four
    steps are answered without error. *)
Theorem DeRegister_steps {M World : Type} `{UnitManager M World}
    (handler : Handler M) (w : World) :
  let r := Handler_DeRegister handler w in
  let name := Name (config handler) in
  let reloaded := DaemonReload (manager handler) name w in
  let stopped := StopUnit (manager handler) name (snd reloaded) in
  let disabled := DisableUnit (manager handler) name (snd stopped) in
  let removed := RemoveUnitConfigurationFile (manager handler) name (snd disabled) in
  let steps := [CallDaemonReload name; CallStopUnit name; CallDisableUnit name;
                CallRemoveUnitConfigurationFile name] in
  (forall e, fst reloaded = Some e ->
     regErr r = Some ("error while reloading daemon : " +:+ text e)
     /\ regCalls r = take 1 steps /\ regWorld r = snd reloaded)
  /\ (forall e, fst reloaded = None -> fst stopped = Some e ->
     regErr r = Some ("error while stopping unit : " +:+ text e)
     /\ regCalls r = take 2 steps /\ regWorld r = snd stopped)
  /\ (forall e, fst reloaded = None -> fst stopped = None -> fst disabled = Some e ->
     regErr r = Some ("error while disabling unit : " +:+ text e)
     /\ regCalls r = take 3 steps /\ regWorld r = snd disabled)
  /\ (forall e, fst reloaded = None -> fst stopped = None -> fst disabled = None ->
     fst removed = Some e ->
     regErr r = Some ("error while removing unit configuration : " +:+ text e)
     /\ regCalls r = steps /\ regWorld r = snd removed)
  /\ (fst reloaded = None -> fst stopped = None -> fst disabled = None ->
     fst removed = None ->
     regErr r = None /\ regCalls r = steps /\ regWorld r = snd removed)
  /\ (In (CallRemoveUnitConfigurationFile name) (regCalls r) \/ regErr r = None ->
     fst reloaded = None /\ fst stopped = None /\ fst disabled = None
     /\ (regErr r = None -> fst removed = None)).
Proof.
  cbv zeta. unfold Handler_DeRegister, Handler_DaemonReload, Handler_Stop, Handler_Disable.
  destruct (DaemonReload _ _ w) as [[e0|] w1]; cbn [fst snd].
  { split; [intros e He; injection He as <-; now repeat split|].
    repeat split; try discriminate; intros;
      repeat match goal with
             | Hp : _ \/ _ |- _ => destruct Hp as [Hp|Hp]
             | Hp : In _ _ |- _ => cbn in Hp
             end; try discriminate; try contradiction. }
  split; [intros e He; discriminate He|].
  destruct (StopUnit _ _ w1) as [[e1|] w2]; cbn [fst snd].
  { split; [intros e _ He; injection He as <-; now repeat split|].
    repeat split; try discriminate; intros;
      repeat match goal with
             | Hp : _ \/ _ |- _ => destruct Hp as [Hp|Hp]
             | Hp : In _ _ |- _ => cbn in Hp
             end; try discriminate; try contradiction. }
  split; [intros e _ He; discriminate He|].
  destruct (DisableUnit _ _ w2) as [[e2|] w3]; cbn [fst snd].
  { split; [intros e _ _ He; injection He as <-; now repeat split|].
    repeat split; try discriminate; intros;
      repeat match goal with
             | Hp : _ \/ _ |- _ => destruct Hp as [Hp|Hp]
             | Hp : In _ _ |- _ => cbn in Hp
             end; try discriminate; try contradiction. }
  split; [intros e _ _ He; discriminate He|].
  destruct (RemoveUnitConfigurationFile _ _ w3) as [[e3|] w4]; cbn [fst snd].
  - split; [intros e _ _ _ He; injection He as <-; now repeat split|].
    split; [intros _ _ _ He; discriminate He|].
    intros _. repeat split. intros He. discriminate He.
  - split; [intros e _ _ _ He; discriminate He|].
    split; [intros _ _ _ _; now repeat split|].
    intros _. now repeat split.
Qed.

(* ===================================================================== *)
(** * Properties of the shell shim                                          *)
(* ===================================================================== *)

Section LockFacts.

Context {World : Type}.
Variable look : World -> shim.finding * World.
Variable sleep : Z -> World -> World.

Lemma waitLoop_spec (rounds retry_attempts : nat) (w : World) :
  exists n : nat,
    (n <= rounds)%nat
    /\ (forall k, (k < n)%nat ->
          fst (look (shim.afterLooks look sleep k w)) = shim.WriteLock)
    /\ ((n < rounds)%nat ->
          fst (look (shim.afterLooks look sleep n w)) <> shim.WriteLock)
    /\ shim.waitLoop look sleep rounds retry_attempts w
       = (if (n <? rounds)%nat then snd (look (shim.afterLooks look sleep n w))
          else shim.afterLooks look sleep n w,
          flat_map shim.lockedRound (seq (S retry_attempts) n)
          ++ (if (n <? rounds)%nat then [shim.Lsof] else [])).
Proof.
  revert retry_attempts w.
  induction rounds as [|rounds IH]; intros retry_attempts w.
  - exists 0%nat. cbn. repeat split; lia.
  - cbn [shim.waitLoop]. destruct (look w) as [found w1] eqn:Elook.
    assert (Hstop : found <> shim.WriteLock ->
              exists n : nat,
                (n <= S rounds)%nat
                /\ (forall k, (k < n)%nat ->
                      fst (look (shim.afterLooks look sleep k w)) = shim.WriteLock)
                /\ ((n < S rounds)%nat ->
                      fst (look (shim.afterLooks look sleep n w)) <> shim.WriteLock)
                /\ (w1, [shim.Lsof])
                   = (if (n <? S rounds)%nat
                      then snd (look (shim.afterLooks look sleep n w))
                      else shim.afterLooks look sleep n w,
                      flat_map shim.lockedRound (seq (S retry_attempts) n)
                      ++ (if (n <? S rounds)%nat then [shim.Lsof] else []))).
    { intros Hf. exists 0%nat. change (shim.afterLooks look sleep 0 w) with w.
      cbn [seq flat_map app]. rewrite Elook. cbn [fst snd]. change (0 <? S rounds)%nat with true.
      split; [lia|]. split; [intros k Hk; lia|]. split; [intros _; exact Hf|].
      reflexivity. }
    destruct found; [apply Hstop; discriminate | apply Hstop; discriminate|].
    clear Hstop.
    destruct (IH (S retry_attempts) (sleep 3 w1)) as (n & Hn & Hlocked & Hfree & Hloop).
    assert (Hshift : forall k, shim.afterLooks look sleep (S k) w
                               = shim.afterLooks look sleep k (sleep 3 w1)).
    { intros k. unfold shim.afterLooks. rewrite Nat.iter_succ_r, Elook. reflexivity. }
    exists (S n). split; [lia|]. split; [|split].
    + intros [|k] Hk.
      * change (shim.afterLooks look sleep 0 w) with w. now rewrite Elook.
      * rewrite Hshift. apply Hlocked. lia.
    + intros Hlt. rewrite Hshift. apply Hfree. lia.
    + rewrite Hloop, Hshift. change (S n <? S rounds)%nat with (n <? rounds)%nat.
      reflexivity.
Qed.

Lemma looks_lockedRounds (attempts : list nat) (later : list shim.shimEvent) :
  shim.looks (flat_map shim.lockedRound attempts ++ later)
  = Z.of_nat (length attempts) + shim.looks later.
Proof.
  induction attempts as [|k attempts IH]; [reflexivity|].
  cbn [flat_map shim.lockedRound app shim.looks length]. rewrite IH. lia.
Qed.

Lemma waited_lockedRounds (attempts : list nat) (later : list shim.shimEvent) :
  shim.waited (flat_map shim.lockedRound attempts ++ later)
  = 3 * Z.of_nat (length attempts) + shim.waited later.
Proof.
  induction attempts as [|k attempts IH]; [reflexivity|].
  cbn [flat_map shim.lockedRound app shim.waited length]. rewrite IH. lia.
Qed.

End LockFacts.

(** X20. The shim looks at the handler binary until a look finds no write
    lock or cannot tell, and gives up after ten looks; it never fails
    because of the lock.  With [n] the number of looks in a row that find a
    write lock, counted from the first and at most ten, each look made after
    the three seconds of sleep that follow the one before: the shim does
    exactly [n] rounds of a look, the two messages (the second with the
    number of the attempt) and a sleep of three seconds, followed, when [n]
    is less than ten, by the one look that ended the wait.  That makes
    [n + 1] looks, ten at most, and [3 n] seconds of sleep, thirty at most:
    the shim sleeps also after the tenth look that finds a write lock. *)
Theorem check_binary_write_lock_bounded {World : Type}
    (look : World -> shim.finding * World) (sleep : Z -> World -> World) (w : World) :
  let r := shim.check_binary_write_lock look sleep w in
  let evs := snd r in
  exists n : nat,
    (n <= 10)%nat
    /\ (forall k, (k < n)%nat ->
          fst (look (shim.afterLooks look sleep k w)) = shim.WriteLock)
    /\ ((n < 10)%nat -> fst (look (shim.afterLooks look sleep n w)) <> shim.WriteLock)
    /\ fst (fst r) = 0
    /\ evs = flat_map shim.lockedRound (seq 1 n)
             ++ (if (n <? 10)%nat then [shim.Lsof] else [])
    /\ snd (fst r) = (if (n <? 10)%nat then snd (look (shim.afterLooks look sleep n w))
                      else shim.afterLooks look sleep n w)
    /\ shim.looks evs = Z.of_nat (Nat.min (S n) 10)
    /\ shim.waited evs = 3 * Z.of_nat n.
Proof.
  cbv zeta. unfold shim.check_binary_write_lock.
  destruct (waitLoop_spec look sleep 10 0 w) as (n & Hn & Hlocked & Hfree & Hloop).
  rewrite Hloop. cbn [fst snd]. exists n.
  split; [exact Hn|]. split; [exact Hlocked|]. split; [exact Hfree|].
  split; [reflexivity|]. split; [reflexivity|]. split; [reflexivity|].
  rewrite looks_lockedRounds, waited_lockedRounds, length_seq.
  destruct (Nat.ltb_spec n 10); cbn [shim.looks shim.waited]; split; lia.
Qed.
